(** * n2kd: the NMEA 2000 JSON aggregation daemon (n2kd/main.c)

    A shallow embedding of the record parser and message store
    ([handleMessageByte]), the snapshot serializer ([getFullStateJSON]),
    the client request reader ([handleClientRequest]) and the write phase
    ([writeAllClients]), with the properties of the specification stated
    and settled against them.

    Conventions.  A C [char] is an [ascii]; a region of memory is a
    [list ascii] and a pointer into it is a [nat] offset.  C integers are
    [Z] with the conversions written out.  The clock ([time(0)], [epoch()])
    and the results of [read] and [select] are arguments of the functions
    that consult them.  Allocation is assumed to succeed.  A function
    whose C code reads or stores outside an object has the result
    [Undef] there; the one store kept apart is the terminator that
    [appendJSONMessage] puts behind the accumulated lines, whose bound
    is the predicate [appendInBounds]. *)

From Stdlib Require Import ZArith Ascii String List Lia Bool.
From Stdlib Require Import Numbers.DecimalString Numbers.DecimalN Numbers.DecimalPos.
From stdpp Require Import base option list gmap.

Local Open Scope Z_scope.
Local Open Scope list_scope.

(** ** Characters and literals *)

Definition NUL : ascii := "000"%char.
Definition LF : ascii := "010"%char.
Definition dq : ascii := "034"%char.
Definition SP : ascii := " "%char.

Definition lit (s : string) : list ascii := list_ascii_of_string s.

(** JSON text for examples: every apostrophe stands for a double quote. *)
Definition js (s : string) : list ascii :=
  map (fun c => if Ascii.eqb c "'"%char then dq else c) (lit s).

(** ** The C library functions the program calls *)

Module libc.

Definition is_nul (c : ascii) : bool := Ascii.eqb c NUL.

(** The C string that starts at the head of the region [m]: the bytes
    before the first NUL. *)
Fixpoint cstring (m : list ascii) : list ascii :=
  match m with
  | [] => []
  | c :: t => if is_nul c then [] else c :: cstring t
  end.

Definition strlen (m : list ascii) : nat := length (cstring m).

Fixpoint is_prefix (p s : list ascii) : bool :=
  match p, s with
  | [], _ => true
  | a :: p', b :: s' => Ascii.eqb a b && is_prefix p' s'
  | _ :: _, [] => false
  end.

Fixpoint find_sub (needle s : list ascii) : option nat :=
  if is_prefix needle s then Some 0%nat
  else match s with
       | [] => None
       | _ :: t => S <$> find_sub needle t
       end.

(** [strstr(m, needle)]: offset of the first occurrence, [None] for NULL. *)
Definition strstr (m needle : list ascii) : option nat :=
  find_sub needle (cstring m).

Fixpoint find_chr (c : ascii) (s : list ascii) : option nat :=
  match s with
  | [] => None
  | x :: t => if Ascii.eqb x c then Some 0%nat else S <$> find_chr c t
  end.

(** [strchr(m, c)]; the terminator counts as part of the string, so
    looking for NUL finds it. *)
Definition strchr (m : list ascii) (c : ascii) : option nat :=
  if is_nul c then Some (strlen m) else find_chr c (cstring m).

(** [memcmp(m, p, sizeof p - 1) == 0] for a literal [p]. *)
Definition memcmp_eq (m p : list ascii) : bool := is_prefix p m.

Definition list_eqb (a b : list ascii) : bool :=
  bool_decide (a = b).

(** [strcmp(a, b) == 0] on two C strings. *)
Definition strcmp_eq (a b : list ascii) : bool :=
  list_eqb (cstring a) (cstring b).

(** *** [sscanf] with the conversion [%u] *)

Definition isspace (c : ascii) : bool :=
  let n := nat_of_ascii c in
  (n =? 32)%nat || ((9 <=? n)%nat && (n <=? 13)%nat).

Definition isdigit (c : ascii) : bool :=
  let n := nat_of_ascii c in (48 <=? n)%nat && (n <=? 57)%nat.

Fixpoint skip_space (s : list ascii) : list ascii :=
  match s with
  | c :: t => if isspace c then skip_space t else s
  | [] => []
  end.

Fixpoint digits (acc : Z) (s : list ascii) : Z * list ascii :=
  match s with
  | c :: t =>
      if isdigit c
      then digits (10 * acc + (Z.of_nat (nat_of_ascii c) - 48)) t
      else (acc, s)
  | [] => (acc, [])
  end.

(** The value [%u] stores: the digits are converted as [strtoul] does
    on a 64-bit [unsigned long] (saturating, a minus sign negates
    modulo 2^64) and the result is cut to the 32 bits of an
    [unsigned int]. *)
Definition conv_u (neg : bool) (v : Z) : Z :=
  let ul := if 2 ^ 64 <=? v then 2 ^ 64 - 1
            else if neg then (- v) mod 2 ^ 64 else v in
  ul mod 2 ^ 32.

(** One [%u]: white space is skipped, a sign is optional, one digit at
    least is required.  Gives the value and the rest of the input. *)
Definition scan_u (s : list ascii) : option (Z * list ascii) :=
  let s1 := skip_space s in
  let '(neg, s2) :=
    match s1 with
    | c :: t => if Ascii.eqb c "-"%char then (true, t)
                else if Ascii.eqb c "+"%char then (false, t)
                else (false, s1)
    | [] => (false, s1)
    end in
  match s2 with
  | c :: _ => if isdigit c
              then let '(v, rest) := digits 0 s2 in Some (conv_u neg v, rest)
              else None
  | [] => None
  end.

(** Literal characters of a format: each must be the next input byte. *)
Definition scan_lit (p s : list ascii) : option (list ascii) :=
  if is_prefix p s then Some (drop (length p) s) else None.

(** An [unsigned int] read back through an [int] lvalue. *)
Definition to_int (u : Z) : Z := if u <? 2 ^ 31 then u else u - 2 ^ 32.

Definition INT_MIN : Z := - 2 ^ 31.

(** [(uint8_t) x] *)
Definition to_uint8 (x : Z) : Z := x mod 256.

(** [%u] of [printf]. *)
Definition print_u (u : Z) : list ascii :=
  lit (NilEmpty.string_of_uint (N.to_uint (Z.to_N u))).

End libc.

(** ** Outcomes of a call

    [logAbort] ends the process; [Undef] marks behaviour the C standard
    leaves undefined (a store outside an object, a null pointer read). *)

Inductive result (A : Type) : Type :=
| Ret (a : A)
| Abort
| Undef.
Arguments Ret {A} a.
Arguments Abort {A}.
Arguments Undef {A}.

#[global] Instance result_ret : MRet result := fun A a => Ret a.
#[global] Instance result_bind : MBind result := fun A B f x =>
  match x with
  | Ret a => f a
  | Abort => Abort
  | Undef => Undef
  end.

(** ** Data model *)

Definition SENSOR_TIMEOUT : Z := 120.
Definition AIS_TIMEOUT : Z := 3600.
Definition SONICHUB_TIMEOUT : Z := 3600 * 24 * 31.

Definition MIN_PGN : Z := 59391.
Definition MAX_PGN : Z := 131000.
Definition ACTISENSE_BEM : Z := 0x400000.
Definition ACTISENSE_RNG : Z := 0x100.
Definition PGN_SPACE : Z := ACTISENSE_RNG + MAX_PGN - MIN_PGN.

(** The macro [PrnToIdx], on an [int] argument. *)
Definition PrnToIdx (prn : Z) : Z :=
  if prn <=? MAX_PGN then prn - MIN_PGN
  else if prn <=? ACTISENSE_BEM + ACTISENSE_RNG then prn - ACTISENSE_BEM
  else -1.

Record Message : Type := mkMessage
  { m_src : Z                        (* uint8_t *)
  ; m_key2 : option (list ascii)     (* None is the null pointer *)
  ; m_time : Z
  ; m_text : option (list ascii) }.

(** [p_message] is the flexible array; [p_maxSrc] is its length. *)
Record Pgn : Type := mkPgn
  { p_prn : Z
  ; p_description : option (list ascii)
  ; p_message : list Message }.

Definition p_maxSrc (p : Pgn) : nat := length (p_message p).

(** The globals of the parser and the store.  [pgnList] holds pointers
    to slots of [pgnIdx]; they are kept here as the slot indices, so that
    a listed entry always shows the current contents of its slot.
    [readLine] holds the bytes between the start of the static line buffer
    and [readBegin]. *)
Record Data : Type := mkData
  { readLine : list ascii
  ; pgnIdx : gmap Z Pgn
  ; pgnList : list Z
  ; currentMessage : list ascii     (* the first [currentLen] bytes *)
  ; currentAlloc : Z }.

Definition maxPgnList (d : Data) : nat := length (pgnList d).
Definition currentLen (d : Data) : nat := length (currentMessage d).

Definition data0 : Data :=
  {| readLine := []; pgnIdx := ∅; pgnList := [];
     currentMessage := []; currentAlloc := 0 |}.

Definition secondaryKeyList : list (list ascii) :=
  [ lit "Instance" ++ [dq]
  ; dq :: lit "Reference" ++ [dq]
  ; dq :: lit "Message ID" ++ [dq]
  ; dq :: lit "User ID" ++ [dq]
  ; dq :: lit "Proprietary ID" ++ [dq] ].

Definition secondaryKeyTimeout : list Z :=
  [ SENSOR_TIMEOUT; SENSOR_TIMEOUT; AIS_TIMEOUT; AIS_TIMEOUT;
    SENSOR_TIMEOUT; SENSOR_TIMEOUT ].

(** [SKIP_CHARACTERS] *)
Definition SKIP_CHARACTERS : list ascii := [dq; ":"%char; SP].

Definition lit_fields : list ascii := dq :: lit "fields" ++ [dq; ":"%char].
Definition lit_timestamp : list ascii := "{"%char :: dq :: lit "timestamp".
Definition lit_close : list ascii := lit "}}".
Definition lit_src : list ascii := dq :: lit "src" ++ [dq; ":"%char].
Definition lit_description : list ascii :=
  dq :: lit "description" ++ [dq; ":"%char].
(** The literal parts of the [sscanf] format. *)
Definition fmt_dst : list ascii :=
  [dq; ","%char; dq] ++ lit "dst" ++ [dq; ":"%char; dq].
Definition fmt_pgn : list ascii :=
  [dq; ","%char; dq] ++ lit "pgn" ++ [dq; ":"%char; dq].

(** ** The record parser: [handleMessageByte] *)

Module Parser.
Import libc.

(** The locals [src], [dst], [prn]: [int]s without initializer. *)
Record Header : Type := mkHeader { h_src : Z; h_dst : Z; h_prn : Z }.

(** Lines 606-615.  [h0] holds whatever the three locals contain before
    the call; a conversion that is not reached leaves its local as it
    was.  [sizeof] of the literal is 7, one more than its length. *)
Definition scanHeader (mem : list ascii) (h0 : Header) : Header :=
  match strstr mem lit_src with
  | None => h0
  | Some s =>
      let inp := cstring (drop (s + 7) mem) in
      match scan_u inp with
      | None => h0
      | Some (v1, r1) =>
          let h1 := mkHeader (to_int v1) (h_dst h0) (h_prn h0) in
          match scan_lit fmt_dst r1 with
          | None => h1
          | Some r2 =>
              match scan_u r2 with
              | None => h1
              | Some (v2, r3) =>
                  let h2 := mkHeader (to_int v1) (to_int v2) (h_prn h0) in
                  match scan_lit fmt_pgn r3 with
                  | None => h2
                  | Some r4 =>
                      match scan_u r4 with
                      | None => h2
                      | Some (v3, _) =>
                          mkHeader (to_int v1) (to_int v2) (to_int v3)
                      end
                  end
              end
          end
      end
  end.

(** [while (strchr(SKIP_CHARACTERS, *s)) s++]: the number of bytes
    stepped over.  [strchr] finds the terminator too, so a NUL is
    stepped over like the three characters. *)
Fixpoint skipCount (m : list ascii) : nat :=
  match m with
  | c :: t => if is_nul c || bool_decide (c ∈ SKIP_CHARACTERS)
              then S (skipCount t) else 0%nat
  | [] => 0%nat
  end.

(** The choice between the two ends [e] and [e2] (lines 637-646 and
    689-694): [if (!e || e2 < e) e = e2].  A null [e2] compares below
    any found [e]. *)
Definition pickEnd (e e2 : option nat) : option nat :=
  match e, e2 with
  | None, _ => e2
  | Some _, None => None
  | Some a, Some b => if (b <? a)%nat then Some b else Some a
  end.

(** Lines 631-653 for a key found at offset [s]. *)
Definition extractKey (mem : list ascii) (s : nat) (key : list ascii)
  : list ascii :=
  let s1 := (s + length key)%nat in
  let s2 := (s1 + skipCount (drop s1 mem))%nat in
  let tail := drop s2 mem in
  let e := pickEnd (strchr tail SP) (strchr tail dq) in
  let n := match e with Some n => n | None => strlen tail end in
  take n tail.

(** The loop of lines 626-655, from index [k] on: every key is looked
    for, a later match replaces an earlier one, and the loop leaves
    with [k] past the table. *)
Fixpoint keyLoop (mem : list ascii) (keys : list (list ascii)) (k : nat)
    (key2 : option (list ascii)) : nat * option (list ascii) :=
  match keys with
  | [] => (k, key2)
  | key :: rest =>
      let key2' := match strstr mem key with
                   | Some s => Some (extractKey mem s key)
                   | None => key2
                   end in
      keyLoop mem rest (S k) key2'
  end.

(** [appendJSONMessage(message)]: the text of the accumulator and the
    allocation count after the call.  The allocation grows by [len], the
    length without the terminator that [strcpy] stores after the text;
    whether that store stays inside the block is [appendInBounds]
    below. *)
Definition appendJSONMessage (message : list ascii) (d : Data) : Data :=
  let len := Z.of_nat (strlen message) in
  let alloc := if currentAlloc d <? Z.of_nat (currentLen d) + len
               then currentAlloc d + len else currentAlloc d in
  {| readLine := readLine d; pgnIdx := pgnIdx d; pgnList := pgnList d;
     currentMessage := currentMessage d ++ cstring message;
     currentAlloc := alloc |}.

(** The [strcpy] of line 455 stores [len + 1] bytes, the terminator
    included, at offset [currentLen] of the block, which holds
    [currentAlloc] bytes once lines 447-454 have run.  The store stays
    inside the block when: *)
Definition appendInBounds (message : list ascii) (d : Data) : Prop :=
  Z.of_nat (currentLen d) + Z.of_nat (strlen message) + 1
  <= currentAlloc (appendJSONMessage message d).

(** "Find existing key", lines 712-728: the index the loop stops at,
    [i + length ms] when it runs to the end. *)
Fixpoint findExisting (src : Z) (key2 : option (list ascii))
    (ms : list Message) (i : nat) : nat :=
  match ms with
  | [] => i
  | m :: t =>
      if (m_src m =? src) &&
         match m_key2 m with
         | Some k' => match key2 with
                      | Some k => strcmp_eq k' k
                      | None => false
                      end
         | None => true
         end
      then i
      else findExisting src key2 t (S i)
  end.

(** "Reuse expired key", lines 733-746: the index of the first slot
    with [m_time < now]. *)
Fixpoint findExpired (now : Z) (ms : list Message) (i : nat) : nat :=
  match ms with
  | [] => i
  | m :: t => if m_time m <? now then i else findExpired now t (S i)
  end.

Definition setIdent (src : Z) (key2 : option (list ascii)) (m : Message)
  : Message :=
  {| m_src := to_uint8 src; m_key2 := key2;
     m_time := m_time m; m_text := m_text m |}.

Definition setText (text : list ascii) (t : Z) (m : Message) : Message :=
  {| m_src := m_src m; m_key2 := m_key2 m;
     m_time := t; m_text := Some text |}.

(** Lines 711-766: the slot index [i] and the message array once the
    slot is chosen.  [junk] is the content of the [m_time] field of
    memory that [realloc] returns; it is overwritten at line 798. *)
Definition chooseSlot (junk : Z) (src : Z) (key2 : option (list ascii))
    (now : Z) (ms : list Message) : nat * list Message :=
  let i := findExisting src key2 ms 0 in
  if bool_decide (i = length ms) then
    let j := findExpired now ms 0 in
    if bool_decide (j = length ms) then
      (j, ms ++ [ {| m_src := to_uint8 src; m_key2 := key2;
                     m_time := junk; m_text := None |} ])
    else (j, alter (setIdent src key2) j ms)
  else (i, ms).

(** Lines 786-797, with [k] as the loop of lines 626-655 leaves it. *)
Definition validFor (prn : Z) (k : nat) : Z :=
  if prn =? 126996 then AIS_TIMEOUT
  else if prn =? 130816 then SONICHUB_TIMEOUT
  else default 0 (secondaryKeyTimeout !! k).

(** Lines 682-709.  [None] is the early [return] of line 698. *)
Definition describe (mem : list ascii) (prn : Z) (pgn : Pgn) : option Pgn :=
  match p_description pgn with
  | Some _ => Some pgn
  | None =>
      let pgn1 := {| p_prn := prn; p_description := None;
                     p_message := p_message pgn |} in
      match strstr mem lit_description with
      | None => Some pgn1
      | Some s =>
          let tail := drop (s + 15) mem in
          match pickEnd (strchr tail ":"%char) (strchr tail dq) with
          | None => None
          | Some e =>
              Some {| p_prn := prn; p_description := Some (take e tail);
                      p_message := p_message pgn |}
          end
      end
  end.

(** The case in which line 698 returns: a description field whose value
    is followed by neither a colon nor a double quote. *)
Definition openDescription (mem : list ascii) : bool :=
  match strstr mem lit_description with
  | None => false
  | Some s =>
      let tail := drop (s + 15) mem in
      bool_decide (pickEnd (strchr tail ":"%char) (strchr tail dq) = None)
  end.

Definition setPgn (idx : Z) (pgn : Pgn) (d : Data) : Data :=
  {| readLine := readLine d; pgnIdx := <[idx := pgn]> (pgnIdx d);
     pgnList := pgnList d; currentMessage := currentMessage d;
     currentAlloc := currentAlloc d |}.

(** Lines 665-680: the entry of slot [idx], allocated and listed when
    the slot is empty. *)
Definition lookupPgn (idx : Z) (d : Data) : result (Pgn * Data) :=
  match pgnIdx d !! idx with
  | Some pgn => Ret (pgn, d)
  | None =>
      if bool_decide (maxPgnList d = 512%nat) then Abort
      else
        let pgn := {| p_prn := 0; p_description := None; p_message := [] |} in
        Ret (pgn,
             {| readLine := readLine d; pgnIdx := <[idx := pgn]> (pgnIdx d);
                pgnList := pgnList d ++ [idx];
                currentMessage := currentMessage d;
                currentAlloc := currentAlloc d |})
  end.

(** Lines 586-655: the checks on the completed line and the values
    taken from it.  [line] is the content of the buffer up to
    [readBegin], with the terminator that line 581 stores after it;
    [handleLine] calls this for lines of fewer than 4096 bytes only.
    [None] is one of the early [return]s;
    otherwise the result is [src], [prn], the loop index [k] and
    [key2]. *)
Definition parseLine (h0 : Header) (line : list ascii)
  : option (Z * Z * nat * option (list ascii)) :=
  let mem := line ++ [NUL] in
  let r := length line in
  if negb (bool_decide (is_Some (strstr mem lit_fields))) then None
  else if negb (memcmp_eq mem lit_timestamp) then None
  else if negb (memcmp_eq (drop (r - 2) mem) lit_close) then None
  else
    let h := scanHeader mem h0 in
    let src := h_src h in
    let prn := h_prn h in
    if (prn =? 0) || (src =? 0) then None
    else if prn >? MAX_PGN then None
    else
      let '(k, key2) := keyLoop mem secondaryKeyList 0 None in
      Some (src, prn, k, key2).

(** Lines 659-799: the record goes into the store. *)
Definition insertRecord (junk now : Z) (mem : list ascii) (src prn : Z)
    (k : nat) (key2 : option (list ascii)) (d : Data) : result Data :=
  let idx := PrnToIdx prn in
  if idx <? INT_MIN then Undef           (* the subtraction overflows *)
  else if idx <? 0 then Abort
  else
    '(pgn, d2) ← lookupPgn idx d;
    match describe mem prn pgn with
    | None =>
        Ret (setPgn idx {| p_prn := prn; p_description := None;
                           p_message := p_message pgn |} d2)
    | Some pgn1 =>
        let '(i, ms) := chooseSlot junk src key2 now (p_message pgn1) in
        let ms' := alter (setText (cstring mem) (now + validFor prn k)) i ms in
        Ret (setPgn idx {| p_prn := p_prn pgn1;
                           p_description := p_description pgn1;
                           p_message := ms' |} d2)
    end.

(** Lines 581-799: the work done when a line is complete.  Line 581
    stores the terminator at [readLine[r]], [r] being the number of
    bytes gathered: with 4096 bytes gathered that is one byte past the
    array.  The accumulator is taken from [appendJSONMessage]; the bound
    of its [strcpy] is [appendInBounds]. *)
Definition handleLine (h0 : Header) (junk : Z) (now : Z)
    (line : list ascii) (d : Data) : result Data :=
  if (4096 <=? length line)%nat then Undef
  else
    match parseLine h0 line with
    | None => Ret d
    | Some (src, prn, k, key2) =>
        insertRecord junk now (line ++ [NUL]) src prn k key2
          (appendJSONMessage (line ++ [NUL]) d)
    end.

Definition resetLine (d : Data) : Data :=
  {| readLine := []; pgnIdx := pgnIdx d; pgnList := pgnList d;
     currentMessage := currentMessage d; currentAlloc := currentAlloc d |}.

Definition pushByte (c : ascii) (d : Data) : Data :=
  {| readLine := readLine d ++ [c]; pgnIdx := pgnIdx d;
     pgnList := pgnList d; currentMessage := currentMessage d;
     currentAlloc := currentAlloc d |}.

(** [handleMessageByte(c)].  A byte other than the newline that finds
    the buffer full ends the line as well; the line then has 4096 bytes
    and [handleLine] is undefined. *)
Definition handleMessageByte (h0 : Header) (junk : Z) (now : Z)
    (c : ascii) (d : Data) : result Data :=
  if negb (Ascii.eqb c LF) && (length (readLine d) <? 4096)%nat
  then Ret (pushByte c d)
  else handleLine h0 junk now (readLine d) (resetLine d).

(** A sequence of bytes fed one by one, the clock standing at [now]. *)
Fixpoint feed (h0 : Header) (junk : Z) (now : Z) (bs : list ascii)
    (d : Data) : result Data :=
  match bs with
  | [] => Ret d
  | c :: t => d' ← handleMessageByte h0 junk now c d;
              feed h0 junk now t d'
  end.

End Parser.

(** ** The snapshot serializer: [getFullStateJSON] *)

Module Snapshot.
Import libc.

Definition INITIAL_ALLOC : Z := 8192.
Definition NEXT_ALLOC : Z := 4096.

(** The locals [state], [l], [alloc] and [remain]: [bytes] is
    [state[0..l)], so [l] is its length. *)
Record Buf : Type := mkBuf { bytes : list ascii; alloc : Z; remain : Z }.

Definition buf0 : Buf :=
  {| bytes := []; alloc := INITIAL_ALLOC; remain := INITIAL_ALLOC |}.

(** The macro [MAKE_SPACE(x)]: one step of growth, whatever [x] is. *)
Definition MAKE_SPACE (x : Z) (b : Buf) : Buf :=
  if remain b <? x
  then {| bytes := bytes b; alloc := alloc b + NEXT_ALLOC;
          remain := remain b + NEXT_ALLOC |}
  else b.

(** [snprintf(state + l, remain, ...)] for the formatted text [f],
    followed by [INC_L_REMAIN]: at most [remain - 1] characters are
    stored before the terminator, and [l] moves to the terminator. *)
Definition snprintf (f : list ascii) (b : Buf) : Buf :=
  let out := bytes b ++ take (Z.to_nat (remain b - 1)) f in
  {| bytes := out; alloc := alloc b;
     remain := alloc b - Z.of_nat (length out) |}.

(** [strcpy(state + l, s)] followed by [INC_L_REMAIN]; nothing bounds
    the copy. *)
Definition strcpy (s : list ascii) (b : Buf) : result Buf :=
  if remain b <? Z.of_nat (length s) + 1 then Undef
  else
    let out := bytes b ++ s in
    Ret {| bytes := out; alloc := alloc b;
           remain := alloc b - Z.of_nat (length out) |}.

(** The format of line 311. *)
Definition fmtPgn (separator : ascii) (prn : Z) (description : list ascii)
  : list ascii :=
  [separator; dq] ++ print_u prn ++ [dq; ":"%char; LF] ++
  lit "  {" ++ [dq] ++ lit "description" ++ [dq; ":"%char; dq] ++
  description ++ [dq; LF].

(** The format of line 325. *)
Definition fmtMessage (src : Z) (key2 : option (list ascii))
    (text : list ascii) : list ascii :=
  lit "  ," ++ [dq] ++ print_u src ++
  match key2 with Some k => lit "_" ++ cstring k | None => [] end ++
  [dq; ":"%char] ++ text ++ [LF].

(** Lines 318-333. *)
Fixpoint messages (now : Z) (ms : list Message) (b : Buf) : result Buf :=
  match ms with
  | [] => Ret b
  | m :: rest =>
      if m_time m >=? now then
        match m_text m with
        | None => Undef                       (* [strlen] of a null pointer *)
        | Some text =>
            let b1 := MAKE_SPACE (Z.of_nat (strlen text) + 32) b in
            messages now rest
              (snprintf (fmtMessage (m_src m) (m_key2 m) (cstring text)) b1)
        end
      else messages now rest b
  end.

(** Lines 307-338, over the rest of [pgnList]. *)
Fixpoint pgns (now : Z) (idx : gmap Z Pgn) (l : list Z)
    (separator : ascii) (b : Buf) : result (ascii * Buf) :=
  match l with
  | [] => Ret (separator, b)
  | i :: rest =>
      match idx !! i with
      | None => Undef
      | Some pgn =>
          match p_description pgn with
          | None => Undef                     (* [strlen] of a null pointer *)
          | Some desc =>
              let b1 := MAKE_SPACE (100 + Z.of_nat (strlen desc)) b in
              let b2 := snprintf (fmtPgn separator (p_prn pgn) (cstring desc)) b1 in
              b3 ← messages now (p_message pgn) b2;
              b4 ← strcpy (lit "  }" ++ [LF]) b3;
              pgns now idx rest ","%char b4
          end
      end
  end.

(** [getFullStateJSON()], with [now] for [time(0)]: the C string the
    caller receives. *)
Definition getFullStateJSON (now : Z) (d : Data) : result (list ascii) :=
  '(separator, b) ← pgns now (pgnIdx d) (pgnList d) "{"%char buf0;
  b' ← strcpy (if Ascii.eqb separator ","%char
               then [ "}"%char; LF ] else [ LF ]) b;
  Ret (bytes b').

(** The invariant of [INC_L_REMAIN]. *)
Definition bufOk (b : Buf) : Prop :=
  remain b = alloc b - Z.of_nat (length (bytes b)).

(** *** The snapshot as the specification words it

    The listed PGN entries in list order; within one entry the slots
    in slot order, those with [now <= m_time] only; each rendered with
    the two formats. *)

Definition liveMessages (now : Z) (pgn : Pgn) : list Message :=
  filter (fun m => now <= m_time m) (p_message pgn).

Definition entryText (m : Message) : list ascii :=
  fmtMessage (m_src m) (m_key2 m) (cstring (default [] (m_text m))).

Definition pgnText (now : Z) (separator : ascii) (pgn : Pgn) : list ascii :=
  fmtPgn separator (p_prn pgn) (cstring (default [] (p_description pgn))) ++
  concat (map entryText (liveMessages now pgn)) ++
  lit "  }" ++ [LF].

Definition listed (d : Data) : list Pgn :=
  omap (fun i => pgnIdx d !! i) (pgnList d).

Definition snapshotText (now : Z) (d : Data) : list ascii :=
  match listed d with
  | [] => [LF]
  | p :: rest =>
      pgnText now "{"%char p ++ concat (map (pgnText now ","%char) rest) ++
      [ "}"%char; LF ]
  end.

(** Sizes for which one step of [MAKE_SPACE] is always enough. *)
Definition entryFits (m : Message) : Prop :=
  exists text, m_text m = Some text /\
    (strlen text <= 4064)%nat /\
    (length (print_u (m_src m)) <= 3)%nat /\
    match m_key2 m with
    | Some k => (strlen k <= 13)%nat
    | None => True
    end.

Definition pgnFits (now : Z) (pgn : Pgn) : Prop :=
  (exists desc, p_description pgn = Some desc /\ (strlen desc <= 3996)%nat) /\
  (length (print_u (p_prn pgn)) <= 10)%nat /\
  forall m, m ∈ p_message pgn -> now <= m_time m -> entryFits m.

Definition snapshotFits (now : Z) (d : Data) : Prop :=
  forall i, i ∈ pgnList d ->
    exists pgn, pgnIdx d !! i = Some pgn /\ pgnFits now pgn.

End Snapshot.

(** ** The stream table *)

Inductive StreamType : Type :=
| SOCKET_TYPE_ANY
| CLIENT_JSON
| CLIENT_JSON_STREAM
| CLIENT_NMEA0183_STREAM
| SERVER_JSON
| SERVER_NMEA0183
| DATA_INPUT_STREAM
| DATA_OUTPUT_SINK
| DATA_OUTPUT_COPY
| DATA_OUTPUT_STREAM.

#[global] Instance StreamType_eq_dec : EqDecision StreamType.
Proof. solve_decision. Defined.

Inductive ReadHandler : Type :=
| handleClientRequest_fn
| acceptJSONClient_fn
| acceptNMEA0183Client_fn.

(** The table [readHandlers]; [None] is the null entry. *)
Definition readHandlers (ct : StreamType) : option ReadHandler :=
  match ct with
  | SOCKET_TYPE_ANY => None
  | CLIENT_JSON => Some handleClientRequest_fn
  | CLIENT_JSON_STREAM => Some handleClientRequest_fn
  | CLIENT_NMEA0183_STREAM => None
  | SERVER_JSON => Some acceptJSONClient_fn
  | SERVER_NMEA0183 => Some acceptNMEA0183Client_fn
  | DATA_INPUT_STREAM => Some handleClientRequest_fn
  | DATA_OUTPUT_SINK => None
  | DATA_OUTPUT_COPY => None
  | DATA_OUTPUT_STREAM => None
  end.

Record StreamInfo : Type := mkStream
  { fd : Z
  ; type : StreamType
  ; timeout : Z
  ; readHandler : option ReadHandler
  ; buffer : list ascii             (* 4096 bytes *)
  ; len : Z }.                      (* size_t *)

(** The globals of the stream table.  [FD_SETSIZE] comes from the system
    headers; it is the length of [stream]. *)
Record Net : Type := mkNet
  { stream : list StreamInfo
  ; socketIdxMin : Z
  ; socketIdxMax : Z
  ; socketFdMax : Z
  ; activeSet : gset Z
  ; readSet : gset Z
  ; writeSet : gset Z }.

Definition FD_SETSIZE (n : Net) : Z := Z.of_nat (length (stream n)).

Definition stdinfd : Z := 0.
Definition stdoutfd : Z := 1.
Definition UPDATE_INTERVAL : Z := 500.

(** What the process does to the outside, in order.  A [send] carries
    the index of the stream it is made for. *)
Inductive event : Type :=
| EvSend (i : Z) (fd : Z) (payload : list ascii)  (* [send(fd, payload, len, 0)] *)
| EvWrite (fd : Z) (payload : list ascii)         (* [write(fd, payload, len)] *)
| EvClose (fd : Z).                               (* [close(fd)] *)

Module Streams.
Import libc.

Definition FD_SET (x : Z) (s : gset Z) : gset Z := {[ x ]} ∪ s.
Definition FD_CLR (x : Z) (s : gset Z) : gset Z := s ∖ {[ x ]}.
Definition FD_ISSET (x : Z) (s : gset Z) : bool := bool_decide (x ∈ s).

(** [stream[i]] for an [int] index. *)
Definition slot (n : Net) (i : Z) : option StreamInfo :=
  if i <? 0 then None else stream n !! Z.to_nat i.

Definition setSlot (i : Z) (s : StreamInfo) (n : Net) : Net :=
  {| stream := <[Z.to_nat i := s]> (stream n);
     socketIdxMin := socketIdxMin n; socketIdxMax := socketIdxMax n;
     socketFdMax := socketFdMax n; activeSet := activeSet n;
     readSet := readSet n; writeSet := writeSet n |}.

(** The search of lines 211-217: the first [i <= socketIdxMax] whose
    slot is free or bound to [x], [socketIdxMax + 1] when there is none. *)
Fixpoint findFree (x : Z) (ss : list StreamInfo) (i : Z) (count : nat) : Z :=
  match count, ss with
  | O, _ => i
  | S c, s :: t => if (fd s =? -1) || (fd s =? x) then i
                   else findFree x t (i + 1) c
  | S c, [] => i
  end.

(** [setFdUsed(fd, ct)], with [t] for [epoch()]. *)
Definition setFdUsed (t : Z) (x : Z) (ct : StreamType) (n : Net)
  : result (Z * Net * list event) :=
  let i := findFree x (stream n) 0 (Z.to_nat (socketIdxMax n + 1)) in
  if i =? FD_SETSIZE n then Ret (-1, n, [EvClose x])
  else
    match slot n i with
    | None => Undef
    | Some s =>
        let s' := {| fd := x; type := ct; timeout := t + UPDATE_INTERVAL;
                     readHandler := readHandlers ct;
                     buffer := buffer s; len := len s |} in
        let rs := match readHandler s' with
                  | Some _ => FD_SET x (readSet n)
                  | None => FD_CLR x (readSet n)
                  end in
        let ws := match ct with
                  | CLIENT_JSON | CLIENT_JSON_STREAM
                  | DATA_OUTPUT_STREAM | DATA_OUTPUT_COPY =>
                      FD_SET x (writeSet n)
                  | _ => FD_CLR x (writeSet n)
                  end in
        Ret (i,
             {| stream := <[Z.to_nat i := s']> (stream n);
                socketIdxMin := socketIdxMin n;
                socketIdxMax := Z.max (socketIdxMax n) i;
                socketFdMax := Z.max (socketFdMax n) x;
                activeSet := FD_SET x (activeSet n);
                readSet := rs; writeSet := ws |},
             [])
    end.

(** The loop of lines 274-277 from index [i] downwards. *)
Definition fdMaxUpTo (ss : list StreamInfo) (i : Z) : Z :=
  foldr (fun s acc => Z.max acc (fd s)) (-1) (take (Z.to_nat (i + 1)) ss).

(** [closeStream(i)] *)
Definition closeStream (i : Z) (n : Net) : result (Net * list event) :=
  match slot n i with
  | None => Undef
  | Some s =>
      let s' := {| fd := -1; type := type s; timeout := timeout s;
                   readHandler := readHandler s;
                   buffer := buffer s; len := len s |} in
      let ss := <[Z.to_nat i := s']> (stream n) in
      let last := i =? socketIdxMax n in
      Ret ({| stream := ss;
              socketIdxMin := socketIdxMin n;
              socketIdxMax := if last then socketIdxMax n - 1
                              else socketIdxMax n;
              socketFdMax := if last then fdMaxUpTo ss i
                             else socketFdMax n;
              activeSet := FD_CLR (fd s) (activeSet n);
              readSet := FD_CLR (fd s) (readSet n);
              writeSet := FD_CLR (fd s) (writeSet n) |},
           [EvClose (fd s)])
  end.

(** *** The write phase: [writeAllClients]

    The locals of the loop: the count [r] that [select] returned, the
    clock value [now] (0 until the first ready stream), and [state],
    the snapshot once it has been serialized. *)
Record WLoop : Type := mkWLoop
  { w_r : Z
  ; w_now : Z
  ; w_state : option (list ascii)
  ; w_net : Net
  ; w_out : list event }.

(** One pass through the body of the loop, lines 499-553, for index
    [i].  [ws] is the set [select] left, [t] stands for [epoch()],
    [secs] for [time(0)]. *)
Definition writeStep (ws : gset Z) (t secs : Z) (d : Data) (i : Z)
    (w : WLoop) : result WLoop :=
  let n := w_net w in
  match slot n i with
  | None => Undef
  | Some s =>
      if fd s <? 0 then Ret w
      else if fd s >? socketFdMax n then Abort
      else if negb (FD_ISSET (fd s) (writeSet n)) then Ret w
      else if negb (FD_ISSET (fd s) ws) then
        '(n', evs) ← closeStream i n;
        Ret {| w_r := w_r w; w_now := w_now w; w_state := w_state w;
               w_net := n'; w_out := w_out w ++ evs |}
      else
        let r := w_r w - 1 in
        let now := if w_now w =? 0 then t else w_now w in
        match type s with
        | CLIENT_JSON =>
            if negb (timeout s =? 0) && (timeout s <? now) then
              state ← match w_state w with
                      | Some st => Ret st
                      | None => Snapshot.getFullStateJSON secs d
                      end;
              let out := w_out w ++ [EvSend i (fd s) (cstring state)] in
              if bool_decide (type s = CLIENT_JSON_STREAM) then
                Ret {| w_r := r; w_now := now; w_state := Some state;
                       w_net := setSlot i
                         {| fd := fd s; type := type s;
                            timeout := t + UPDATE_INTERVAL;
                            readHandler := readHandler s;
                            buffer := buffer s; len := len s |} n;
                       w_out := out |}
              else
                '(n', evs) ← closeStream i n;
                Ret {| w_r := r; w_now := now; w_state := Some state;
                       w_net := n'; w_out := out ++ evs |}
            else
              Ret {| w_r := r; w_now := now; w_state := w_state w;
                     w_net := n; w_out := w_out w |}
        | CLIENT_JSON_STREAM | DATA_OUTPUT_STREAM | DATA_OUTPUT_COPY =>
            Ret {| w_r := r; w_now := now; w_state := w_state w;
                   w_net := n;
                   w_out := if bool_decide (currentLen d = 0%nat) then w_out w
                            else w_out w ++ [EvSend i (fd s) (currentMessage d)] |}
        | _ =>
            Ret {| w_r := r; w_now := now; w_state := w_state w;
                   w_net := n; w_out := w_out w |}
        end
  end.

(** The loop of line 497; [fuel] bounds the number of passes. *)
Fixpoint writeLoop (fuel : nat) (ws : gset Z) (t secs : Z) (d : Data)
    (i : Z) (w : WLoop) : result WLoop :=
  match fuel with
  | O => Ret w
  | S fuel' =>
      if (w_r w >? 0) && (i <=? socketIdxMax (w_net w)) then
        w' ← writeStep ws t secs d i w;
        writeLoop fuel' ws t secs d (i + 1) w'
      else Ret w
  end.

Definition clearCurrent (d : Data) : Data :=
  {| readLine := readLine d; pgnIdx := pgnIdx d; pgnList := pgnList d;
     currentMessage := []; currentAlloc := currentAlloc d |}.

(** [writeAllClients()].  [r] and [ready] are what [select] reports
    (its return value and the descriptors it found writable), [t] and
    [secs] the clocks.  The passes are bounded by the number of indices
    from [socketIdxMin] to [socketIdxMax]. *)
Definition writeAllClients (r : Z) (ready : gset Z) (t secs : Z)
    (n : Net) (d : Data) : result (Net * Data * list event) :=
  if socketIdxMax n >=? 0 then
    let ws := writeSet n ∩ ready in
    w ← writeLoop (Z.to_nat (socketIdxMax n + 1 - socketIdxMin n)) ws t secs d
          (socketIdxMin n)
          {| w_r := r; w_now := 0; w_state := None; w_net := n; w_out := [] |};
    Ret (w_net w, clearCurrent d, w_out w)
  else Ret (n, clearCurrent d, []).

(** *** The client request reader: [handleClientRequest] *)

(** [n] bytes stored at offset [off] of a buffer. *)
Definition writeAt (off : nat) (data buf : list ascii) : list ascii :=
  take off buf ++ data ++ drop (off + length data) buf.

Definition marker : list ascii := [ "-"%char; LF ].

Definition withBuffer (buf : list ascii) (l : Z) (ty : StreamType)
    (s : StreamInfo) : StreamInfo :=
  {| fd := fd s; type := ty; timeout := timeout s;
     readHandler := readHandler s; buffer := buf; len := l |}.

(** The type of [stream[stdoutfd]]. *)
Definition outputType (n : Net) : option StreamType :=
  type <$> slot n stdoutfd.

(** The loop of lines 820-862.  [None] means that [fuel] passes did not
    end it.  [h0], [junk] and [now] are handed to [handleMessageByte]. *)
Fixpoint requestLoop (fuel : nat) (h0 : Parser.Header) (junk now : Z)
    (i : Z) (r : Z) (n : Net) (d : Data) (out : list event)
  : option (result (Net * Data * list event)) :=
  match fuel with
  | O => None
  | S fuel' =>
      if r >? 0 then
        match slot n i with
        | None => Some Undef
        | Some s =>
            if Z.of_nat (length (buffer s)) <=? r then Some Undef
            else
              let buf := <[Z.to_nat r := NUL]> (buffer s) in
              let len1 := (len s + r) mod 2 ^ 64 in
              match strchr buf LF with
              | None =>
                  Some (Ret (setSlot i (withBuffer buf len1 (type s) s) n, d, out))
              | Some q =>
                  let p := S q in
                  match strstr buf marker with
                  | Some _ =>
                      Some (Ret (setSlot i (withBuffer buf 0 CLIENT_JSON_STREAM s) n,
                                 d, out))
                  | None =>
                      let n1 := setSlot i (withBuffer buf len1 (type s) s) n in
                      match outputType n1 with
                      | None => Some Undef
                      | Some DATA_OUTPUT_STREAM =>
                          requestLoop fuel' h0 junk now i r n1 d
                            (out ++ [EvWrite stdoutfd (take p buf)])
                      | Some DATA_OUTPUT_COPY =>
                          match Parser.feed h0 junk now (take p buf) d with
                          | Ret d' =>
                              let rest := drop p buf in
                              let cnt := strlen (drop (S p) buf) in
                              if negb (strlen rest =? 0)%nat && (p <? cnt)%nat
                              then Some Undef       (* [memcpy] on overlapping objects *)
                              else
                                let buf' := if (strlen rest =? 0)%nat then buf
                                            else writeAt 0 (take cnt rest) buf in
                                let len2 := (len1 - Z.of_nat p) mod 2 ^ 64 in
                                requestLoop fuel' h0 junk now i (r - Z.of_nat p)
                                  (setSlot i (withBuffer buf' len2 (type s) s) n)
                                  d' out
                          | Abort => Some Abort
                          | Undef => Some Undef
                          end
                      | Some _ => requestLoop fuel' h0 junk now i r n1 d out
                      end
                  end
              end
        end
      else Some (Ret (n, d, out))
  end.

(** [handleClientRequest(i)].  [rd] is what [read] delivers: its bytes,
    none for a return value of 0 or less. *)
Definition handleClientRequest (fuel : nat) (h0 : Parser.Header)
    (junk now : Z) (rd : list ascii) (i : Z) (n : Net) (d : Data)
  : option (result (Net * Data * list event)) :=
  match slot n i with
  | None => Some Undef
  | Some s =>
      match rd with
      | [] =>
          if fd s =? stdinfd then Some Abort
          else if fd s =? stdoutfd then Some Abort
          else Some ('(n', evs) ← closeStream i n; Ret (n', d, evs))
      | _ :: _ =>
          let off := Z.to_nat (len s) in
          if (length (buffer s) <? off + length rd)%nat then Some Undef
          else
            let n1 := setSlot i (withBuffer (writeAt off rd (buffer s))
                                   (len s) (type s) s) n in
            requestLoop fuel h0 junk now i (Z.of_nat (length rd)) n1 d []
      end
  end.

(** *** Counting what a stream is sent *)

Fixpoint sendsTo (i : Z) (evs : list event) : nat :=
  match evs with
  | [] => 0%nat
  | EvSend j _ _ :: rest =>
      ((if bool_decide (j = i) then 1 else 0) + sendsTo i rest)%nat
  | _ :: rest => sendsTo i rest
  end.

(** Between two write phases the read phase may change the table.  The
    client of slot [i] is still the same one, and still of the same
    type, when the slot keeps its type and is not bound again once it
    has been closed. *)
Definition keepsClient (i : Z) (n n' : Net) : Prop :=
  forall s, slot n i = Some s ->
    exists s', slot n' i = Some s' /\ type s' = type s /\
               (fd s < 0 -> fd s' < 0).

(** A stretch of the server loop seen from slot [i]: write phases, with
    any clocks, [select] results and store contents, and in between
    steps that keep the client of slot [i].  The events are those of the
    write phases. *)
Inductive phases (i : Z) : Net -> list event -> Net -> Prop :=
| phases_done n : phases i n [] n
| phases_write n r ready t secs d n1 d1 evs n' evs' :
    writeAllClients r ready t secs n d = Ret (n1, d1, evs) ->
    phases i n1 evs' n' ->
    phases i n (evs ++ evs') n'
| phases_other n n1 n' evs :
    keepsClient i n n1 ->
    phases i n1 evs n' ->
    phases i n evs n'.

End Streams.

(** ** Accepting clients, the read phase, the server loop and [main] *)

Module Server.
Import libc Parser Streams.

(** [INVALID_SOCKET] of common.h. *)
Definition INVALID_SOCKET : Z := -1.

(** [acceptClient(s, ct)].  [pending] lists what the successive calls of
    [accept] return; when it is used up [accept] returns
    [INVALID_SOCKET]. *)
Fixpoint acceptClient (t : Z) (pending : list Z) (ct : StreamType) (n : Net)
  : result (Net * list event) :=
  match pending with
  | [] => Ret (n, [])
  | r :: rest =>
      if r =? INVALID_SOCKET then Ret (n, [])
      else
        '(i, n1, evs) ← setFdUsed t r ct n;
        if i <? 0 then Ret (n1, evs)
        else
          '(n2, evs') ← acceptClient t rest ct n1;
          Ret (n2, evs ++ evs')
  end.

(** [acceptJSONClient(i)] and [acceptNMEA0183Client(i)]. *)
Definition acceptJSONClient (t : Z) (pending : list Z) (i : Z) (n : Net)
  : result (Net * list event) :=
  match slot n i with
  | None => Undef
  | Some _ => acceptClient t pending CLIENT_JSON n
  end.

Definition acceptNMEA0183Client (t : Z) (pending : list Z) (i : Z) (n : Net)
  : result (Net * list event) :=
  match slot n i with
  | None => Undef
  | Some _ => acceptClient t pending CLIENT_NMEA0183_STREAM n
  end.

(** What the outside delivers during one read phase, per stream index:
    the bytes of the [read], the results of the [accept]s. *)
Record Inputs : Type := mkInputs
  { reads : Z -> list ascii
  ; pendings : Z -> list Z }.

(** The loop of lines 879-888.  The index is a [size_t]: against a
    negative [socketIdxMax] the comparison holds for every index.  A
    descriptor 0 is passed over by the test [fd &&]; [FD_ISSET] on a
    negative descriptor is undefined.  [fuel] counts the slots that are
    left in the table, [hfuel] the passes allowed to
    [handleClientRequest]. *)
Fixpoint readLoop (fuel hfuel : nat) (h0 : Header) (junk now t : Z)
    (inp : Inputs) (rs : gset Z) (i r : Z) (n : Net) (d : Data)
    (out : list event) : option (result (Net * Data * list event)) :=
  if (r >? 0) && ((socketIdxMax n <? 0) || (i <=? socketIdxMax n)) then
    match fuel with
    | O => Some Undef
    | S fuel' =>
        match slot n i with
        | None => Some Undef
        | Some s =>
            if fd s =? 0 then
              readLoop fuel' hfuel h0 junk now t inp rs (i + 1) r n d out
            else if fd s <? 0 then Some Undef
            else if FD_ISSET (fd s) rs then
              match readHandler s with
              | None => Some Undef
              | Some handleClientRequest_fn =>
                  match handleClientRequest hfuel h0 junk now (reads inp i) i n d with
                  | None => None
                  | Some (Ret (n', d', evs)) =>
                      readLoop fuel' hfuel h0 junk now t inp rs (i + 1) (r - 1)
                        n' d' (out ++ evs)
                  | Some Abort => Some Abort
                  | Some Undef => Some Undef
                  end
              | Some acceptJSONClient_fn =>
                  match acceptJSONClient t (pendings inp i) i n with
                  | Ret (n', evs) =>
                      readLoop fuel' hfuel h0 junk now t inp rs (i + 1) (r - 1)
                        n' d (out ++ evs)
                  | Abort => Some Abort
                  | Undef => Some Undef
                  end
              | Some acceptNMEA0183Client_fn =>
                  match acceptNMEA0183Client t (pendings inp i) i n with
                  | Ret (n', evs) =>
                      readLoop fuel' hfuel h0 junk now t inp rs (i + 1) (r - 1)
                        n' d (out ++ evs)
                  | Abort => Some Abort
                  | Undef => Some Undef
                  end
              end
            else readLoop fuel' hfuel h0 junk now t inp rs (i + 1) r n d out
        end
    end
  else Some (Ret (n, d, out)).

(** [checkReadEvents()].  [r] and [ready] are what [select] reports. *)
Definition checkReadEvents (hfuel : nat) (h0 : Header) (junk now t : Z)
    (inp : Inputs) (r : Z) (ready : gset Z) (n : Net) (d : Data)
  : option (result (Net * Data * list event)) :=
  readLoop (length (stream n) - Z.to_nat (socketIdxMin n)) hfuel h0 junk now t
    inp (readSet n ∩ ready) (socketIdxMin n) r n d [].

(** What one pass of the loop of [doServerWork] consults. *)
Record Tick : Type := mkTick
  { k_inputs : Inputs
  ; k_rread : Z; k_readable : gset Z       (* the first [select] *)
  ; k_rwrite : Z; k_writable : gset Z      (* the second [select] *)
  ; k_now : Z                              (* [time(0)] *)
  ; k_epoch : Z }.                         (* [epoch()] *)

(** One pass of the loop of [doServerWork]. *)
Definition serverPass (hfuel : nat) (h0 : Header) (junk : Z) (k : Tick)
    (n : Net) (d : Data) : option (result (Net * Data * list event)) :=
  match checkReadEvents hfuel h0 junk (k_now k) (k_epoch k) (k_inputs k)
          (k_rread k) (k_readable k) n d with
  | None => None
  | Some (Ret (n1, d1, evs1)) =>
      Some ('(n2, d2, evs2) ←
              writeAllClients (k_rwrite k) (k_writable k) (k_epoch k) (k_now k) n1 d1;
            Ret (n2, d2, evs1 ++ evs2))
  | Some Abort => Some Abort
  | Some Undef => Some Undef
  end.

(** [doServerWork()], cut after the passes listed. *)
Fixpoint doServerWork (hfuel : nat) (h0 : Header) (junk : Z) (ks : list Tick)
    (n : Net) (d : Data) : option (result (Net * Data * list event)) :=
  match ks with
  | [] => Some (Ret (n, d, []))
  | k :: rest =>
      match serverPass hfuel h0 junk k n d with
      | None => None
      | Some (Ret (n1, d1, evs1)) =>
          match doServerWork hfuel h0 junk rest n1 d1 with
          | None => None
          | Some (Ret (n2, d2, evs2)) => Some (Ret (n2, d2, evs1 ++ evs2))
          | Some Abort => Some Abort
          | Some Undef => Some Undef
          end
      | Some Abort => Some Abort
      | Some Undef => Some Undef
      end
  end.

(** *** [main] *)

(** The two levels [main] hands to [setLogLevel] (common.h). *)
Inductive LogLevel : Type := LOGLEVEL_DEBUG | LOGLEVEL_ERROR.

Definition PORT : Z := 2597.

(** What the options set: the log level ([None] while [setLogLevel] has
    not been called) and the global [port]. *)
Record Config : Type := mkConfig { logLevel : option LogLevel; port : Z }.

Definition to_uint16 (x : Z) : Z := x mod 65536.

Definition tolower (c : ascii) : ascii :=
  let k := nat_of_ascii c in
  if (65 <=? k)%nat && (k <=? 90)%nat then ascii_of_nat (k + 32) else c.

(** [strcasecmp(a, b) == 0] *)
Definition strcasecmp_eq (a b : list ascii) : bool :=
  list_eqb (map tolower (cstring a)) (map tolower (cstring b)).

(** [sscanf(s, "%u", &u)]: the value returned and the value stored.  The
    return value is [EOF] when the input ends before the conversion
    starts, 0 when no number is found. *)
Definition sscanf_u (s : list ascii) : Z * option Z :=
  match skip_space (cstring s) with
  | [] => (-1, None)
  | _ :: _ =>
      match scan_u (cstring s) with
      | Some (v, _) => (1, Some v)
      | None => (0, None)
      end
  end.

(** The loop of lines 914-951 over [argv[1]], [argv[2]], ...  [u0] is
    what the local [uPort] holds without initializer.  [Abort] is the
    usage message and [exit(1)]. *)
Fixpoint options (t u0 : Z) (args : list (list ascii)) (cfg : Config)
    (n : Net) : result (Config * Net * list event) :=
  match args with
  | [] => Ret (cfg, n, [])
  | a :: rest =>
      if strcasecmp_eq a (lit "-d") then
        options t u0 rest {| logLevel := Some LOGLEVEL_DEBUG; port := port cfg |} n
      else if strcasecmp_eq a (lit "-q") then
        options t u0 rest {| logLevel := Some LOGLEVEL_ERROR; port := port cfg |} n
      else if strcasecmp_eq a (lit "-o") then
        '(_, n1, evs) ← setFdUsed t stdoutfd DATA_OUTPUT_COPY n;
        '(cfg', n2, evs') ← options t u0 rest cfg n1;
        Ret (cfg', n2, evs ++ evs')
      else if strcasecmp_eq a (lit "-r") then
        '(_, n1, evs) ← setFdUsed t stdoutfd DATA_OUTPUT_SINK n;
        '(cfg', n2, evs') ← options t u0 rest cfg n1;
        Ret (cfg', n2, evs ++ evs')
      else if strcasecmp_eq a (lit "-p") then
        match rest with
        | [] => Ret (cfg, n, [])
        | v :: rest' =>
            let '(ret, val) := sscanf_u v in
            let cfg' := if ret =? 0 then cfg
                        else {| logLevel := logLevel cfg;
                                port := to_uint16 (default u0 val) |} in
            options t u0 rest' cfg' n
        end
      else Abort
  end.

(** What [socket], [bind] and [listen] return for one listener. *)
Record Listener : Type := mkListener { l_socket : Z; l_bind : Z; l_listen : Z }.

(** [tcpServer(port, st)]; [die] ends the process. *)
Definition tcpServer (t : Z) (l : Listener) (st : StreamType) (n : Net)
  : result (Net * list event) :=
  if l_socket l =? INVALID_SOCKET then Abort
  else if l_bind l =? INVALID_SOCKET then Abort
  else if l_listen l =? INVALID_SOCKET then Abort
  else '(_, n', evs) ← setFdUsed t (l_socket l) st n; Ret (n', evs).

(** The ports the two listeners are bound to: [port] and, cut to a
    [uint16_t] parameter, [port + 1]. *)
Definition listenPorts (cfg : Config) : Z * Z :=
  (port cfg, to_uint16 (port cfg + 1)).

Definition startTcpServers (t : Z) (l1 l2 : Listener) (n : Net)
  : result (Net * list event) :=
  '(n1, evs1) ← tcpServer t l1 SERVER_JSON n;
  '(n2, evs2) ← tcpServer t l2 SERVER_NMEA0183 n1;
  Ret (n2, evs1 ++ evs2).

(** The table before [main] runs: zero-initialized statics, with
    [size] for [FD_SETSIZE]; the three sets after [FD_ZERO]. *)
Definition stream0 : StreamInfo :=
  {| fd := 0; type := SOCKET_TYPE_ANY; timeout := 0; readHandler := None;
     buffer := replicate 4096 NUL; len := 0 |}.

Definition net0 (size : nat) : Net :=
  {| stream := replicate size stream0;
     socketIdxMin := 0; socketIdxMax := 0; socketFdMax := 0;
     activeSet := ∅; readSet := ∅; writeSet := ∅ |}.

Definition resetIdx (n : Net) : Net :=
  {| stream := stream n; socketIdxMin := 0; socketIdxMax := 0;
     socketFdMax := socketFdMax n; activeSet := activeSet n;
     readSet := readSet n; writeSet := writeSet n |}.

(** [main], up to the call of [doServerWork]. *)
Definition main (size : nat) (t u0 : Z) (args : list (list ascii))
    (l1 l2 : Listener) : result (Config * Net * list event) :=
  '(_, n1, e1) ← setFdUsed t stdinfd DATA_INPUT_STREAM (net0 size);
  '(_, n2, e2) ← setFdUsed t stdoutfd DATA_OUTPUT_STREAM n1;
  '(cfg, n3, e3) ← options t u0 args {| logLevel := None; port := PORT |} n2;
  '(n4, e4) ← startTcpServers t l1 l2 (resetIdx n3);
  Ret (cfg, n4, e1 ++ e2 ++ e3 ++ e4).

End Server.

(** ** Definitions used to state further properties *)

Module Aux.

(** The value of a decimal numeral read from the left, with [acc] for
    the digits already read. *)
Fixpoint uintValue (acc : Z) (d : Decimal.uint) : Z :=
  match d with
  | Decimal.Nil => acc
  | Decimal.D0 l => uintValue (10 * acc) l
  | Decimal.D1 l => uintValue (10 * acc + 1) l
  | Decimal.D2 l => uintValue (10 * acc + 2) l
  | Decimal.D3 l => uintValue (10 * acc + 3) l
  | Decimal.D4 l => uintValue (10 * acc + 4) l
  | Decimal.D5 l => uintValue (10 * acc + 5) l
  | Decimal.D6 l => uintValue (10 * acc + 6) l
  | Decimal.D7 l => uintValue (10 * acc + 7) l
  | Decimal.D8 l => uintValue (10 * acc + 8) l
  | Decimal.D9 l => uintValue (10 * acc + 9) l
  end.

(** *** An invariant of the store

    A message slot holds a source that fits a byte, a text, and a key
    without double quote; an entry sits at the index of its PGN; the
    list names each entry of the index once, and only those; the list
    and the line buffer stay inside their arrays. *)
Definition messageOk (m : Message) : Prop :=
  0 <= m_src m < 256 /\
  (exists text, m_text m = Some text /\ (NUL ∉ text)) /\
  (forall key, m_key2 m = Some key -> (dq ∉ key) /\ (NUL ∉ key)).

Definition pgnOk (idx : Z) (pgn : Pgn) : Prop :=
  p_prn pgn = idx + MIN_PGN /\
  Forall messageOk (p_message pgn) /\
  (forall desc, p_description pgn = Some desc ->
     (dq ∉ desc) /\ (":"%char ∉ desc) /\ (NUL ∉ desc)).

Definition storeOk (d : Data) : Prop :=
  NoDup (pgnList d) /\
  (length (pgnList d) <= 512)%nat /\
  (forall idx, idx ∈ pgnList d <-> is_Some (pgnIdx d !! idx)) /\
  (forall idx pgn, pgnIdx d !! idx = Some pgn ->
     0 <= idx < PGN_SPACE /\ pgnOk idx pgn) /\
  (length (readLine d) <= 4096)%nat.

(** *** What stays of a store

    [grows d d']: the list of [d] is the beginning of the list of [d'];
    an entry of [d] is still an entry of [d'], with at least as many
    message slots, and with its description and PGN once the
    description is set. *)
Definition pgnGrows (pgn pgn' : Pgn) : Prop :=
  (length (p_message pgn) <= length (p_message pgn'))%nat /\
  (forall desc, p_description pgn = Some desc ->
     p_description pgn' = Some desc /\ p_prn pgn' = p_prn pgn).

Definition grows (d d' : Data) : Prop :=
  pgnList d `prefix_of` pgnList d' /\
  (forall idx pgn, pgnIdx d !! idx = Some pgn ->
     exists pgn', pgnIdx d' !! idx = Some pgn' /\ pgnGrows pgn pgn').

(** *** An invariant of the stream table

    The indices in use lie inside the table, and [socketFdMax] bounds
    the descriptors of the slots up to [socketIdxMax]. *)
Definition netOk (n : Net) : Prop :=
  0 <= socketIdxMin n /\
  -1 <= socketIdxMax n < FD_SETSIZE n /\
  -1 <= socketFdMax n /\
  (forall j s, j <= socketIdxMax n -> Streams.slot n j = Some s ->
               fd s <= socketFdMax n).

(** *** What a write phase may do

    [writeOk ws t secs d n ev]: the event [ev] of a write phase that
    starts with the table [n], the store [d], the clocks [t] and [secs]
    and the writable descriptors [ws].  A stream is closed; or a stream
    whose descriptor is writable is sent the snapshot, when it is a
    snapshot client whose deadline has passed, or the accumulated
    lines, when it is of one of the three stream types and there are
    lines. *)
Definition writeOk (ws : gset Z) (t secs : Z) (d : Data) (n : Net)
    (ev : event) : Prop :=
  match ev with
  | EvClose x => exists i s, Streams.slot n i = Some s /\ fd s = x /\ 0 <= x
  | EvWrite _ _ => False
  | EvSend i x p =>
      exists s, Streams.slot n i = Some s /\ fd s = x /\ x ∈ ws /\
        ((type s = CLIENT_JSON /\ timeout s <> 0 /\ timeout s < t /\
          exists st, Snapshot.getFullStateJSON secs d = Ret st /\
                     p = libc.cstring st) \/
         ((type s = CLIENT_JSON_STREAM \/ type s = DATA_OUTPUT_STREAM \/
           type s = DATA_OUTPUT_COPY) /\
          currentMessage d <> [] /\ p = currentMessage d))
  end.

(** The state of the loop of [writeAllClients] before the pass for
    index [j]. *)
Definition writeInv (ws : gset Z) (t secs : Z) (d : Data) (n : Net)
    (j : Z) (w : Streams.WLoop) : Prop :=
  (Streams.w_now w = 0 \/ Streams.w_now w = t) /\
  (forall st, Streams.w_state w = Some st ->
              Snapshot.getFullStateJSON secs d = Ret st) /\
  (forall k, j <= k -> Streams.slot (Streams.w_net w) k = Streams.slot n k) /\
  Forall (writeOk ws t secs d n) (Streams.w_out w).

(** *** What a read phase may do to the table

    [changes i n n']: the tables [n] and [n'] differ at slot [i] at
    most, and the type of that slot is the same or has become one of the
    three client types. *)
Definition clientType (ct : StreamType) : Prop :=
  ct = CLIENT_JSON \/ ct = CLIENT_JSON_STREAM \/ ct = CLIENT_NMEA0183_STREAM.

Definition changes (i : Z) (n n' : Net) : Prop :=
  (forall j, j <> i -> Streams.slot n' j = Streams.slot n j) /\
  (forall s, Streams.slot n i = Some s ->
     exists s', Streams.slot n' i = Some s' /\
                (type s' = type s \/ clientType (type s'))).

(** The slot [stdoutfd] is not of type [DATA_OUTPUT_COPY]: requests
    do not reach the store.  It is not of type [DATA_OUTPUT_STREAM]:
    requests are not written to standard output. *)
Definition noCopy (n : Net) : Prop :=
  exists s, Streams.slot n stdoutfd = Some s /\ type s <> DATA_OUTPUT_COPY.

Definition noStream (n : Net) : Prop :=
  exists s, Streams.slot n stdoutfd = Some s /\ type s <> DATA_OUTPUT_STREAM.

(** The events of a server that has nothing to say: streams are closed,
    and the snapshot of the empty store is sent. *)
Definition quietEvent (ev : event) : Prop :=
  match ev with
  | EvClose _ => True
  | EvWrite _ _ => False
  | EvSend _ _ p => p = [LF]
  end.

(** The table between the two registrations at the head of [main] and
    the reset of the two indices: standard input in slot 0, standard
    output in slot 1. *)
Definition started (n : Net) : Prop :=
  exists a b rest, stream n = a :: b :: rest /\ fd a = 0 /\ fd b = 1 /\
    socketIdxMax n = 1.

(** The connections [acceptClient] takes from the queue: those before
    the first [INVALID_SOCKET]. *)
Fixpoint accepted (pending : list Z) : list Z :=
  match pending with
  | [] => []
  | r :: rest => if r =? Server.INVALID_SOCKET then [] else r :: accepted rest
  end.

(** *** The sizes of what the serializer prints

    [sizesFit now d]: in the listed entries, a description that is
    there has at most 3996 bytes and the PGN at most 10 digits; in
    their slots that have not expired, a text that is there has at most
    4064 bytes, the source has at most 3 digits and a key that is there
    at most 13 bytes.  [described now d]: every index of the list has
    an entry with a description, in which every slot that has not
    expired has a text. *)
Definition sizesFit (now : Z) (d : Data) : Prop :=
  forall i pgn, i ∈ pgnList d -> pgnIdx d !! i = Some pgn ->
    (forall desc, p_description pgn = Some desc ->
       (libc.strlen desc <= 3996)%nat) /\
    (length (libc.print_u (p_prn pgn)) <= 10)%nat /\
    forall m, m ∈ p_message pgn -> now <= m_time m ->
      (forall text, m_text m = Some text -> (libc.strlen text <= 4064)%nat) /\
      (length (libc.print_u (m_src m)) <= 3)%nat /\
      (forall key, m_key2 m = Some key -> (libc.strlen key <= 13)%nat).

Definition described (now : Z) (d : Data) : Prop :=
  forall i, i ∈ pgnList d ->
    exists pgn desc, pgnIdx d !! i = Some pgn /\
      p_description pgn = Some desc /\
      forall m, m ∈ p_message pgn -> now <= m_time m -> is_Some (m_text m).

End Aux.

Import libc Parser Snapshot Streams Server.

(** ** Inputs used in the examples below *)

Module Ex.

Definition h0 : Header := mkHeader 0 0 0.

(** The record of the end-to-end scenario 1. *)
Definition line_depth : list ascii :=
  js "{'timestamp':'t','src':'1','dst':'255','pgn':'128267','description':'Water Depth','fields':{'Depth':3.2}}".

Definition line_rpm : list ascii :=
  js "{'timestamp':'t','src':'2','dst':'255','pgn':'127488','description':'Engine Parameters, Rapid Update','fields':{'Instance':'0','Speed':800}}".

(** A record whose only secondary key is [User ID]. *)
Definition line_user_id : list ascii :=
  js "{'timestamp':'t','src':'7','dst':'255','pgn':'129038','description':'AIS Class A Position Report','fields':{'User ID':'244123456'}}".

(** A record with two of the recognized fields. *)
Definition line_two_keys : list ascii :=
  js "{'timestamp':'t','src':'7','dst':'255','pgn':'129038','description':'AIS Class A Position Report','fields':{'Instance':'1','User ID':'244123456'}}".

(** A record that names source 300. *)
Definition line_src_300 : list ascii :=
  js "{'timestamp':'t','src':'300','dst':'255','pgn':'128267','description':'Water Depth','fields':{'Depth':3.2}}".

(** A record without a description field, and one whose description
    field is followed by neither a colon nor a double quote. *)
Definition line_no_description : list ascii :=
  js "{'timestamp':'t','src':'1','dst':'255','pgn':'128267','fields':{'Depth':3.2}}".
Definition line_open_description : list ascii :=
  js "{'timestamp':'t','src':'1','dst':'255','pgn':'128267','fields':{'description':}}".


(** Records of one battery PGN whose [Instance] value is [n] sevens. *)
Definition line_long_key (src : string) (n : nat) : list ascii :=
  js ("{'timestamp':'t','src':'" ++ src ++
      "','dst':'255','pgn':'127508','description':'Battery','fields':{'Instance':'")
  ++ replicate n "7"%char ++ js "'}}".
Definition line_volt : list ascii :=
  js "{'timestamp':'t','src':'3','dst':'255','pgn':'127508','fields':{'Voltage':12}}".

Definition mkS (x : Z) (ct : StreamType) (t : Z) : StreamInfo :=
  {| fd := x; type := ct; timeout := t; readHandler := readHandlers ct;
     buffer := replicate 4096 NUL; len := 0 |}.

(** Standard input and output, the JSON listener on descriptor 4 and
    one client on descriptor 5, of the given type. *)
Definition net_with (client : StreamType) : Net :=
  {| stream := [ mkS 0 DATA_INPUT_STREAM 500; mkS 1 DATA_OUTPUT_STREAM 500;
                 mkS 4 SERVER_JSON 500; mkS 5 client 500 ];
     socketIdxMin := 0; socketIdxMax := 3; socketFdMax := 5;
     activeSet := {[ 0; 1; 4; 5 ]};
     readSet := {[ 0; 4; 5 ]};
     writeSet := {[ 1; 5 ]} |}.

(** The store after the depth record has been read at time 1000. *)
Definition msg_depth : Message :=
  {| m_src := 1; m_key2 := None; m_time := 1120;
     m_text := Some line_depth |}.
Definition pgn_depth : Pgn :=
  {| p_prn := 128267; p_description := Some (lit "Water Depth");
     p_message := [ msg_depth ] |}.
Definition store_depth : Data :=
  {| readLine := []; pgnIdx := {[ 128267 - MIN_PGN := pgn_depth ]};
     pgnList := [ 128267 - MIN_PGN ];
     currentMessage := line_depth; currentAlloc := 105 |}.

(** The table in output-copy mode (option [-o]). *)
Definition net_copy : Net :=
  {| stream := [ mkS 0 DATA_INPUT_STREAM 500; mkS 1 DATA_OUTPUT_COPY 500;
                 mkS 4 SERVER_JSON 500; mkS 5 CLIENT_JSON 500 ];
     socketIdxMin := 0; socketIdxMax := 3; socketFdMax := 5;
     activeSet := {[ 0; 1; 4; 5 ]};
     readSet := {[ 0; 4; 5 ]};
     writeSet := {[ 1; 5 ]} |}.

(** A record whose [Instance] value is followed by a space and by no
    double quote. *)
Definition line_bare_instance : list ascii :=
  js "{'timestamp':'t','src':'1','dst':'255','pgn':'127508','description':'Battery','fields':{'Voltage':12,'Instance':5 }}".

(** A table in which the client of slot 1 has gone and has left three
    bytes in its buffer. *)
Definition net_free_slot : Net :=
  {| stream := [ mkS 0 DATA_INPUT_STREAM 500;
                 {| fd := -1; type := CLIENT_JSON; timeout := 500;
                    readHandler := readHandlers CLIENT_JSON;
                    buffer := writeAt 0 (lit "abc") (replicate 4096 NUL);
                    len := 3 |};
                 mkS 4 SERVER_JSON 500; mkS 5 CLIENT_JSON 500 ];
     socketIdxMin := 0; socketIdxMax := 3; socketFdMax := 5;
     activeSet := {[ 0; 4; 5 ]};
     readSet := {[ 0; 4; 5 ]};
     writeSet := {[ 5 ]} |}.

(** Two listeners whose sockets are the descriptors 3 and 4. *)
Definition listener_json : Listener := mkListener 3 0 0.
Definition listener_nmea : Listener := mkListener 4 0 0.

(** Two passes of the server loop.  In the first the JSON listener (slot
    1 after [main]) is readable and [accept] returns descriptor 5; in
    the second, one second later, descriptor 5 is writable. *)
Definition tick_accept : Tick :=
  {| k_inputs := {| reads := fun _ => [];
                    pendings := fun i => if i =? 1 then [5] else [] |};
     k_rread := 1; k_readable := {[ 3 ]};
     k_rwrite := 0; k_writable := ∅;
     k_now := 1000; k_epoch := 1000000 |}.

Definition tick_serve : Tick :=
  {| k_inputs := {| reads := fun _ => []; pendings := fun _ => [] |};
     k_rread := 0; k_readable := ∅;
     k_rwrite := 1; k_writable := {[ 5 ]};
     k_now := 1001; k_epoch := 1001000 |}.

(** Three records of the battery PGN from source 1: with [Instance]
    9, with [Instance] 0, and without any key field. *)
Definition line_instance_9 : list ascii :=
  js "{'timestamp':'t','src':'1','dst':'255','pgn':'127508','description':'Battery','fields':{'Instance':'9','Voltage':12.25,'Current':1.5}}".
Definition line_instance_0 : list ascii :=
  js "{'timestamp':'t','src':'1','dst':'255','pgn':'127508','description':'Battery','fields':{'Instance':'0','Voltage':12.6}}".
Definition line_keyless : list ascii :=
  js "{'timestamp':'t','src':'1','dst':'255','pgn':'127508','description':'Battery','fields':{'Voltage':12.9}}".

(** The slots of the battery PGN once the three records have been read
    at the times 1000, 1100 and 1121: the first slot, expired at 1120,
    has been taken by the record without key. *)
Definition slots_battery : list Message :=
  [ {| m_src := 1; m_key2 := None; m_time := 1241;
       m_text := Some line_keyless |};
    {| m_src := 1; m_key2 := Some (lit "0"); m_time := 1220;
       m_text := Some line_instance_0 |} ].

End Ex.

(** * Properties *)

(** ** The secondary key loop and the expiry *)

Lemma keyLoop_index mem keys k key2 :
  (keyLoop mem keys k key2).1 = (k + length keys)%nat.
Proof.
  revert k key2. induction keys as [|key rest IH]; intros k key2; simpl.
  - lia.
  - rewrite IH. lia.
Qed.

Lemma validFor_after_loop prn mem :
  validFor prn (keyLoop mem secondaryKeyList 0 None).1 =
  if prn =? 126996 then AIS_TIMEOUT
  else if prn =? 130816 then SONICHUB_TIMEOUT
  else SENSOR_TIMEOUT.
Proof. rewrite keyLoop_index. reflexivity. Qed.

(** C1: the expiry does not follow the matched key.  The loop over the
    key table always runs to its end, so the index handed to the timeout
    table is 5 whatever matched; a record whose key field is [User ID]
    and whose PGN is neither 126996 nor 130816 is stored with
    [now + 120], not [now + 3600]. *)
Theorem C1_user_id_record_expires_as_sensor :
  (forall mem, (keyLoop mem secondaryKeyList 0 None).1 = 5%nat) /\
  (forall h0 junk now,
     match handleLine h0 junk now Ex.line_user_id data0 with
     | Ret d' => pgnIdx d' !! (129038 - MIN_PGN)
     | _ => None
     end
     = Some {| p_prn := 129038;
               p_description := Some (lit "AIS Class A Position Report");
               p_message :=
                 [ {| m_src := 7; m_key2 := Some (lit "244123456");
                      m_time := now + SENSOR_TIMEOUT;
                      m_text := Some Ex.line_user_id |} ] |}).
Proof.
  split.
  - intros mem. apply keyLoop_index.
  - intros h0 junk now. vm_compute. reflexivity.
Qed.

(** C6: with two recognized fields in one line the value of the later
    table entry is kept.  The line holds [Instance] with value 1 and
    [User ID] with value 244123456; the table entry [Instance] matches
    and yields 1, and the loop then replaces it. *)
Theorem C6_last_matching_key_is_kept :
  (keyLoop (Ex.line_two_keys ++ [NUL]) (take 1 secondaryKeyList) 0 None).2
    = Some (lit "1") /\
  (forall h0, parseLine h0 Ex.line_two_keys
     = Some (7, 129038, 5%nat, Some (lit "244123456"))).
Proof.
  split.
  - vm_compute. reflexivity.
  - intros h0. vm_compute. reflexivity.
Qed.

(** The end of the value: with a space after the value and no double
    quote after it, the null [e2] compares below [e] and the value runs
    to the end of the line. *)
Example key_runs_to_end_without_quote :
  (keyLoop (Ex.line_bare_instance ++ [NUL]) secondaryKeyList 0 None).2
  = Some (lit "5 }}").
Proof. vm_compute. reflexivity. Qed.

(** C9: a record that names source 300 is accepted, is stored under
    source 44, and is not found again: the same line fed twice (here at
    time 1000) fills two slots with the same source and key. *)
Theorem C9_source_300_fills_two_slots :
  (forall h0, parseLine h0 Ex.line_src_300 = Some (300, 128267, 5%nat, None)) /\
  (forall h0 junk,
     match feed h0 junk 1000
             (Ex.line_src_300 ++ [LF] ++ Ex.line_src_300 ++ [LF]) data0 with
     | Ret d' => p_message <$> pgnIdx d' !! (128267 - MIN_PGN)
     | _ => None
     end
     = Some [ {| m_src := 44; m_key2 := None; m_time := 1120;
                 m_text := Some Ex.line_src_300 |};
              {| m_src := 44; m_key2 := None; m_time := 1120;
                 m_text := Some Ex.line_src_300 |} ]).
Proof.
  split.
  - intros h0. vm_compute. reflexivity.
  - intros h0 junk. vm_compute. reflexivity.
Qed.

(** C10: a listed entry can have a null description, and the serializer
    then reads through the null pointer.  After a valid record without a
    description field the new PGN is listed with no description and one
    message; after a record whose description has no end it is listed
    with no description and no message; in both states the serializer
    has no defined result. *)
Theorem C10_null_description_reaches_serializer :
  forall h0 junk now secs,
    (exists d', handleLine h0 junk now Ex.line_no_description data0 = Ret d' /\
       pgnList d' = [128267 - MIN_PGN] /\
       (p_description <$> pgnIdx d' !! (128267 - MIN_PGN)) = Some None /\
       (p_maxSrc <$> pgnIdx d' !! (128267 - MIN_PGN)) = Some 1%nat /\
       getFullStateJSON secs d' = Undef) /\
    (exists d', handleLine h0 junk now Ex.line_open_description data0 = Ret d' /\
       pgnList d' = [128267 - MIN_PGN] /\
       (p_description <$> pgnIdx d' !! (128267 - MIN_PGN)) = Some None /\
       (p_maxSrc <$> pgnIdx d' !! (128267 - MIN_PGN)) = Some 0%nat /\
       getFullStateJSON secs d' = Undef).
Proof.
  intros h0 junk now secs. split.
  - eexists. split; [vm_compute; reflexivity|].
    repeat split; vm_compute; reflexivity.
  - eexists. split; [vm_compute; reflexivity|].
    repeat split; vm_compute; reflexivity.
Qed.

(** ** Lines, bytes and the accumulator *)

Lemma handleLine_short h0 junk now line d :
  (length line < 4096)%nat ->
  handleLine h0 junk now line d =
  match parseLine h0 line with
  | None => Ret d
  | Some (src, prn, k, key2) =>
      insertRecord junk now (line ++ [NUL]) src prn k key2
        (appendJSONMessage (line ++ [NUL]) d)
  end.
Proof.
  intros H. unfold handleLine.
  destruct (Nat.leb_spec 4096 (length line)); [lia|reflexivity].
Qed.

Lemma handleLine_full h0 junk now line d :
  (4096 <= length line)%nat -> handleLine h0 junk now line d = Undef.
Proof.
  intros H. unfold handleLine.
  destruct (Nat.leb_spec 4096 (length line)); [reflexivity|lia].
Qed.

Lemma handleLine_Ret_short h0 junk now line d d' :
  handleLine h0 junk now line d = Ret d' -> (length line < 4096)%nat.
Proof.
  intros H. destruct (Nat.lt_ge_cases (length line) 4096) as [Hl|Hl];
    [exact Hl|].
  rewrite handleLine_full in H by exact Hl. discriminate.
Qed.

Lemma feed_line h0 junk now line d :
  LF ∉ line ->
  (length (readLine d) + length line <= 4096)%nat ->
  feed h0 junk now (line ++ [LF]) d
  = handleLine h0 junk now (readLine d ++ line) (resetLine d).
Proof.
  revert d. induction line as [|c line IH]; intros d Hlf Hlen.
  - simpl. unfold handleMessageByte. simpl.
    rewrite app_nil_r. destruct (handleLine _ _ _ _ _); reflexivity.
  - apply not_elem_of_cons in Hlf as [Hc Hlf].
    simpl in Hlen. simpl. unfold handleMessageByte at 1.
    assert (Ascii.eqb c LF = false) as ->.
    { apply Ascii.eqb_neq. congruence. }
    assert ((length (readLine d) <? 4096)%nat = true) as ->.
    { apply Nat.ltb_lt. lia. }
    simpl. rewrite IH; [|assumption|simpl; rewrite length_app; simpl; lia].
    simpl. rewrite <- app_assoc. reflexivity.
Qed.

Lemma cstring_no_nul line rest :
  NUL ∉ line -> cstring (line ++ NUL :: rest) = line.
Proof.
  induction line as [|c line IH]; intros H; simpl.
  - reflexivity.
  - apply not_elem_of_cons in H as [Hc H].
    unfold is_nul. assert (Ascii.eqb c NUL = false) as ->.
    { apply Ascii.eqb_neq. congruence. }
    rewrite IH by assumption. reflexivity.
Qed.

Lemma lookupPgn_current idx d pgn d2 :
  lookupPgn idx d = Ret (pgn, d2) -> currentMessage d2 = currentMessage d.
Proof.
  unfold lookupPgn. destruct (pgnIdx d !! idx).
  - intros [= <- <-]. reflexivity.
  - case_bool_decide; [discriminate|]. intros [= <- <-]. reflexivity.
Qed.

Lemma insertRecord_current junk now mem src prn k key2 d d' :
  insertRecord junk now mem src prn k key2 d = Ret d' ->
  currentMessage d' = currentMessage d.
Proof.
  unfold insertRecord.
  destruct (PrnToIdx prn <? INT_MIN); [discriminate|].
  destruct (PrnToIdx prn <? 0); [discriminate|].
  destruct (lookupPgn (PrnToIdx prn) d) as [[pgn d2]| |] eqn:Hl;
    simpl; try discriminate.
  apply lookupPgn_current in Hl.
  destruct (describe mem prn pgn) as [pgn1|].
  - destruct (chooseSlot _ _ _ _ _) as [i ms]. intros [= <-]. exact Hl.
  - intros [= <-]. exact Hl.
Qed.

(** What a completed line adds to the accumulator: the line as a C
    string, with no newline, when it passes the checks; nothing
    otherwise. *)
Lemma handleLine_current h0 junk now line d d' :
  handleLine h0 junk now line d = Ret d' ->
  currentMessage d' =
  currentMessage d ++
  match parseLine h0 line with
  | Some _ => cstring (line ++ [NUL])
  | None => []
  end.
Proof.
  intros H. pose proof (handleLine_Ret_short _ _ _ _ _ _ H) as Hl.
  rewrite handleLine_short in H by exact Hl. revert H.
  destruct (parseLine h0 line) as [[[[src prn] k] key2]|].
  - intros H. apply insertRecord_current in H. exact H.
  - intros [= <-]. rewrite app_nil_r. reflexivity.
Qed.

(** C2: what a JSON-stream client is sent.  Two valid lines, each ended
    by a newline, leave the two lines without any newline in the
    accumulator.  In the write phase a writable client is sent exactly
    that; and when only standard output is writable ([select] returns 1)
    the loop ends before it reaches the client, which is neither written
    to nor closed, while the accumulator is cleared. *)
Theorem C2_stream_client_gets_lines_without_newline :
  forall h0 junk now t secs,
  exists d',
    feed h0 junk now (Ex.line_depth ++ [LF] ++ Ex.line_rpm ++ [LF]) data0
      = Ret d' /\
    currentMessage d' = Ex.line_depth ++ Ex.line_rpm /\
    writeAllClients 2 {[ 1; 5 ]} t secs (Ex.net_with CLIENT_JSON_STREAM) d'
      = Ret (Ex.net_with CLIENT_JSON_STREAM, clearCurrent d',
             [ EvSend 1 1 (Ex.line_depth ++ Ex.line_rpm);
               EvSend 3 5 (Ex.line_depth ++ Ex.line_rpm) ]) /\
    writeAllClients 1 {[ 1 ]} t secs (Ex.net_with CLIENT_JSON_STREAM) d'
      = Ret (Ex.net_with CLIENT_JSON_STREAM, clearCurrent d',
             [ EvSend 1 1 (Ex.line_depth ++ Ex.line_rpm) ]).
Proof.
  intros h0 junk now t secs. eexists.
  split; [vm_compute; reflexivity|].
  repeat split; vm_compute; reflexivity.
Qed.


(** C5, as stated, fails: a first line that has the marker after other
    text promotes the client. *)
Lemma C5_marker_after_text_promotes :
  is_prefix marker (lit "abc-" ++ [LF]) = false /\
  match handleClientRequest 1 Ex.h0 0 1000 (lit "abc-" ++ [LF]) 3
          (Ex.net_with CLIENT_JSON) data0 with
  | Some (Ret (n', _, _)) => type <$> slot n' 3
  | _ => None
  end = Some CLIENT_JSON_STREAM.
Proof. split; vm_compute; reflexivity. Qed.

(** ** The parser's checks and the PGN index *)

Lemma parseLine_Some h0 line src prn k key2 :
  parseLine h0 line = Some (src, prn, k, key2) ->
  src = h_src (scanHeader (line ++ [NUL]) h0) /\
  prn = h_prn (scanHeader (line ++ [NUL]) h0) /\
  src <> 0 /\ prn <> 0 /\ prn <= MAX_PGN /\
  (k, key2) = keyLoop (line ++ [NUL]) secondaryKeyList 0 None.
Proof.
  unfold parseLine.
  destruct (negb (bool_decide _)); [discriminate|].
  destruct (negb (memcmp_eq (line ++ [NUL]) _)); [discriminate|].
  destruct (negb (memcmp_eq (drop _ _) _)); [discriminate|].
  destruct (_ || _) eqn:Hz; [discriminate|].
  apply orb_false_elim in Hz as [Hp Hs].
  destruct (_ >? MAX_PGN) eqn:Hm; [discriminate|].
  destruct (keyLoop _ _ _ _) as [k0 key0]. intros [= <- <- <- <-].
  repeat split; lia.
Qed.


Lemma PrnToIdx_low prn : prn <= MAX_PGN -> PrnToIdx prn = prn - MIN_PGN.
Proof.
  intros H. unfold PrnToIdx.
  destruct (Z.leb_spec prn MAX_PGN); [reflexivity|lia].
Qed.

(** ** Choosing the slot *)

Lemma findExisting_bounds src key2 ms i :
  (i <= findExisting src key2 ms i <= i + length ms)%nat.
Proof.
  revert i. induction ms as [|m ms IH]; intros i; simpl.
  - lia.
  - destruct (_ && _); [lia|]. specialize (IH (S i)). lia.
Qed.

Lemma findExpired_bounds now ms i :
  (i <= findExpired now ms i <= i + length ms)%nat.
Proof.
  revert i. induction ms as [|m ms IH]; intros i; simpl.
  - lia.
  - destruct (_ <? _); [lia|]. specialize (IH (S i)). lia.
Qed.

Lemma strcmp_eq_refl k : strcmp_eq k k = true.
Proof. unfold strcmp_eq, list_eqb. apply bool_decide_eq_true. reflexivity. Qed.

(** The search stops at or before a slot that holds the same source and
    the same key. *)
Lemma findExisting_hit src key2 ms n m i :
  ms !! n = Some m -> m_src m = src -> m_key2 m = key2 ->
  (findExisting src key2 ms i <= i + n)%nat.
Proof.
  revert n i. induction ms as [|m0 ms IH]; intros n i Hn Hs Hk.
  - discriminate.
  - simpl. destruct n as [|n].
    + injection Hn as ->. rewrite Hs, Z.eqb_refl, Hk. simpl.
      destruct key2; [rewrite strcmp_eq_refl|]; lia.
    + destruct (_ && _); [lia|].
      specialize (IH n (S i) Hn Hs Hk). lia.
Qed.

Lemma chooseSlot_bounds junk src key2 now ms i ms' :
  chooseSlot junk src key2 now ms = (i, ms') ->
  (i < length ms')%nat /\ (length ms <= length ms')%nat.
Proof.
  unfold chooseSlot.
  pose proof (findExisting_bounds src key2 ms 0) as He.
  pose proof (findExpired_bounds now ms 0) as Hx.
  case_bool_decide as H1.
  - case_bool_decide as H2; intros [= <- <-].
    + rewrite length_app. simpl. lia.
    + rewrite length_alter. lia.
  - intros [= <- <-]. lia.
Qed.

Lemma chooseSlot_hit junk src key2 now ms n m :
  ms !! n = Some m -> m_src m = src -> m_key2 m = key2 ->
  exists j, chooseSlot junk src key2 now ms = (j, ms) /\ (j <= n)%nat.
Proof.
  intros Hn Hs Hk.
  pose proof (findExisting_hit src key2 ms n m 0 Hn Hs Hk) as Hj.
  apply lookup_lt_Some in Hn.
  unfold chooseSlot. case_bool_decide as H1; [lia|].
  eexists. split; [reflexivity|lia].
Qed.

Lemma describe_messages mem prn pgn pgn1 :
  describe mem prn pgn = Some pgn1 -> p_message pgn1 = p_message pgn.
Proof.
  unfold describe. destruct (p_description pgn).
  - intros [= <-]. reflexivity.
  - destruct (strstr mem lit_description).
    + destruct (pickEnd _ _); [|discriminate]. intros [= <-]. reflexivity.
    + intros [= <-]. reflexivity.
Qed.

Lemma describe_closed mem prn pgn :
  openDescription mem = false -> is_Some (describe mem prn pgn).
Proof.
  unfold openDescription, describe. intros H.
  destruct (p_description pgn); [eauto|].
  destruct (strstr mem lit_description); [|eauto].
  destruct (pickEnd _ _); [eauto|].
  rewrite bool_decide_eq_false in H. congruence.
Qed.

Lemma lookupPgn_Ret idx d :
  is_Some (pgnIdx d !! idx) \/ (maxPgnList d < 512)%nat ->
  exists pgn d2, lookupPgn idx d = Ret (pgn, d2) /\
    pgnIdx d2 !! idx = Some pgn /\
    (forall p, pgnIdx d !! idx = Some p -> p = pgn /\ d2 = d) /\
    (pgnIdx d !! idx = None -> p_message pgn = []).
Proof.
  intros H. unfold lookupPgn. destruct (pgnIdx d !! idx) as [p|] eqn:E.
  - exists p, d. repeat split; first [congruence | discriminate].
  - destruct H as [[? H]|H]; [discriminate|].
    case_bool_decide; [lia|].
    eexists _, _. split; [reflexivity|]. simpl.
    split; [apply lookup_insert_eq|]. split; [discriminate|reflexivity].
Qed.

(** What [insertRecord] leaves in the index slot when it returns: the
    entry with the message array of [chooseSlot], the chosen slot holding
    the line and its expiry. *)
Lemma insertRecord_slot junk now mem src prn k key2 d :
  0 <= PrnToIdx prn ->
  is_Some (pgnIdx d !! PrnToIdx prn) \/ (maxPgnList d < 512)%nat ->
  exists d' pgn pgn',
    insertRecord junk now mem src prn k key2 d = Ret d' /\
    (forall p, pgnIdx d !! PrnToIdx prn = Some p -> p = pgn) /\
    (pgnIdx d !! PrnToIdx prn = None -> p_message pgn = []) /\
    pgnIdx d' !! PrnToIdx prn = Some pgn' /\
    match describe mem prn pgn with
    | None => p_message pgn' = p_message pgn
    | Some _ =>
        let '(i, ms) := chooseSlot junk src key2 now (p_message pgn) in
        p_message pgn' = alter (setText (cstring mem) (now + validFor prn k)) i ms
    end.
Proof.
  intros Hidx Hroom. unfold insertRecord.
  assert (INT_MIN <= PrnToIdx prn) by (unfold INT_MIN; lia).
  destruct (Z.ltb_spec (PrnToIdx prn) INT_MIN); [lia|].
  destruct (Z.ltb_spec (PrnToIdx prn) 0); [lia|].
  destruct (lookupPgn_Ret _ _ Hroom) as (pgn & d2 & -> & _ & Hsame & Hnew).
  simpl. destruct (describe mem prn pgn) as [pgn1|] eqn:Hd.
  - pose proof (describe_messages _ _ _ _ Hd) as Hm. rewrite Hm.
    destruct (chooseSlot _ _ _ _ _) as [i ms] eqn:Hc.
    eexists _, pgn, _. split; [reflexivity|].
    split; [intros p Hp; apply Hsame in Hp; tauto|].
    split; [exact Hnew|].
    split; [apply lookup_insert_eq|]. rewrite Hd, Hc. reflexivity.
  - eexists _, pgn, _. split; [reflexivity|].
    split; [intros p Hp; apply Hsame in Hp; tauto|].
    split; [exact Hnew|].
    split; [apply lookup_insert_eq|]. rewrite Hd. reflexivity.
Qed.



(** The example store is the one the parser builds. *)
Lemma store_depth_reached : handleLine Ex.h0 0 1000 Ex.line_depth data0 = Ret Ex.store_depth.
Proof. vm_compute. reflexivity. Qed.

(** Whatever key field matched, the expiry of a stored record depends on
    its PGN alone. *)
Lemma stored_expiry_depends_on_pgn_only h0 junk now line d src prn k key2 :
  (length line < 4096)%nat ->
  parseLine h0 line = Some (src, prn, k, key2) ->
  MIN_PGN <= prn ->
  is_Some (pgnIdx d !! (prn - MIN_PGN)) \/ (maxPgnList d < 512)%nat ->
  openDescription (line ++ [NUL]) = false ->
  exists d' pgn' m,
    handleLine h0 junk now line d = Ret d' /\
    pgnIdx d' !! (prn - MIN_PGN) = Some pgn' /\
    m ∈ p_message pgn' /\
    m_text m = Some (cstring (line ++ [NUL])) /\
    m_time m = now + (if prn =? 126996 then AIS_TIMEOUT
                      else if prn =? 130816 then SONICHUB_TIMEOUT
                      else SENSOR_TIMEOUT).
Proof.
  intros Hlen Hp Hlow Hroom Hopen.
  pose proof (parseLine_Some _ _ _ _ _ _ Hp) as (_ & _ & _ & _ & Hmax & Hk).
  pose proof (PrnToIdx_low prn Hmax) as Hi.
  assert (Hv : validFor prn k
               = if prn =? 126996 then AIS_TIMEOUT
                 else if prn =? 130816 then SONICHUB_TIMEOUT
                 else SENSOR_TIMEOUT).
  { rewrite <- (validFor_after_loop prn (line ++ [NUL])), <- Hk. reflexivity. }
  rewrite handleLine_short by exact Hlen. rewrite Hp.
  destruct (insertRecord_slot junk now (line ++ [NUL]) src prn k key2
              (appendJSONMessage (line ++ [NUL]) d))
    as (d' & pgn & pgn' & Hr & _ & _ & Hl & Hm).
  { rewrite Hi. lia. }
  { rewrite Hi. exact Hroom. }
  rewrite Hi in Hl.
  destruct (describe_closed (line ++ [NUL]) prn pgn Hopen) as [pgn1 Hd].
  rewrite Hd in Hm.
  destruct (chooseSlot _ _ _ _ _) as [i ms] eqn:Hc.
  apply chooseSlot_bounds in Hc as [Hlt _].
  destruct (lookup_lt_is_Some_2 ms i Hlt) as [m0 Hm0].
  exists d', pgn', (setText (cstring (line ++ [NUL])) (now + validFor prn k) m0).
  split; [exact Hr|]. split; [exact Hl|]. split.
  - rewrite Hm. apply list_elem_of_lookup. exists i.
    rewrite list_lookup_alter_eq, Hm0. reflexivity.
  - split; [reflexivity|]. simpl. rewrite Hv. reflexivity.
Qed.

(** ** Re-inserting a record *)

(** C7: a record inserted again can overwrite another record, which has
    not expired, and leave its own slot as it was.  Three records of one
    PGN and one source are read, the accumulator being sent on after
    each: with [Instance] 9 at time 1000, with [Instance] 0 at time
    1100, without key at time 1121; the third takes the slot of the
    first, expired at 1120, which now has a null key.  For the record
    with [Instance] 0, read again at time 1130, the search of lines
    712-728 stops at that first slot, a null key being taken for any
    key: its text is replaced, and the slot that holds the record itself
    keeps the expiry 1220.  After the first call the terminator of the
    accumulator stays inside its block. *)
Theorem C7_reinserted_record_overwrites_another :
  forall h0 junk,
    parseLine h0 Ex.line_instance_0 = Some (1, 127508, 5%nat, Some (lit "0")) /\
    parseLine h0 Ex.line_keyless = Some (1, 127508, 5%nat, None) /\
    chooseSlot junk 1 (Some (lit "0")) 1130 Ex.slots_battery
      = (0%nat, Ex.slots_battery) /\
    exists d1 d2 d3 d4,
      handleLine h0 junk 1000 Ex.line_instance_9 data0 = Ret d1 /\
      appendInBounds (Ex.line_instance_0 ++ [NUL]) (clearCurrent d1) /\
      handleLine h0 junk 1100 Ex.line_instance_0 (clearCurrent d1) = Ret d2 /\
      appendInBounds (Ex.line_keyless ++ [NUL]) (clearCurrent d2) /\
      handleLine h0 junk 1121 Ex.line_keyless (clearCurrent d2) = Ret d3 /\
      (p_message <$> pgnIdx d3 !! (127508 - MIN_PGN)) = Some Ex.slots_battery /\
      appendInBounds (Ex.line_instance_0 ++ [NUL]) (clearCurrent d3) /\
      handleLine h0 junk 1130 Ex.line_instance_0 (clearCurrent d3) = Ret d4 /\
      (p_message <$> pgnIdx d4 !! (127508 - MIN_PGN))
      = Some [ {| m_src := 1; m_key2 := None; m_time := 1250;
                  m_text := Some Ex.line_instance_0 |};
               {| m_src := 1; m_key2 := Some (lit "0"); m_time := 1220;
                  m_text := Some Ex.line_instance_0 |} ].
Proof.
  intros h0 junk.
  split; [vm_compute; reflexivity|].
  split; [vm_compute; reflexivity|].
  split; [vm_compute; reflexivity|].
  eexists _, _, _, _.
  split; [vm_compute; reflexivity|].
  split; [vm_compute; discriminate|].
  split; [vm_compute; reflexivity|].
  split; [vm_compute; discriminate|].
  split; [vm_compute; reflexivity|].
  split; [vm_compute; reflexivity|].
  split; [vm_compute; discriminate|].
  split; vm_compute; reflexivity.
Qed.

(** ** The write phase *)

Lemma sendsTo_app i evs evs' :
  sendsTo i (evs ++ evs') = (sendsTo i evs + sendsTo i evs')%nat.
Proof.
  induction evs as [|e evs IH]; simpl; [reflexivity|].
  destruct e; rewrite IH; lia.
Qed.

Lemma slot_setSlot_eq i s n :
  is_Some (slot n i) -> slot (setSlot i s n) i = Some s.
Proof.
  unfold slot, setSlot. simpl. destruct (i <? 0); intros [x Hx]; [discriminate|].
  apply lookup_lt_Some in Hx. apply list_lookup_insert_eq. exact Hx.
Qed.

Lemma slot_setSlot_ne i j s n :
  0 <= i -> i <> j -> slot (setSlot i s n) j = slot n j.
Proof.
  unfold slot, setSlot. simpl. intros Hi Hne.
  destruct (Z.ltb_spec j 0); [reflexivity|].
  apply list_lookup_insert_ne. lia.
Qed.

Lemma slot_Some_nonneg n i s : slot n i = Some s -> 0 <= i.
Proof. unfold slot. destruct (Z.ltb_spec i 0); [discriminate|lia]. Qed.

(** [closeStream(i)] frees slot [i], leaves the other slots alone, sends
    nothing and does not raise [socketIdxMax]. *)
Lemma closeStream_spec i n n' evs s :
  slot n i = Some s ->
  closeStream i n = Ret (n', evs) ->
  (exists s', slot n' i = Some s' /\ fd s' = -1 /\ type s' = type s) /\
  (forall j, j <> i -> slot n' j = slot n j) /\
  socketIdxMax n' <= socketIdxMax n /\
  evs = [EvClose (fd s)].
Proof.
  intros Hs. unfold closeStream. rewrite Hs. intros [= <- <-].
  pose proof (slot_Some_nonneg _ _ _ Hs) as Hi.
  split; [|split; [|split]].
  - eexists. split.
    { unfold slot in *. simpl. destruct (i <? 0); [discriminate|].
      apply lookup_lt_Some in Hs. apply list_lookup_insert_eq. exact Hs. }
    split; reflexivity.
  - intros j Hj. unfold slot. simpl.
    destruct (Z.ltb_spec j 0); [reflexivity|].
    apply list_lookup_insert_ne. lia.
  - simpl. destruct (i =? socketIdxMax n); lia.
  - reflexivity.
Qed.

Local Ltac slot_facts :=
  repeat split; auto; try lia; try discriminate; try congruence.

(** One pass of the loop, seen from any slot [i]. *)
Lemma writeStep_spec ws t secs d j w w1 :
  writeStep ws t secs d j w = Ret w1 ->
  socketIdxMax (w_net w1) <= socketIdxMax (w_net w) /\
  exists evs, w_out w1 = w_out w ++ evs /\
    forall i s, slot (w_net w) i = Some s ->
      exists s1, slot (w_net w1) i = Some s1 /\
        type s1 = type s /\
        (fd s < 0 -> fd s1 = fd s /\ sendsTo i evs = 0%nat) /\
        (i <> j -> s1 = s /\ sendsTo i evs = 0%nat) /\
        (sendsTo i evs <= 1)%nat /\
        (type s = CLIENT_JSON -> sendsTo i evs = 1%nat -> fd s1 = -1).
Proof.
  unfold writeStep.
  destruct (slot (w_net w) j) as [sj|] eqn:Hj; [|discriminate].
  pose proof (slot_Some_nonneg _ _ _ Hj) as Hj0.
  assert (Hsame : forall evs, evs = [] ->
            forall i s, slot (w_net w) i = Some s ->
              exists s1, slot (w_net w) i = Some s1 /\
                type s1 = type s /\
                (fd s < 0 -> fd s1 = fd s /\ sendsTo i evs = 0%nat) /\
                (i <> j -> s1 = s /\ sendsTo i evs = 0%nat) /\
                (sendsTo i evs <= 1)%nat /\
                (type s = CLIENT_JSON -> sendsTo i evs = 1%nat -> fd s1 = -1)).
  { intros evs -> i s Hs. exists s. simpl. slot_facts. }
  destruct (Z.ltb_spec (fd sj) 0) as [Hneg|Hpos].
  { intros [= <-]. split; [lia|]. exists []. rewrite app_nil_r. auto. }
  destruct (fd sj >? socketFdMax (w_net w)); [discriminate|].
  destruct (negb (FD_ISSET (fd sj) (writeSet (w_net w)))).
  { intros [= <-]. split; [lia|]. exists []. rewrite app_nil_r. auto. }
  destruct (negb (FD_ISSET (fd sj) ws)).
  { destruct (closeStream j (w_net w)) as [[n' evs]| |] eqn:Hc;
      simpl; try discriminate.
    intros [= <-]. simpl.
    destruct (closeStream_spec _ _ _ _ _ Hj Hc)
      as ((s' & Hs' & Hfd & Hty) & Hoth & Hmax & ->).
    split; [exact Hmax|]. eexists. split; [reflexivity|].
    intros i s Hs. destruct (decide (i = j)) as [->|Hne].
    - rewrite Hj in Hs. injection Hs as <-. exists s'. simpl.
      slot_facts.
    - exists s. rewrite (Hoth i Hne). simpl.
      slot_facts. }
  (* the stream is ready *)
  assert (Hquiet :
            socketIdxMax (w_net w) <= socketIdxMax (w_net w) /\
            exists evs, w_out w = w_out w ++ evs /\
              forall i s, slot (w_net w) i = Some s ->
                exists s1, slot (w_net w) i = Some s1 /\
                  type s1 = type s /\
                  (fd s < 0 -> fd s1 = fd s /\ sendsTo i evs = 0%nat) /\
                  (i <> j -> s1 = s /\ sendsTo i evs = 0%nat) /\
                  (sendsTo i evs <= 1)%nat /\
                  (type s = CLIENT_JSON -> sendsTo i evs = 1%nat -> fd s1 = -1)).
  { split; [lia|]. exists []. rewrite app_nil_r. auto. }
  assert (Hstream :
            forall payload,
            type sj <> CLIENT_JSON ->
            exists evs,
              (if bool_decide (currentLen d = 0%nat) then w_out w
               else w_out w ++ [EvSend j (fd sj) payload]) = w_out w ++ evs /\
              forall i s, slot (w_net w) i = Some s ->
                exists s1, slot (w_net w) i = Some s1 /\
                  type s1 = type s /\
                  (fd s < 0 -> fd s1 = fd s /\ sendsTo i evs = 0%nat) /\
                  (i <> j -> s1 = s /\ sendsTo i evs = 0%nat) /\
                  (sendsTo i evs <= 1)%nat /\
                  (type s = CLIENT_JSON -> sendsTo i evs = 1%nat -> fd s1 = -1)).
  { intros payload Hty. case_bool_decide.
    - exists []. rewrite app_nil_r. auto.
    - eexists. split; [reflexivity|]. intros i s Hs. exists s. simpl.
      destruct (decide (i = j)) as [->|Hne].
      + rewrite Hj in Hs. injection Hs as <-.
        rewrite bool_decide_eq_true_2 by reflexivity.
        slot_facts.
      + rewrite bool_decide_eq_false_2 by congruence.
        slot_facts. }
  destruct (type sj) eqn:Hty;
    try (intros [= <-]; simpl; apply Hquiet);
    try (intros [= <-]; simpl; split; [lia|]; apply Hstream; discriminate).
  (* CLIENT_JSON *)
  destruct (negb (timeout sj =? 0) && (timeout sj <? _)).
  2:{ intros [= <-]. simpl. apply Hquiet. }
  destruct (match w_state w with
            | Some st => Ret st
            | None => getFullStateJSON secs d
            end) as [state| |]; simpl; try discriminate.
  destruct (closeStream j (w_net w)) as [[n' evs]| |] eqn:Hc;
    simpl; try discriminate.
  intros [= <-]. simpl.
  destruct (closeStream_spec _ _ _ _ _ Hj Hc)
    as ((s' & Hs' & Hfd & Hty') & Hoth & Hmax & ->).
  split; [exact Hmax|]. eexists. split; [rewrite <- app_assoc; reflexivity|].
  intros i s Hs. destruct (decide (i = j)) as [->|Hne].
  - rewrite Hj in Hs. injection Hs as <-. exists s'. simpl.
    rewrite bool_decide_eq_true_2 by reflexivity.
    slot_facts.
  - exists s. rewrite (Hoth i Hne). simpl.
    rewrite bool_decide_eq_false_2 by congruence.
    slot_facts.
Qed.

(** The passes from index [j] on, seen from slot [i]: the slot keeps its
    type, a closed slot stays closed and is sent nothing, a slot below
    [j] is sent nothing, and a snapshot client is sent at most one
    message, after which it is closed. *)
Lemma writeLoop_spec ws t secs d fuel : forall j w w',
  writeLoop fuel ws t secs d j w = Ret w' ->
  socketIdxMax (w_net w') <= socketIdxMax (w_net w) /\
  exists evs, w_out w' = w_out w ++ evs /\
    forall i s, slot (w_net w) i = Some s ->
      exists s', slot (w_net w') i = Some s' /\
        type s' = type s /\
        (fd s < 0 -> fd s' = fd s /\ sendsTo i evs = 0%nat) /\
        (i < j -> s' = s /\ sendsTo i evs = 0%nat) /\
        (type s = CLIENT_JSON ->
           (sendsTo i evs <= 1)%nat /\
           (sendsTo i evs = 1%nat -> fd s' = -1)).
Proof.
  induction fuel as [|fuel IH]; intros j w w'; simpl.
  - intros [= <-]. split; [lia|]. exists []. rewrite app_nil_r.
    split; [reflexivity|]. intros i s Hs. exists s. simpl. slot_facts.
  - destruct ((w_r w >? 0) && (j <=? socketIdxMax (w_net w))).
    2:{ intros [= <-]. split; [lia|]. exists []. rewrite app_nil_r.
        split; [reflexivity|]. intros i s Hs. exists s. simpl. slot_facts. }
    destruct (writeStep ws t secs d j w) as [w1| |] eqn:Hstep;
      simpl; try discriminate.
    intros Hloop.
    destruct (writeStep_spec _ _ _ _ _ _ _ Hstep) as (Hmax1 & evs1 & Ho1 & H1).
    destruct (IH _ _ _ Hloop) as (Hmax2 & evs2 & Ho2 & H2).
    split; [lia|]. exists (evs1 ++ evs2).
    split; [rewrite Ho2, Ho1, app_assoc; reflexivity|].
    intros i s Hs.
    destruct (H1 i s Hs) as (s1 & Hs1 & Hty1 & Hneg1 & Hne1 & Hle1 & Hcl1).
    destruct (H2 i s1 Hs1) as (s' & Hs' & Hty2 & Hneg2 & Hlt2 & Hcj2).
    exists s'. rewrite sendsTo_app.
    split; [exact Hs'|]. split; [congruence|].
    split; [|split].
    + intros Hneg. destruct (Hneg1 Hneg) as [Hf1 Hz1].
      destruct Hneg2 as [Hf2 Hz2]; [lia|]. split; [congruence|lia].
    + intros Hlt. destruct Hne1 as [-> Hz1]; [lia|].
      destruct Hlt2 as [-> Hz2]; [lia|]. split; [reflexivity|lia].
    + intros Hty. rewrite <- Hty1 in Hty.
      destruct (Hcj2 Hty) as [Hle2 Hcl2]. rewrite Hty1 in Hty.
      destruct (decide (i = j)) as [->|Hne].
      * destruct Hlt2 as [-> Hz2]; [lia|]. rewrite Hz2.
        split; [lia|]. intros Hone. apply Hcl1; [exact Hty|lia].
      * destruct Hne1 as [-> Hz1]; [exact Hne|]. rewrite Hz1.
        split; [lia|]. intros Hone. apply Hcl2. lia.
Qed.

(** The bound on the passes is never what ends the loop: with more
    passes allowed the result is the same. *)
Lemma writeLoop_fuel ws t secs d fuel extra : forall j w,
  socketIdxMax (w_net w) + 1 - j <= Z.of_nat fuel ->
  writeLoop (fuel + extra) ws t secs d j w = writeLoop fuel ws t secs d j w.
Proof.
  induction fuel as [|fuel IH]; intros j w Hf.
  - simpl. destruct extra as [|extra]; [reflexivity|]. simpl.
    destruct (Z.leb_spec j (socketIdxMax (w_net w))); [lia|].
    rewrite andb_false_r. reflexivity.
  - simpl. destruct ((w_r w >? 0) && (j <=? socketIdxMax (w_net w)));
      [|reflexivity].
    destruct (writeStep ws t secs d j w) as [w1| |] eqn:Hstep;
      simpl; try reflexivity.
    apply IH. apply writeStep_spec in Hstep as [Hmax _]. lia.
Qed.

(** One write phase, seen from a snapshot client in slot [i]. *)
Lemma writeAllClients_snapshot_client r ready t secs n d n1 d1 evs i s :
  writeAllClients r ready t secs n d = Ret (n1, d1, evs) ->
  slot n i = Some s ->
  type s = CLIENT_JSON ->
  exists s1, slot n1 i = Some s1 /\ type s1 = CLIENT_JSON /\
    (fd s < 0 -> fd s1 < 0 /\ sendsTo i evs = 0%nat) /\
    (sendsTo i evs <= 1)%nat /\
    (sendsTo i evs = 1%nat -> fd s1 = -1).
Proof.
  unfold writeAllClients. intros H Hs Hty.
  destruct (socketIdxMax n >=? 0).
  - destruct (writeLoop _ _ _ _ _ _ _) as [w| |] eqn:Hloop;
      simpl in H; try discriminate.
    injection H as <- <- <-.
    destruct (writeLoop_spec _ _ _ _ _ _ _ _ Hloop) as (_ & evs & Ho & Hall).
    simpl in Ho. subst evs.
    destruct (Hall i s Hs) as (s1 & Hs1 & Hty1 & Hneg & _ & Hcj).
    exists s1. split; [exact Hs1|]. split; [congruence|].
    destruct (Hcj Hty) as [Hle Hcl].
    split; [|split; assumption].
    intros Hn. destruct (Hneg Hn). split; [lia|assumption].
  - injection H as <- <- <-. exists s. simpl. slot_facts.
Qed.

(** C8: a client that stays of snapshot type.  In one write phase it is
    sent at most one message, and when it is sent one its slot is free
    ([fd = -1]) when the phase ends; over any number of write phases,
    with steps in between that keep the client, it is sent at most one
    message in all. *)
Theorem C8_snapshot_client_is_sent_once i s :
  type s = CLIENT_JSON ->
  (forall r ready t secs n d n1 d1 evs,
      slot n i = Some s ->
      writeAllClients r ready t secs n d = Ret (n1, d1, evs) ->
      (sendsTo i evs <= 1)%nat /\
      (sendsTo i evs = 1%nat ->
       exists s1, slot n1 i = Some s1 /\ fd s1 = -1)) /\
  (forall n evs n',
      slot n i = Some s ->
      phases i n evs n' ->
      (sendsTo i evs <= 1)%nat).
Proof.
  intros Hty. split.
  - intros r ready t secs n d n1 d1 evs Hs H.
    destruct (writeAllClients_snapshot_client _ _ _ _ _ _ _ _ _ _ _ H Hs Hty)
      as (s1 & Hs1 & _ & _ & Hle & Hcl).
    split; [exact Hle|]. intros Hone. exists s1. auto.
  - intros n evs n' Hs Hrun.
    enough (Hgen : (sendsTo i evs <= 1)%nat /\
                   (fd s < 0 -> sendsTo i evs = 0%nat)) by tauto.
    revert s Hty Hs.
    induction Hrun as [n|n r ready t secs d n1 d1 evs n' evs' Hw Hrun IH
                      |n n1 n' evs Hk Hrun IH]; intros s Hty Hs.
    + simpl. split; [lia|reflexivity].
    + destruct (writeAllClients_snapshot_client _ _ _ _ _ _ _ _ _ _ _ Hw Hs Hty)
        as (s1 & Hs1 & Hty1 & Hneg & Hle & Hcl).
      destruct (IH s1 Hty1 Hs1) as [Hle' Hz']. rewrite sendsTo_app. split.
      * destruct (decide (sendsTo i evs = 1%nat)) as [Hone|Hnone].
        -- rewrite Hz'; [lia|]. rewrite (Hcl Hone). lia.
        -- lia.
      * intros Hn. destruct (Hneg Hn) as [Hn1 Hz]. rewrite Hz, Hz'; lia.
    + destruct (Hk s Hs) as (s1 & Hs1 & Hty1 & Hn1).
      destruct (IH s1 ltac:(congruence) Hs1) as [Hle' Hz']. split; [exact Hle'|].
      intros Hn. apply Hz'. auto.
Qed.

(** A witness for C8: a snapshot client on descriptor 5, due since time
    500; a write phase at time 1000 in which it is writable, a step that
    leaves the table alone, and a second write phase.  It is sent one
    message (the snapshot of the empty store, a newline). *)
Lemma C8_witness :
  exists evs n',
    slot (Ex.net_with CLIENT_JSON) 3 = Some (Ex.mkS 5 CLIENT_JSON 500) /\
    phases 3 (Ex.net_with CLIENT_JSON) evs n' /\
    sendsTo 3 evs = 1%nat /\
    (sendsTo 3 evs <= 1)%nat.
Proof.
  assert (Hs : slot (Ex.net_with CLIENT_JSON) 3 = Some (Ex.mkS 5 CLIENT_JSON 500))
    by reflexivity.
  assert (Hrun : exists evs n',
             phases 3 (Ex.net_with CLIENT_JSON) evs n' /\ sendsTo 3 evs = 1%nat).
  { eexists _, _. split.
    - eapply (phases_write 3 _ 2 {[ 1; 5 ]} 1000 1000 Ex.store_depth).
      { vm_compute. reflexivity. }
      eapply phases_other.
      { intros s0 H0. exists s0. split; [exact H0|]. auto. }
      eapply (phases_write 3 _ 1 {[ 1 ]} 2000 2000 data0).
      { vm_compute. reflexivity. }
      apply phases_done.
    - vm_compute. reflexivity. }
  destruct Hrun as (evs & n' & Hrun & Hone).
  exists evs, n'. split; [exact Hs|]. split; [exact Hrun|].
  split; [exact Hone|].
  exact (proj2 (C8_snapshot_client_is_sent_once 3 (Ex.mkS 5 CLIENT_JSON 500)
                  eq_refl) _ _ _ Hs Hrun).
Defined.

(** ** The client request reader *)

Lemma find_sub_marker_newline s k :
  find_sub marker s = Some k -> is_Some (find_chr LF s).
Proof.
  revert k. induction s as [|c s IH]; intros k.
  - discriminate.
  - change (find_sub marker (c :: s))
      with (if is_prefix marker (c :: s) then Some 0%nat
            else S <$> find_sub marker s).
    change (find_chr LF (c :: s))
      with (if Ascii.eqb c LF then Some 0%nat else S <$> find_chr LF s).
    destruct (Ascii.eqb c LF) eqn:Hc; [eauto|].
    destruct (is_prefix marker (c :: s)) eqn:Hp.
    + intros _. unfold marker in Hp.
      destruct s as [|c' s']; cbn [is_prefix] in Hp.
      { rewrite andb_false_r in Hp. discriminate. }
      apply andb_prop in Hp as [_ Hp]. apply andb_prop in Hp as [Hp _].
      apply Ascii.eqb_eq in Hp as <-. cbn [find_chr].
      rewrite Ascii.eqb_refl. eauto.
    + destruct (find_sub marker s) as [k'|] eqn:Hf; [|discriminate].
      intros _. destruct (IH k' eq_refl) as [q ->]. simpl. eauto.
Qed.

Lemma strstr_marker_newline buf :
  is_Some (strstr buf marker) -> is_Some (strchr buf LF).
Proof.
  unfold strstr, strchr. intros [k Hk]. simpl.
  exact (find_sub_marker_newline _ _ Hk).
Qed.

Lemma outputType_setSlot i s s' n :
  slot n i = Some s -> type s' = type s ->
  outputType (setSlot i s' n) = outputType n.
Proof.
  intros Hs Hty. unfold outputType.
  destruct (decide (i = stdoutfd)) as [->|Hne].
  - rewrite slot_setSlot_eq by eauto. rewrite Hs. simpl. congruence.
  - rewrite slot_setSlot_ne; [reflexivity| |exact Hne].
    exact (slot_Some_nonneg _ _ _ Hs).
Qed.

(** Without the marker in the buffer, and outside the output-copy mode,
    no number of passes changes the type of the stream. *)
Lemma requestLoop_keeps_type h0 junk now i r d fuel : forall n out s,
  slot n i = Some s ->
  strstr (<[Z.to_nat r := NUL]> (buffer s)) marker = None ->
  outputType n <> Some DATA_OUTPUT_COPY ->
  forall n' d' evs,
    requestLoop fuel h0 junk now i r n d out = Some (Ret (n', d', evs)) ->
    type <$> slot n' i = Some (type s).
Proof.
  induction fuel as [|fuel IH]; intros n out s Hs Hm Hcopy n' d' evs; simpl.
  - discriminate.
  - destruct (r >? 0).
    2:{ intros [= <- <- <-]. rewrite Hs. reflexivity. }
    rewrite Hs. destruct (_ <=? r); [discriminate|].
    set (buf := <[Z.to_nat r := NUL]> (buffer s)) in *.
    set (s1 := withBuffer buf ((len s + r) mod 2 ^ 64) (type s) s).
    assert (Hs1 : slot (setSlot i s1 n) i = Some s1)
      by (apply slot_setSlot_eq; eauto).
    assert (Ho : outputType (setSlot i s1 n) = outputType n)
      by (apply (outputType_setSlot i s); [exact Hs|reflexivity]).
    assert (Hm1 : strstr (<[Z.to_nat r := NUL]> (buffer s1)) marker = None).
    { simpl. unfold buf. rewrite list_insert_insert_eq. exact Hm. }
    destruct (strchr buf LF) as [q|].
    2:{ intros [= <- <- <-]. rewrite Hs1. reflexivity. }
    rewrite Hm, Ho.
    destruct (outputType n) as [ty|]; [|discriminate].
    destruct ty; try congruence;
      intros H; apply (IH _ _ s1 Hs1 Hm1) in H;
        try (rewrite Ho; exact Hcopy); exact H.
Qed.

(** In the output-stream and output-sink modes a buffered line without
    the marker keeps the loop going for ever: no number of passes ends
    it. *)
Lemma requestLoop_spins h0 junk now i r d fuel : forall n out s,
  0 < r < Z.of_nat (length (buffer s)) ->
  slot n i = Some s ->
  is_Some (strchr (<[Z.to_nat r := NUL]> (buffer s)) LF) ->
  strstr (<[Z.to_nat r := NUL]> (buffer s)) marker = None ->
  outputType n = Some DATA_OUTPUT_STREAM \/ outputType n = Some DATA_OUTPUT_SINK ->
  requestLoop fuel h0 junk now i r n d out = None.
Proof.
  induction fuel as [|fuel IH]; intros n out s Hr Hs [q Hq] Hm Hmode; simpl.
  - reflexivity.
  - destruct (Z.gtb_spec r 0); [|lia]. rewrite Hs.
    destruct (Z.leb_spec (Z.of_nat (length (buffer s))) r); [lia|].
    set (buf := <[Z.to_nat r := NUL]> (buffer s)) in *.
    set (s1 := withBuffer buf ((len s + r) mod 2 ^ 64) (type s) s).
    assert (Hs1 : slot (setSlot i s1 n) i = Some s1)
      by (apply slot_setSlot_eq; eauto).
    assert (Ho : outputType (setSlot i s1 n) = outputType n)
      by (apply (outputType_setSlot i s); [exact Hs|reflexivity]).
    assert (Hb : <[Z.to_nat r := NUL]> (buffer s1) = buf).
    { simpl. unfold buf. apply list_insert_insert_eq. }
    assert (Hl : length (buffer s1) = length (buffer s)).
    { simpl. unfold buf. apply length_insert. }
    rewrite Hq, Hm, Ho.
    assert (Hnext : forall out',
              requestLoop fuel h0 junk now i r (setSlot i s1 n) d out' = None).
    { intros out'. apply (IH _ _ s1).
      - rewrite Hl. exact Hr.
      - exact Hs1.
      - rewrite Hb. eauto.
      - rewrite Hb. exact Hm.
      - rewrite Ho. exact Hmode. }
    destruct Hmode as [-> | ->]; apply Hnext.
Qed.

(** With the marker in the buffer the first pass promotes the stream
    and returns. *)
Lemma requestLoop_promotes h0 junk now i r d fuel n out s :
  slot n i = Some s ->
  0 < r < Z.of_nat (length (buffer s)) ->
  is_Some (strstr (<[Z.to_nat r := NUL]> (buffer s)) marker) ->
  requestLoop (S fuel) h0 junk now i r n d out
  = Some (Ret (setSlot i (withBuffer (<[Z.to_nat r := NUL]> (buffer s)) 0
                            CLIENT_JSON_STREAM s) n, d, out)).
Proof.
  intros Hs Hr Hm. simpl.
  destruct (Z.gtb_spec r 0); [|lia]. rewrite Hs.
  destruct (Z.leb_spec (Z.of_nat (length (buffer s))) r); [lia|].
  destruct (strstr_marker_newline _ Hm) as [q ->].
  destruct Hm as [k ->]. reflexivity.
Qed.

(** C5 (amended): the client is promoted when the marker is anywhere in
    the C string of its buffer, and only then.  [rd] is the data a [read]
    delivers into the buffer of slot [i]; [buf] is the buffer as the
    loop first looks at it.  If [buf] holds the marker, at its head or
    after other text, the call returns with the stream of type
    JSON-stream and its fill count 0.  If it does not, the call, unless
    the output is in copy mode, never changes the type of the stream. *)
Theorem C5_promotion_by_marker_anywhere fuel h0 junk now rd i n d s :
  slot n i = Some s ->
  rd <> [] ->
  (Z.to_nat (len s) + length rd < length (buffer s))%nat ->
  let buf := <[length rd := NUL]> (writeAt (Z.to_nat (len s)) rd (buffer s)) in
  (is_Some (strstr buf marker) ->
   exists n',
     handleClientRequest (S fuel) h0 junk now rd i n d = Some (Ret (n', d, [])) /\
     slot n' i = Some (withBuffer buf 0 CLIENT_JSON_STREAM s)) /\
  (strstr buf marker = None ->
   outputType n <> Some DATA_OUTPUT_COPY ->
   forall n' d' evs,
     handleClientRequest fuel h0 junk now rd i n d = Some (Ret (n', d', evs)) ->
     type <$> slot n' i = Some (type s)).
Proof.
  intros Hs Hrd Hlen buf.
  pose (s1 := withBuffer (writeAt (Z.to_nat (len s)) rd (buffer s))
                (len s) (type s) s).
  assert (Hs1 : slot (setSlot i s1 n) i = Some s1)
    by (apply slot_setSlot_eq; eauto).
  assert (Hwl : length (buffer s1) = length (buffer s)).
  { simpl. unfold writeAt. rewrite !length_app, length_take, length_drop. lia. }
  assert (Hnat : Z.to_nat (Z.of_nat (length rd)) = length rd) by lia.
  assert (Hbuf : <[Z.to_nat (Z.of_nat (length rd)) := NUL]> (buffer s1) = buf)
    by (rewrite Hnat; reflexivity).
  assert (Hcall : forall f,
            handleClientRequest f h0 junk now rd i n d
            = requestLoop f h0 junk now i (Z.of_nat (length rd))
                (setSlot i s1 n) d []).
  { intros f. unfold handleClientRequest. rewrite Hs.
    destruct rd as [|c rd']; [congruence|].
    destruct (Nat.ltb_spec (length (buffer s))
                (Z.to_nat (len s) + length (c :: rd'))); [lia|].
    reflexivity. }
  assert (Hr : 0 < Z.of_nat (length rd) < Z.of_nat (length (buffer s1))).
  { rewrite Hwl. destruct rd; [congruence|]. simpl in *. lia. }
  split.
  - intros Hm. rewrite Hcall.
    rewrite (requestLoop_promotes _ _ _ _ _ _ _ _ _ s1 Hs1 Hr)
      by (rewrite Hbuf; exact Hm).
    eexists. split; [reflexivity|].
    rewrite slot_setSlot_eq by eauto. rewrite Hbuf. reflexivity.
  - intros Hm Hcopy n' d' evs H. rewrite Hcall in H.
    apply (requestLoop_keeps_type _ _ _ _ _ _ _ _ _ s1 Hs1) in H.
    + exact H.
    + rewrite Hbuf. exact Hm.
    + rewrite (outputType_setSlot i s); [exact Hcopy|exact Hs|reflexivity].
Qed.

(** A witness for C5: a snapshot client whose first data is [abc-]
    followed by a newline. *)
Lemma C5_witness :
  slot (Ex.net_with CLIENT_JSON) 3 = Some (Ex.mkS 5 CLIENT_JSON 500) /\
  is_Some (strstr (<[5%nat := NUL]> (writeAt 0 (lit "abc-" ++ [LF])
                                       (replicate 4096 NUL))) marker) /\
  exists n',
    handleClientRequest 1 Ex.h0 0 1000 (lit "abc-" ++ [LF]) 3
      (Ex.net_with CLIENT_JSON) data0 = Some (Ret (n', data0, [])) /\
    slot n' 3 = Some (withBuffer
                        (<[5%nat := NUL]> (writeAt 0 (lit "abc-" ++ [LF])
                                             (replicate 4096 NUL)))
                        0 CLIENT_JSON_STREAM (Ex.mkS 5 CLIENT_JSON 500)).
Proof.
  assert (Hs : slot (Ex.net_with CLIENT_JSON) 3 = Some (Ex.mkS 5 CLIENT_JSON 500))
    by reflexivity.
  assert (Hm : is_Some (strstr (<[5%nat := NUL]> (writeAt 0 (lit "abc-" ++ [LF])
                                       (replicate 4096 NUL))) marker)).
  { exists 3%nat. vm_compute. reflexivity. }
  split; [exact Hs|]. split; [exact Hm|].
  refine (proj1 (C5_promotion_by_marker_anywhere 0 Ex.h0 0 1000
                   (lit "abc-" ++ [LF]) 3 (Ex.net_with CLIENT_JSON) data0
                   (Ex.mkS 5 CLIENT_JSON 500) Hs _ _) Hm).
  - discriminate.
  - vm_compute. lia.
Defined.

(** In output-copy mode the restriction of the second half is needed:
    data without the marker can promote the client, once the first line
    has been consumed and the rest moved to the head of the buffer. *)
Example copy_mode_promotes_without_marker :
  strstr (<[6%nat := NUL]> (writeAt 0 (lit "ab" ++ [LF] ++ lit "c-Z")
                              (replicate 4096 NUL))) marker = None /\
  match handleClientRequest 2 Ex.h0 0 1000 (lit "ab" ++ [LF] ++ lit "c-Z") 3
          Ex.net_copy data0 with
  | Some (Ret (n', _, _)) => type <$> slot n' 3
  | _ => None
  end = Some CLIENT_JSON_STREAM.
Proof. split; vm_compute; reflexivity. Qed.

(** ** The snapshot serializer *)

Lemma MAKE_SPACE_spec x b :
  bufOk b -> 0 <= remain b -> x <= NEXT_ALLOC ->
  bytes (MAKE_SPACE x b) = bytes b /\ bufOk (MAKE_SPACE x b) /\
  x <= remain (MAKE_SPACE x b) /\ remain b <= remain (MAKE_SPACE x b).
Proof.
  unfold MAKE_SPACE, bufOk. intros Hok Hr Hx.
  destruct (Z.ltb_spec (remain b) x); simpl; repeat split; lia.
Qed.

Lemma snprintf_fits f b :
  bufOk b -> Z.of_nat (length f) < remain b ->
  bytes (snprintf f b) = bytes b ++ f /\ bufOk (snprintf f b) /\
  remain (snprintf f b) = remain b - Z.of_nat (length f).
Proof.
  unfold snprintf, bufOk. intros Hok Hf. simpl.
  rewrite take_ge by lia. rewrite length_app. repeat split; lia.
Qed.

Lemma strcpy_fits s b :
  bufOk b -> Z.of_nat (length s) + 1 <= remain b ->
  exists b', strcpy s b = Ret b' /\ bytes b' = bytes b ++ s /\ bufOk b' /\
    remain b' = remain b - Z.of_nat (length s).
Proof.
  unfold strcpy, bufOk. intros Hok Hs.
  destruct (Z.ltb_spec (remain b) (Z.of_nat (length s) + 1)); [lia|].
  eexists. split; [reflexivity|]. simpl. rewrite length_app.
  repeat split; lia.
Qed.

Lemma length_fmtMessage m text :
  m_text m = Some text ->
  length (fmtMessage (m_src m) (m_key2 m) (cstring text))
  = (7 + length (print_u (m_src m)) +
     match m_key2 m with Some k => 1 + strlen k | None => 0 end +
     strlen text)%nat.
Proof.
  intros _. unfold fmtMessage, strlen.
  destruct (m_key2 m); rewrite !length_app; simpl; rewrite ?length_app; simpl;
    lia.
Qed.

Lemma length_fmtPgn sep prn desc :
  length (fmtPgn sep prn desc)
  = (25 + length (print_u prn) + length desc)%nat.
Proof. unfold fmtPgn. rewrite !length_app. simpl. lia. Qed.

Lemma live_test now m : (m_time m >=? now) = bool_decide (now <= m_time m).
Proof.
  rewrite Z.geb_leb. destruct (Z.leb_spec now (m_time m)).
  - rewrite bool_decide_eq_true_2; [reflexivity|assumption].
  - rewrite bool_decide_eq_false_2; [reflexivity|lia].
Qed.

(** The message loop on a buffer with room: every live slot is written
    in full, in slot order. *)
Lemma messages_fit now ms : forall b,
  bufOk b -> 8 <= remain b ->
  (forall m, m ∈ ms -> now <= m_time m -> entryFits m) ->
  exists b', messages now ms b = Ret b' /\
    bytes b' = bytes b ++
               concat (map entryText (filter (fun m => now <= m_time m) ms)) /\
    bufOk b' /\ 8 <= remain b'.
Proof.
  induction ms as [|m ms IH]; intros b Hok Hr Hfit.
  - exists b. simpl. rewrite app_nil_r. auto.
  - simpl. rewrite live_test. rewrite filter_cons.
    assert (Hrest : forall m', m' ∈ ms -> now <= m_time m' -> entryFits m').
    { intros m' Hin. apply Hfit. right. exact Hin. }
    case_bool_decide as Hlive; destruct (decide (now <= m_time m)); try lia.
    + destruct (Hfit m ltac:(left) Hlive) as (text & Htext & Hlen & Hsrc & Hkey).
      rewrite Htext.
      destruct (MAKE_SPACE_spec (Z.of_nat (strlen text) + 32) b Hok)
        as (Hb1 & Hok1 & Hx1 & _); [lia|unfold NEXT_ALLOC; lia|].
      pose proof (length_fmtMessage m text Htext) as Hlf.
      assert (Hsize : Z.of_nat (length (fmtMessage (m_src m) (m_key2 m)
                                          (cstring text))) + 8
                      <= Z.of_nat (strlen text) + 32).
      { rewrite Hlf. destruct (m_key2 m); lia. }
      destruct (snprintf_fits (fmtMessage (m_src m) (m_key2 m) (cstring text))
                  _ Hok1) as (Hb2 & Hok2 & Hr2); [lia|].
      destruct (IH _ Hok2 ltac:(lia) Hrest) as (b' & -> & Hb' & Hok' & Hr').
      exists b'. split; [reflexivity|]. split; [|auto].
      rewrite Hb', Hb2, Hb1. simpl. unfold entryText at 2. rewrite Htext.
      simpl. rewrite <- app_assoc. reflexivity.
    + destruct (IH b Hok Hr Hrest) as (b' & -> & Hb' & Hok' & Hr').
      exists b'. auto.
Qed.

Lemma result_bind_Ret {A B} (f : A -> result B) (a : A) :
  mbind f (Ret a) = f a.
Proof. reflexivity. Qed.

Lemma pgns_cons now idx i l sep b pgn desc :
  idx !! i = Some pgn -> p_description pgn = Some desc ->
  pgns now idx (i :: l) sep b
  = (b3 ← messages now (p_message pgn)
            (snprintf (fmtPgn sep (p_prn pgn) (cstring desc))
               (MAKE_SPACE (100 + Z.of_nat (strlen desc)) b));
     b4 ← strcpy (lit "  }" ++ [LF]) b3;
     pgns now idx l ","%char b4).
Proof. intros Hi Hd. simpl. rewrite Hi, Hd. reflexivity. Qed.

Lemma pgnText_desc now sep pgn desc :
  p_description pgn = Some desc ->
  pgnText now sep pgn
  = fmtPgn sep (p_prn pgn) (cstring desc) ++
    concat (map entryText (filter (fun m => now <= m_time m) (p_message pgn))) ++
    lit "  }" ++ [LF].
Proof. intros Hd. unfold pgnText, liveMessages. rewrite Hd. reflexivity. Qed.

(** The PGN loop on a store that fits. *)
Lemma pgns_fit now idx l : forall sep b,
  bufOk b -> 3 <= remain b ->
  (forall i, i ∈ l -> exists pgn, idx !! i = Some pgn /\ pgnFits now pgn) ->
  exists b',
    pgns now idx l sep b
      = Ret (match l with [] => sep | _ :: _ => ","%char end, b') /\
    bytes b' = bytes b ++
               match omap (fun i => idx !! i) l with
               | [] => []
               | p :: rest =>
                   pgnText now sep p ++ concat (map (pgnText now ","%char) rest)
               end /\
    bufOk b' /\ 3 <= remain b'.
Proof.
  induction l as [|i l IH]; intros sep b Hok Hr Hfit.
  - exists b. simpl. rewrite app_nil_r. auto.
  - destruct (Hfit i ltac:(left)) as (pgn & Hi & (desc & Hdesc & Hdl) & Hprn & Hms).
    rewrite (pgns_cons _ _ _ _ _ _ _ _ Hi Hdesc).
    destruct (MAKE_SPACE_spec (100 + Z.of_nat (strlen desc)) b Hok)
      as (Hb1 & Hok1 & Hx1 & _); [lia|unfold NEXT_ALLOC; lia|].
    pose proof (length_fmtPgn sep (p_prn pgn) (cstring desc)) as Hlf.
    fold (strlen desc) in Hlf.
    destruct (snprintf_fits (fmtPgn sep (p_prn pgn) (cstring desc)) _ Hok1)
      as (Hb2 & Hok2 & Hr2); [lia|].
    destruct (messages_fit now (p_message pgn) _ Hok2 ltac:(lia) Hms)
      as (b3 & -> & Hb3 & Hok3 & Hr3).
    rewrite result_bind_Ret.
    destruct (strcpy_fits (lit "  }" ++ [LF]) b3 Hok3)
      as (b4 & -> & Hb4 & Hok4 & Hr4); [simpl; lia|].
    rewrite result_bind_Ret.
    assert (Hr4' : 3 <= remain b4) by (simpl in Hr4; lia).
    destruct (IH ","%char b4 Hok4 Hr4') as (b' & Hrun & Hb' & Hok' & Hr').
    { intros j Hj. apply Hfit. right. exact Hj. }
    exists b'. split.
    { rewrite Hrun. destruct l; reflexivity. }
    split; [|auto].
    rewrite Hb', Hb4, Hb3, Hb2, Hb1.
    assert (Ho : omap (fun i0 => idx !! i0) (i :: l)
                 = pgn :: omap (fun i0 => idx !! i0) l).
    { simpl. rewrite Hi. reflexivity. }
    rewrite Ho, (pgnText_desc _ _ _ _ Hdesc).
    destruct (omap (fun i0 => idx !! i0) l) as [|p rest].
    + rewrite app_nil_r. simpl concat. rewrite app_nil_r.
      rewrite <- !app_assoc. reflexivity.
    + change (concat (map (pgnText now ","%char) (p :: rest)))
        with (pgnText now ","%char p ++
              concat (map (pgnText now ","%char) rest)).
      rewrite <- !app_assoc. reflexivity.
Qed.

(** On a store whose entries fit, the serializer returns the snapshot
    as the specification words it: the listed entries in list order, the
    slots in slot order, and exactly those with [now <= m_time]. *)
Lemma getFullStateJSON_fits now d :
  snapshotFits now d ->
  getFullStateJSON now d = Ret (snapshotText now d).
Proof.
  intros Hfit. unfold getFullStateJSON.
  destruct (pgns_fit now (pgnIdx d) (pgnList d) "{"%char buf0)
    as (b & -> & Hb & Hok & Hr).
  { reflexivity. }
  { simpl. unfold INITIAL_ALLOC. lia. }
  { exact Hfit. }
  rewrite result_bind_Ret. unfold snapshotText, listed.
  unfold snapshotFits in Hfit.
  destruct (pgnList d) as [|i l].
  - destruct (strcpy_fits [LF] b Hok) as (b' & Hc & Hb' & _); [simpl; lia|].
    simpl. simpl in Hc. rewrite Hc. simpl. rewrite Hb', Hb. reflexivity.
  - destruct (strcpy_fits ["}"%char; LF] b Hok) as (b' & Hc & Hb' & _);
      [simpl; lia|].
    change (Ascii.eqb ","%char ","%char) with true. cbv iota.
    rewrite Hc, result_bind_Ret. rewrite Hb', Hb.
    destruct (Hfit i ltac:(left)) as (pgn & Hi & _).
    assert (Ho : omap (fun i0 => pgnIdx d !! i0) (i :: l)
                 = pgn :: omap (fun i0 => pgnIdx d !! i0) l).
    { simpl. rewrite Hi. reflexivity. }
    rewrite Ho. change (bytes buf0) with (@nil ascii).
    rewrite app_nil_l, <- !app_assoc. reflexivity.
Qed.

(** The snapshot of the end-to-end scenario 1. *)
Example snapshot_of_depth_store :
  getFullStateJSON 1000 Ex.store_depth
  = Ret (js "{'128267':" ++ [LF] ++
         js "  {'description':'Water Depth'" ++ [LF] ++
         js "  ,'1':" ++ Ex.line_depth ++ [LF] ++
         lit "  }" ++ [LF] ++ lit "}" ++ [LF]).
Proof. vm_compute. reflexivity. Qed.

(** C4: entries that need more room than one growth step are cut.  Three
    records of PGN 127508 are read at time 1000: sources 1 and 2 carry an
    [Instance] value of 3990 characters (lines of 4093 bytes), source 3
    is short.  All three expire at 1120.  In the snapshot taken at time
    1000 the entry of source 2 is cut after 4157 characters, inside its
    key; its text is missing.  Without the third record the serializer
    writes past the end of its buffer. *)
Theorem C4_long_entries_are_cut_from_snapshot :
  forall h0 junk,
    let l1 := Ex.line_long_key "1" 3990 in
    let l2 := Ex.line_long_key "2" 3990 in
    let key := Some (replicate 3990 "7"%char) in
    (exists d,
       feed h0 junk 1000 (l1 ++ [LF] ++ l2 ++ [LF] ++ Ex.line_volt ++ [LF]) data0
         = Ret d /\
       (p_message <$> pgnIdx d !! (127508 - MIN_PGN))
         = Some [ {| m_src := 1; m_key2 := key; m_time := 1120;
                     m_text := Some l1 |};
                  {| m_src := 2; m_key2 := key; m_time := 1120;
                     m_text := Some l2 |};
                  {| m_src := 3; m_key2 := None; m_time := 1120;
                     m_text := Some Ex.line_volt |} ] /\
       getFullStateJSON 1000 d
         = Ret (fmtPgn "{"%char 127508 (lit "Battery") ++
                fmtMessage 1 key l1 ++
                take 4157 (fmtMessage 2 key l2) ++
                fmtMessage 3 None Ex.line_volt ++
                lit "  }" ++ [LF] ++ [ "}"%char; LF ])) /\
    (exists d,
       feed h0 junk 1000 (l1 ++ [LF] ++ l2 ++ [LF]) data0 = Ret d /\
       getFullStateJSON 1000 d = Undef).
Proof.
  intros h0 junk l1 l2 key. split.
  - eexists. split; [vm_compute; reflexivity|].
    split; vm_compute; reflexivity.
  - eexists. split; [vm_compute; reflexivity|]. vm_compute. reflexivity.
Qed.

(** * Further properties of the code *)

(** ** C strings *)

Lemma cstring_prefix m : cstring m = take (strlen m) m.
Proof.
  unfold strlen. induction m as [|c m IH]; simpl; [reflexivity|].
  destruct (is_nul c); simpl; [reflexivity|]. rewrite <- IH. reflexivity.
Qed.

Lemma cstring_nul_free m : NUL ∉ cstring m.
Proof.
  induction m as [|c m IH]; simpl; [apply not_elem_of_nil|].
  destruct (is_nul c) eqn:Hc; [apply not_elem_of_nil|].
  apply not_elem_of_cons. split; [|exact IH].
  intros <-. unfold is_nul in Hc. rewrite Ascii.eqb_refl in Hc. discriminate.
Qed.

Lemma cstring_app m rest : (NUL ∉ m) -> cstring (m ++ rest) = m ++ cstring rest.
Proof.
  induction m as [|c m IH]; intros H; simpl; [reflexivity|].
  apply not_elem_of_cons in H as [Hc H].
  unfold is_nul. assert (Ascii.eqb c NUL = false) as ->.
  { apply Ascii.eqb_neq. congruence. }
  rewrite IH by assumption. reflexivity.
Qed.

Lemma find_chr_Some c s k :
  find_chr c s = Some k -> (k < length s)%nat /\ (c ∉ take k s).
Proof.
  revert k. induction s as [|x s IH]; intros k; simpl; [discriminate|].
  destruct (Ascii.eqb x c) eqn:Hx.
  - intros [= <-]. simpl. split; [lia|apply not_elem_of_nil].
  - destruct (find_chr c s) as [k'|]; [|discriminate]. intros [= <-].
    destruct (IH k' eq_refl) as [Hlt Hnot]. simpl. split; [lia|].
    apply not_elem_of_cons. split; [|exact Hnot].
    apply Ascii.eqb_neq in Hx. congruence.
Qed.

Lemma find_chr_None c s : find_chr c s = None -> (c ∉ s).
Proof.
  induction s as [|x s IH]; simpl; [intros _; apply not_elem_of_nil|].
  destruct (Ascii.eqb x c) eqn:Hx; [discriminate|].
  destruct (find_chr c s); [discriminate|]. intros _.
  apply not_elem_of_cons. split; [|auto].
  apply Ascii.eqb_neq in Hx. congruence.
Qed.

Lemma take_cstring n m : (n <= strlen m)%nat -> take n m = take n (cstring m).
Proof.
  intros H. rewrite cstring_prefix, take_take. f_equal. lia.
Qed.

Lemma not_elem_of_take_le {A} (x : A) n k (l : list A) :
  (n <= k)%nat -> (x ∉ take k l) -> (x ∉ take n l).
Proof.
  intros Hle H Hin. apply H. apply elem_of_take in Hin as (i & Hi & Hlt).
  apply elem_of_take. exists i. split; [exact Hi|lia].
Qed.

(** The text cut out between a start and the end chosen by [pickEnd]
    for a character [c] and the double quote: it lies inside the C
    string and holds no double quote; it holds no [c] either unless the
    string has a [c] and no double quote, in which case there is no
    end. *)
Lemma pickEnd_cut (c : ascii) tail :
  c <> NUL ->
  let e := pickEnd (strchr tail c) (strchr tail dq) in
  let n := match e with Some n => n | None => strlen tail end in
  (n <= strlen tail)%nat /\ (dq ∉ take n tail) /\ (NUL ∉ take n tail) /\
  (is_Some e -> (c ∉ take n tail)).
Proof.
  intros Hc e n. subst e n. unfold strchr.
  assert (is_nul c = false) as ->.
  { unfold is_nul. apply Ascii.eqb_neq. exact Hc. }
  change (is_nul dq) with false. cbv iota.
  assert (Hnul : forall n, (n <= strlen tail)%nat -> (NUL ∉ take n tail)).
  { intros n Hn. rewrite take_cstring by exact Hn.
    intros Hin. apply (cstring_nul_free tail).
    apply (subseteq_take n _ _ Hin). }
  destruct (find_chr c (cstring tail)) as [a|] eqn:Ha;
    destruct (find_chr dq (cstring tail)) as [b|] eqn:Hb; simpl.
  - apply find_chr_Some in Ha as [Ha1 Ha2].
    apply find_chr_Some in Hb as [Hb1 Hb2]. fold (strlen tail) in Ha1, Hb1.
    destruct (Nat.ltb_spec b a); simpl.
    + split; [lia|]. rewrite (take_cstring b) by lia.
      split; [exact Hb2|]. split; [rewrite <- take_cstring by lia; apply Hnul; lia|].
      intros _. apply (not_elem_of_take_le c b a); [lia|exact Ha2].
    + split; [lia|]. rewrite (take_cstring a) by lia.
      split; [apply (not_elem_of_take_le dq a b); [lia|exact Hb2]|].
      split; [rewrite <- take_cstring by lia; apply Hnul; lia|].
      intros _. exact Ha2.
  - apply find_chr_None in Hb. split; [lia|].
    rewrite (take_cstring (strlen tail)) by lia.
    split; [intros Hin; apply Hb; apply (subseteq_take _ _ _ Hin)|].
    split; [rewrite <- take_cstring by lia; apply Hnul; lia|].
    intros [x Hx]. discriminate.
  - apply find_chr_Some in Hb as [Hb1 Hb2]. fold (strlen tail) in Hb1.
    apply find_chr_None in Ha.
    split; [lia|]. rewrite (take_cstring b) by lia.
    split; [exact Hb2|].
    split; [rewrite <- take_cstring by lia; apply Hnul; lia|].
    intros _ Hin. apply Ha. apply (subseteq_take _ _ _ Hin).
  - apply find_chr_None in Hb. split; [lia|].
    rewrite (take_cstring (strlen tail)) by lia.
    split; [intros Hin; apply Hb; apply (subseteq_take _ _ _ Hin)|].
    split; [rewrite <- take_cstring by lia; apply Hnul; lia|].
    intros [x Hx]. discriminate.
Qed.

Lemma extractKey_clean mem s key :
  (dq ∉ extractKey mem s key) /\ (NUL ∉ extractKey mem s key).
Proof.
  unfold extractKey.
  pose proof (pickEnd_cut SP
                (drop (s + length key + skipCount (drop (s + length key) mem)) mem))
    as H.
  destruct H as (_ & Hdq & Hnul & _); [discriminate|]. split; assumption.
Qed.

Lemma keyLoop_clean mem keys : forall k key2,
  (forall key, key2 = Some key -> (dq ∉ key) /\ (NUL ∉ key)) ->
  forall key, (keyLoop mem keys k key2).2 = Some key -> (dq ∉ key) /\ (NUL ∉ key).
Proof.
  induction keys as [|key0 keys IH]; intros k key2 H key; simpl.
  - apply H.
  - apply IH. intros key' Hk.
    destruct (strstr mem key0).
    + injection Hk as <-. apply extractKey_clean.
    + apply H. exact Hk.
Qed.

Lemma key_and_description_clean :
  (forall h0 line src prn k key,
      parseLine h0 line = Some (src, prn, k, Some key) ->
      (dq ∉ key) /\ (NUL ∉ key)) /\
  (forall mem prn pgn pgn1 desc,
      p_description pgn = None ->
      describe mem prn pgn = Some pgn1 ->
      p_description pgn1 = Some desc ->
      (dq ∉ desc) /\ (":"%char ∉ desc) /\ (NUL ∉ desc)).
Proof.
  split.
  - intros h0 line src prn k key Hp.
    apply parseLine_Some in Hp as (_ & _ & _ & _ & _ & Hk).
    apply (keyLoop_clean (line ++ [NUL]) secondaryKeyList 0%nat None).
    + discriminate.
    + rewrite <- Hk. reflexivity.
  - intros mem prn pgn pgn1 desc Hnone. unfold describe. rewrite Hnone.
    destruct (strstr mem lit_description) as [s|].
    2:{ intros [= <-]. discriminate. }
    pose proof (pickEnd_cut ":"%char (drop (s + 15) mem)) as H.
    destruct H as (_ & Hdq & Hnul & Hc); [discriminate|].
    destruct (pickEnd _ _) as [e|]; [|discriminate].
    intros [= <-]. simpl. intros [= <-]. auto.
Qed.

(** X1: The key the parser takes from a line holds neither a double quote
    nor a NUL, and the description it takes holds neither of them nor a
    colon. *)
Theorem parsed_key_and_description_are_clean :
  (forall h0 line src prn k key,
      parseLine h0 line = Some (src, prn, k, Some key) ->
      (dq ∉ key) /\ (NUL ∉ key)) /\
  (forall mem prn pgn pgn1 desc,
      p_description pgn = None ->
      describe mem prn pgn = Some pgn1 ->
      p_description pgn1 = Some desc ->
      (dq ∉ desc) /\ (":"%char ∉ desc) /\ (NUL ∉ desc)).
Proof. exact key_and_description_clean. Qed.

(** A witness: the record with two key fields, and the depth record. *)
Lemma parsed_key_and_description_are_clean_witness :
  parseLine Ex.h0 Ex.line_two_keys
    = Some (7, 129038, 5%nat, Some (lit "244123456")) /\
  ((dq ∉ lit "244123456") /\ (NUL ∉ lit "244123456")) /\
  describe (Ex.line_depth ++ [NUL]) 128267
    {| p_prn := 0; p_description := None; p_message := [] |}
    = Some {| p_prn := 128267; p_description := Some (lit "Water Depth");
              p_message := [] |} /\
  ((dq ∉ lit "Water Depth") /\ (":"%char ∉ lit "Water Depth") /\
   (NUL ∉ lit "Water Depth")).
Proof.
  assert (H1 : parseLine Ex.h0 Ex.line_two_keys
               = Some (7, 129038, 5%nat, Some (lit "244123456")))
    by (vm_compute; reflexivity).
  assert (H2 : describe (Ex.line_depth ++ [NUL]) 128267
                 {| p_prn := 0; p_description := None; p_message := [] |}
               = Some {| p_prn := 128267;
                         p_description := Some (lit "Water Depth");
                         p_message := [] |})
    by (vm_compute; reflexivity).
  split; [exact H1|]. split.
  - exact (proj1 parsed_key_and_description_are_clean _ _ _ _ _ _ H1).
  - split; [exact H2|].
    eapply (proj2 parsed_key_and_description_are_clean);
      [|exact H2|]; reflexivity.
Defined.

(** ** Printing and scanning unsigned numbers *)

Lemma digits_numeral d : forall acc rest,
  match rest with c :: _ => isdigit c = false | [] => True end ->
  digits acc (lit (NilEmpty.string_of_uint d) ++ rest)
  = (Aux.uintValue acc d, rest).
Proof.
  induction d; intros acc rest Hrest; simpl;
    try (rewrite IHd by exact Hrest;
         match goal with
         | |- context [Z.of_nat (nat_of_ascii ?c) - 48] =>
             let v := eval vm_compute in (Z.of_nat (nat_of_ascii c) - 48) in
             change (Z.of_nat (nat_of_ascii c) - 48) with v
         end;
         f_equal; f_equal; lia).
  destruct rest as [|c rest]; [reflexivity|]. simpl. rewrite Hrest. reflexivity.
Qed.

Lemma uintValue_acc d : forall acc,
  Aux.uintValue (Z.pos acc) d = Z.pos (Pos.of_uint_acc d acc).
Proof.
  induction d; intros acc; simpl; [reflexivity|..];
    rewrite <- IHd; f_equal; lia.
Qed.

Lemma uintValue_of_uint d : Aux.uintValue 0 d = Z.of_N (N.of_uint d).
Proof.
  unfold N.of_uint.
  induction d; simpl; [reflexivity|exact IHd|..];
    apply (uintValue_acc d).
Qed.

Lemma numeral_head n :
  exists c rest, lit (NilEmpty.string_of_uint (N.to_uint n)) = c :: rest /\
    isdigit c = true /\ isspace c = false /\
    Ascii.eqb c "-"%char = false /\ Ascii.eqb c "+"%char = false.
Proof.
  destruct (N.to_uint n) as [|d|d|d|d|d|d|d|d|d|d] eqn:E;
    [|simpl; eexists _, _; split; [reflexivity|]; repeat split; reflexivity..].
  exfalso. destruct n as [|p]; [discriminate|].
  exact (DecimalPos.Unsigned.to_uint_nonnil p E).
Qed.

(** What [printf] writes for [%u] is read back by [%u] of [sscanf],
    whatever follows that is not a digit. *)
Lemma scan_u_print_u u rest :
  0 <= u < 2 ^ 32 ->
  match rest with c :: _ => isdigit c = false | [] => True end ->
  scan_u (print_u u ++ rest) = Some (u, rest).
Proof.
  intros Hu Hrest. unfold print_u.
  destruct (numeral_head (Z.to_N u)) as (c & tl & Hc & Hd & Hs & Hm & Hp).
  pose proof (digits_numeral (N.to_uint (Z.to_N u)) 0 rest Hrest) as Hdig.
  rewrite uintValue_of_uint, DecimalN.Unsigned.of_to, Z2N.id in Hdig by lia.
  unfold scan_u. rewrite Hc in *. simpl app in *.
  cbn [skip_space]. rewrite Hs, Hm, Hp, Hd, Hdig.
  unfold conv_u.
  destruct (Z.leb_spec (2 ^ 64) u); [lia|].
  rewrite Z.mod_small by lia. reflexivity.
Qed.

Lemma is_prefix_app p x : is_prefix p (p ++ x) = true.
Proof.
  induction p as [|c p IH]; simpl; [reflexivity|].
  rewrite Ascii.eqb_refl, IH. reflexivity.
Qed.

Lemma scan_lit_app p x : scan_lit p (p ++ x) = Some x.
Proof.
  unfold scan_lit. rewrite is_prefix_app, drop_app_length. reflexivity.
Qed.

(** X2: The header of a record is read back: when the first ["src":] of the
    line is followed, after the one character that [sizeof] skips, by
    three numbers printed with [%u] and separated as in the format, the
    three locals receive them (as [int]s), whatever they held before. *)
Theorem header_is_read_back h0 mem s a b c rest :
  strstr mem lit_src = Some s ->
  cstring (drop (s + 7) mem)
    = print_u a ++ fmt_dst ++ print_u b ++ fmt_pgn ++ print_u c ++ rest ->
  match rest with ch :: _ => isdigit ch = false | [] => True end ->
  0 <= a < 2 ^ 32 -> 0 <= b < 2 ^ 32 -> 0 <= c < 2 ^ 32 ->
  scanHeader mem h0 = mkHeader (to_int a) (to_int b) (to_int c).
Proof.
  intros Hs Hin Hrest Ha Hb Hc. unfold scanHeader. rewrite Hs, Hin.
  rewrite (scan_u_print_u a) by (exact Ha || reflexivity).
  rewrite scan_lit_app.
  rewrite (scan_u_print_u b) by (exact Hb || reflexivity).
  rewrite scan_lit_app.
  rewrite (scan_u_print_u c) by assumption.
  reflexivity.
Qed.

(** A witness: the depth record. *)
Lemma header_is_read_back_witness :
  strstr (Ex.line_depth ++ [NUL]) lit_src = Some 17%nat /\
  scanHeader (Ex.line_depth ++ [NUL]) Ex.h0 = mkHeader 1 255 128267.
Proof.
  assert (Hs : strstr (Ex.line_depth ++ [NUL]) lit_src = Some 17%nat)
    by (vm_compute; reflexivity).
  split; [exact Hs|].
  apply (header_is_read_back Ex.h0 (Ex.line_depth ++ [NUL]) 17 1 255 128267
           (drop 52 Ex.line_depth) Hs).
  - vm_compute. reflexivity.
  - vm_compute. reflexivity.
  - lia.
  - lia.
  - lia.
Defined.

(** ** The index macro *)

(** X3: [PrnToIdx]: a result that is not negative is an index of [pgnIdx];
    the PGNs up to [MAX_PGN] get indices of their own; the Actisense
    PGNs share theirs with the PGNs from [MIN_PGN] on. *)
Theorem PrnToIdx_bounds_and_collision :
  (forall prn, 0 <= PrnToIdx prn -> PrnToIdx prn < PGN_SPACE) /\
  (forall p q, p <= MAX_PGN -> q <= MAX_PGN -> PrnToIdx p = PrnToIdx q -> p = q) /\
  (forall j, 0 <= j <= ACTISENSE_RNG ->
     PrnToIdx (ACTISENSE_BEM + j) = PrnToIdx (MIN_PGN + j)).
Proof.
  unfold PrnToIdx, PGN_SPACE, ACTISENSE_RNG, ACTISENSE_BEM, MAX_PGN, MIN_PGN.
  split; [|split].
  - intros prn.
    destruct (Z.leb_spec prn 131000); [lia|].
    destruct (Z.leb_spec prn (4194304 + 256)); lia.
  - intros p q Hp Hq.
    destruct (Z.leb_spec p 131000); [|lia].
    destruct (Z.leb_spec q 131000); lia.
  - intros j Hj.
    destruct (Z.leb_spec (4194304 + j) 131000); [lia|].
    destruct (Z.leb_spec (4194304 + j) (4194304 + 256)); [|lia].
    destruct (Z.leb_spec (59391 + j) 131000); lia.
Qed.

Lemma PrnToIdx_bounds_and_collision_witness :
  0 <= PrnToIdx 128267 /\ PrnToIdx 128267 < PGN_SPACE /\
  PrnToIdx (ACTISENSE_BEM + 1) = PrnToIdx (MIN_PGN + 1).
Proof.
  assert (H0 : 0 <= PrnToIdx 128267) by (vm_compute; discriminate).
  split; [exact H0|]. split.
  - exact (proj1 PrnToIdx_bounds_and_collision 128267 H0).
  - apply (proj2 (proj2 PrnToIdx_bounds_and_collision) 1).
    vm_compute. split; discriminate.
Defined.

(** ** Assembling lines *)

(** X4: A newline that finds fewer than 4096 bytes gathered ends the
    line: the bytes gathered are handed over as one line, without the
    newline, and the buffer starts again empty.  A byte, newline or
    not, that finds 4096 bytes gathered has no defined effect: line 581
    stores the terminator one byte past the buffer. *)
Theorem lines_are_assembled h0 junk now line c rest d :
  (LF ∉ line) ->
  (length (readLine d) + length line <= 4096)%nat ->
  c = LF \/ (length (readLine d) + length line = 4096)%nat ->
  feed h0 junk now (line ++ c :: rest) d
  = if (length (readLine d) + length line <? 4096)%nat
    then d' ← handleLine h0 junk now (readLine d ++ line) (resetLine d);
         feed h0 junk now rest d'
    else Undef.
Proof.
  intros Hlf Hlen Hend.
  assert (Hfeed : feed h0 junk now (line ++ c :: rest) d
                  = (d' ← handleLine h0 junk now (readLine d ++ line)
                            (resetLine d);
                     feed h0 junk now rest d')).
  { revert d Hlen Hend. induction line as [|b line IH]; intros d Hlen Hend.
    - simpl. unfold handleMessageByte. rewrite app_nil_r.
      assert (negb (Ascii.eqb c LF) && (length (readLine d) <? 4096)%nat
              = false) as ->; [|reflexivity].
      destruct Hend as [->|Hfull].
      + rewrite Ascii.eqb_refl. reflexivity.
      + simpl in Hfull. rewrite Nat.add_0_r in Hfull. rewrite Hfull.
        apply andb_false_r.
    - apply not_elem_of_cons in Hlf as [Hb Hlf]. simpl in Hlen.
      simpl. unfold handleMessageByte at 1.
      assert (Ascii.eqb b LF = false) as ->
        by (apply Ascii.eqb_neq; congruence).
      assert ((length (readLine d) <? 4096)%nat = true) as ->
        by (apply Nat.ltb_lt; lia).
      simpl. rewrite IH.
      + simpl. rewrite <- app_assoc. reflexivity.
      + exact Hlf.
      + simpl. rewrite length_app. simpl. lia.
      + destruct Hend as [->|Hfull]; [left; reflexivity|right].
        simpl. rewrite length_app. simpl. simpl in Hfull. lia. }
  rewrite Hfeed.
  destruct (Nat.ltb_spec (length (readLine d) + length line) 4096) as [Hs|Hf];
    [reflexivity|].
  rewrite handleLine_full by (rewrite length_app; exact Hf). reflexivity.
Qed.

(** A witness: the depth record, its newline and one more byte; and
    4096 bytes followed by a newline. *)
Lemma lines_are_assembled_witness :
  (LF ∉ Ex.line_depth) /\
  feed Ex.h0 0 1000 (Ex.line_depth ++ LF :: [ "x"%char ]) data0
  = (d' ← handleLine Ex.h0 0 1000 ([] ++ Ex.line_depth) (resetLine data0);
     feed Ex.h0 0 1000 [ "x"%char ] d') /\
  feed Ex.h0 0 1000 (replicate 4096 "x"%char ++ [LF]) data0 = Undef.
Proof.
  assert (H : LF ∉ Ex.line_depth).
  { apply (bool_decide_unpack _). vm_compute. exact I. }
  assert (Hx : LF ∉ replicate 4096 "x"%char).
  { intros Hin. apply elem_of_replicate in Hin as [Hin _]. discriminate. }
  split; [exact H|]. split.
  - rewrite (lines_are_assembled Ex.h0 0 1000 Ex.line_depth LF [ "x"%char ]
               data0 H).
    + reflexivity.
    + vm_compute. lia.
    + left. reflexivity.
  - rewrite (lines_are_assembled Ex.h0 0 1000 (replicate 4096 "x"%char) LF []
               data0 Hx).
    + rewrite length_replicate. reflexivity.
    + rewrite length_replicate. simpl. lia.
    + right. rewrite length_replicate. reflexivity.
Defined.

(** ** What the store keeps *)

Lemma lookupPgn_inv idx d pgn d2 :
  lookupPgn idx d = Ret (pgn, d2) ->
  (pgnIdx d !! idx = Some pgn /\ d2 = d) \/
  (pgnIdx d !! idx = None /\ length (pgnList d) <> 512%nat /\
   pgn = {| p_prn := 0; p_description := None; p_message := [] |} /\
   readLine d2 = readLine d /\ currentMessage d2 = currentMessage d /\
   pgnIdx d2 = <[idx := pgn]> (pgnIdx d) /\ pgnList d2 = pgnList d ++ [idx]).
Proof.
  unfold lookupPgn. destruct (pgnIdx d !! idx) as [p|] eqn:E.
  - intros [= <- <-]. left. auto.
  - unfold maxPgnList. case_bool_decide; [discriminate|].
    intros [= <- <-]. right. simpl. auto 10.
Qed.

(** The shape of the state [insertRecord] returns. *)
Lemma insertRecord_inv junk now mem src prn k key2 d d' :
  insertRecord junk now mem src prn k key2 d = Ret d' ->
  0 <= PrnToIdx prn /\
  exists pgn d2 pgn',
    lookupPgn (PrnToIdx prn) d = Ret (pgn, d2) /\
    readLine d' = readLine d2 /\ pgnList d' = pgnList d2 /\
    currentMessage d' = currentMessage d2 /\
    pgnIdx d' = <[PrnToIdx prn := pgn']> (pgnIdx d2) /\
    match describe mem prn pgn with
    | None => pgn' = {| p_prn := prn; p_description := None;
                        p_message := p_message pgn |}
    | Some pgn1 =>
        pgn' = {| p_prn := p_prn pgn1; p_description := p_description pgn1;
                  p_message :=
                    alter (setText (cstring mem) (now + validFor prn k))
                      (chooseSlot junk src key2 now (p_message pgn1)).1
                      (chooseSlot junk src key2 now (p_message pgn1)).2 |}
    end.
Proof.
  unfold insertRecord.
  destruct (Z.ltb_spec (PrnToIdx prn) INT_MIN); [discriminate|].
  destruct (Z.ltb_spec (PrnToIdx prn) 0); [discriminate|].
  destruct (lookupPgn (PrnToIdx prn) d) as [[pgn d2]| |] eqn:Hl;
    simpl; try discriminate.
  intros Hr. split; [lia|]. exists pgn, d2.
  destruct (describe mem prn pgn) as [pgn1|].
  - destruct (chooseSlot _ _ _ _ _) as [i ms]. injection Hr as <-.
    eexists. simpl. repeat split; reflexivity.
  - injection Hr as <-. eexists. simpl. repeat split; reflexivity.
Qed.

Lemma describe_inv mem prn pgn pgn1 :
  describe mem prn pgn = Some pgn1 ->
  p_message pgn1 = p_message pgn /\
  (forall desc, p_description pgn = Some desc -> pgn1 = pgn) /\
  (p_description pgn = None -> p_prn pgn1 = prn).
Proof.
  unfold describe. destruct (p_description pgn) as [desc0|].
  - intros [= <-]. split; [reflexivity|]. split; [reflexivity|discriminate].
  - destruct (strstr mem lit_description).
    + destruct (pickEnd _ _); [|discriminate]. intros [= <-]. simpl.
      split; [reflexivity|]. split; [discriminate|reflexivity].
    + intros [= <-]. simpl.
      split; [reflexivity|]. split; [discriminate|reflexivity].
Qed.

Lemma to_uint8_range x : 0 <= to_uint8 x < 256.
Proof. unfold to_uint8. apply Z.mod_pos_bound. lia. Qed.

(** The slot that is written and the slots around it. *)
Lemma chooseSlot_messageOk junk src key2 now ms text t :
  Forall Aux.messageOk ms ->
  (forall key, key2 = Some key -> (dq ∉ key) /\ (NUL ∉ key)) ->
  (NUL ∉ text) ->
  Forall Aux.messageOk
    (alter (setText text t) (chooseSlot junk src key2 now ms).1
       (chooseSlot junk src key2 now ms).2).
Proof.
  intros Hms Hkey Htext.
  assert (Hnew : forall m : Message,
            0 <= m_src m < 256 ->
            (forall key, m_key2 m = Some key -> (dq ∉ key) /\ (NUL ∉ key)) ->
            Aux.messageOk (setText text t m)).
  { intros m Hs Hk. split; [exact Hs|]. split; [|exact Hk].
    exists text. split; [reflexivity|exact Htext]. }
  assert (Hold : forall m, Aux.messageOk m -> Aux.messageOk (setText text t m)).
  { intros m (Hs & _ & Hk). apply Hnew; assumption. }
  unfold chooseSlot.
  pose proof (findExpired_bounds now ms 0) as Hx.
  case_bool_decide as H1; [case_bool_decide as H2|]; simpl.
  - rewrite H2. rewrite alter_app_r_alt by lia.
    rewrite Nat.sub_diag. simpl. apply Forall_app. split; [exact Hms|].
    apply Forall_cons. split; [|constructor].
    apply Hnew; simpl; [apply to_uint8_range|exact Hkey].
  - apply Forall_alter; [|intros m _ Hm; apply Hold; exact Hm].
    apply Forall_alter; [exact Hms|]. intros m _ (_ & Ht & _).
    split; [apply to_uint8_range|]. split; [exact Ht|exact Hkey].
  - apply Forall_alter; [exact Hms|]. intros m _ Hm. apply Hold. exact Hm.
Qed.

Lemma storeOk_data0 : Aux.storeOk data0.
Proof.
  unfold Aux.storeOk, data0. simpl.
  split; [apply NoDup_nil_2|]. split; [lia|]. split.
  - intros idx. rewrite lookup_empty. split.
    + intros H. apply elem_of_nil in H. contradiction.
    + intros [x Hx]. discriminate.
  - split; [|lia]. intros idx pgn H. rewrite lookup_empty in H. discriminate.
Qed.

Lemma storeOk_ext d d' :
  Aux.storeOk d ->
  pgnIdx d' = pgnIdx d -> pgnList d' = pgnList d ->
  (length (readLine d') <= 4096)%nat ->
  Aux.storeOk d'.
Proof.
  intros (H1 & H2 & H3 & H4 & _) Hi Hl Hr.
  unfold Aux.storeOk. rewrite Hi, Hl. auto.
Qed.

Lemma insertRecord_storeOk junk now line src prn k key2 d d' :
  Aux.storeOk d ->
  prn <= MAX_PGN ->
  (forall key, key2 = Some key -> (dq ∉ key) /\ (NUL ∉ key)) ->
  (forall pgn pgn1 desc,
     p_description pgn = None ->
     describe (line ++ [NUL]) prn pgn = Some pgn1 ->
     p_description pgn1 = Some desc ->
     (dq ∉ desc) /\ (":"%char ∉ desc) /\ (NUL ∉ desc)) ->
  insertRecord junk now (line ++ [NUL]) src prn k key2 d = Ret d' ->
  Aux.storeOk d'.
Proof.
  intros (Hnd & Hlen & Hdom & Hall & Hrl) Hmax Hkey Hclean.
  intros Hr. apply insertRecord_inv in Hr
    as (Hidx & pgn & d2 & pgn' & Hl & Hrl' & Hlist & _ & Hmap & Hpgn').
  rewrite (PrnToIdx_low prn Hmax) in *.
  set (idx := prn - MIN_PGN) in *.
  assert (Hrange : 0 <= idx < PGN_SPACE).
  { unfold idx, PGN_SPACE, ACTISENSE_RNG, MAX_PGN, MIN_PGN in *. lia. }
  (* the entry before the call, and the list and index after the look-up *)
  assert (Hbefore : (forall desc, p_description pgn = Some desc ->
                       p_prn pgn = idx + MIN_PGN) /\
                    Forall Aux.messageOk (p_message pgn) /\
                    (forall desc, p_description pgn = Some desc ->
                       (dq ∉ desc) /\ (":"%char ∉ desc) /\ (NUL ∉ desc)) /\
                    NoDup (pgnList d2) /\ (length (pgnList d2) <= 512)%nat /\
                    (forall j, j ∈ pgnList d2 <->
                               is_Some (<[idx := pgn']> (pgnIdx d2) !! j)) /\
                    (forall j p, j <> idx -> pgnIdx d2 !! j = Some p ->
                                 0 <= j < PGN_SPACE /\ Aux.pgnOk j p) /\
                    readLine d2 = readLine d).
  { apply lookupPgn_inv in Hl
      as [[Hsome ->]|(Hnone & Hfull & -> & Hrl2 & _ & Hmap2 & Hlist2)].
    - simpl in Hsome. destruct (Hall idx pgn Hsome) as (_ & Hprn & Hms & Hdesc).
      split; [auto|]. split; [exact Hms|]. split; [exact Hdesc|]. simpl.
      split; [exact Hnd|]. split; [exact Hlen|]. split; [|split; [|reflexivity]].
      + intros j. rewrite Hdom. destruct (decide (j = idx)) as [->|Hne].
        * rewrite lookup_insert_eq, Hsome. split; eauto.
        * rewrite lookup_insert_ne by congruence. reflexivity.
      + intros j p _ Hj. apply Hall. exact Hj.
    - simpl in Hnone, Hfull. simpl.
      split; [discriminate|]. split; [constructor|].
      split; [discriminate|]. rewrite Hlist2, Hmap2.
      assert (Hfresh : idx ∉ pgnList d).
      { rewrite Hdom, Hnone. intros [x Hx]. discriminate. }
      split; [|split; [|split; [|split; [|exact Hrl2]]]].
      + apply NoDup_app. split; [exact Hnd|]. split; [|apply NoDup_singleton].
        intros x Hx Hin. apply list_elem_of_singleton in Hin. congruence.
      + rewrite length_app. simpl. lia.
      + intros j. rewrite elem_of_app, list_elem_of_singleton, Hdom.
        destruct (decide (j = idx)) as [->|Hne].
        * rewrite lookup_insert_eq. split; eauto.
        * rewrite !lookup_insert_ne by congruence. split; [|auto].
          intros [H|H]; [exact H|congruence].
      + intros j p Hne Hj. rewrite lookup_insert_ne in Hj by congruence.
        apply Hall. exact Hj. }
  destruct Hbefore as (Hprn & Hms & Hdesc & Hnd2 & Hlen2 & Hdom2 & Hoth & Hrl2).
  (* the entry after the call *)
  assert (Hafter : Aux.pgnOk idx pgn').
  { destruct (describe (line ++ [NUL]) prn pgn) as [pgn1|] eqn:Hd.
    - subst pgn'. apply describe_inv in Hd as Hinv.
      destruct Hinv as (Hm1 & Hsame & Hset).
      split; [|split]; simpl.
      + destruct (p_description pgn) as [desc|] eqn:E.
        * rewrite (Hsame desc eq_refl). eauto.
        * rewrite Hset by reflexivity. unfold idx. lia.
      + rewrite Hm1. apply chooseSlot_messageOk;
          [exact Hms|exact Hkey|apply cstring_nul_free].
      + intros desc Hdesc1. destruct (p_description pgn) as [desc0|] eqn:E.
        * rewrite (Hsame desc0 eq_refl) in Hdesc1. apply Hdesc.
          rewrite <- E. exact Hdesc1.
        * exact (Hclean _ _ _ E Hd Hdesc1).
    - subst pgn'. split; [|split]; simpl.
      + unfold idx. lia.
      + exact Hms.
      + discriminate. }
  unfold Aux.storeOk. rewrite Hlist, Hmap, Hrl', Hrl2.
  split; [exact Hnd2|]. split; [exact Hlen2|]. split; [exact Hdom2|].
  split; [|exact Hrl].
  intros j p Hj. destruct (decide (j = idx)) as [->|Hne].
  - rewrite lookup_insert_eq in Hj. injection Hj as <-. auto.
  - rewrite lookup_insert_ne in Hj by congruence. apply (Hoth j p Hne Hj).
Qed.

Lemma handleLine_storeOk h0 junk now line d d' :
  Aux.storeOk d ->
  handleLine h0 junk now line d = Ret d' ->
  Aux.storeOk d'.
Proof.
  intros Hok Hr. pose proof (handleLine_Ret_short _ _ _ _ _ _ Hr) as Hshort.
  rewrite handleLine_short in Hr by exact Hshort. revert Hr.
  destruct (parseLine h0 line) as [[[[src prn] k] key2]|] eqn:Hp.
  2:{ intros [= <-]. exact Hok. }
  pose proof (parseLine_Some _ _ _ _ _ _ Hp) as (_ & _ & _ & _ & Hmax & Hk).
  apply insertRecord_storeOk.
  - apply (storeOk_ext d); [exact Hok|reflexivity|reflexivity|].
    destruct Hok as (_ & _ & _ & _ & Hrl). exact Hrl.
  - exact Hmax.
  - intros key ->. exact (proj1 key_and_description_clean
                            _ _ _ _ _ _ Hp).
  - intros pgn pgn1 desc. 
    exact (proj2 key_and_description_clean _ _ _ _ _).
Qed.

Lemma handleMessageByte_storeOk h0 junk now c d d' :
  Aux.storeOk d ->
  handleMessageByte h0 junk now c d = Ret d' ->
  Aux.storeOk d'.
Proof.
  intros Hok. unfold handleMessageByte.
  assert (Hreset : Aux.storeOk (resetLine d)).
  { apply (storeOk_ext d); [exact Hok|reflexivity|reflexivity|simpl; lia]. }
  destruct (negb (Ascii.eqb c LF)) eqn:Hc; simpl.
  - destruct (Nat.ltb_spec (length (readLine d)) 4096).
    + intros [= <-].
      apply (storeOk_ext d); [exact Hok|reflexivity|reflexivity|].
      simpl. rewrite length_app. simpl. lia.
    + apply handleLine_storeOk. exact Hreset.
  - apply handleLine_storeOk. exact Hreset.
Qed.

(** X5: The store invariant is kept.  Whatever bytes are fed to a store
    that satisfies it (the empty store does, [storeOk_data0]), the
    result satisfies it again: the list of PGNs has at most 512 entries,
    names each entry of the index once and no other, every entry sits
    at the index [p_prn - MIN_PGN] inside the index array, every message
    slot has a text, a source below 256 and a key without double quote,
    and the line buffer holds at most 4096 bytes. *)
Theorem store_invariant_is_kept h0 junk now bytes : forall d d',
  Aux.storeOk d ->
  feed h0 junk now bytes d = Ret d' ->
  Aux.storeOk d'.
Proof.
  induction bytes as [|c bytes IH]; intros d d' Hok; simpl.
  - intros [= <-]. exact Hok.
  - destruct (handleMessageByte h0 junk now c d) as [d1| |] eqn:Hb;
      simpl; try discriminate.
    apply IH. exact (handleMessageByte_storeOk _ _ _ _ _ _ Hok Hb).
Qed.

(** A witness: the depth record fed to the empty store. *)
Lemma store_invariant_is_kept_witness :
  Aux.storeOk data0 /\
  feed Ex.h0 0 1000 (Ex.line_depth ++ [LF]) data0 = Ret Ex.store_depth /\
  Aux.storeOk Ex.store_depth.
Proof.
  assert (H : feed Ex.h0 0 1000 (Ex.line_depth ++ [LF]) data0
              = Ret Ex.store_depth) by (vm_compute; reflexivity).
  split; [exact storeOk_data0|]. split; [exact H|].
  exact (store_invariant_is_kept Ex.h0 0 1000 _ _ _ storeOk_data0 H).
Defined.

Lemma pgnGrows_refl pgn : Aux.pgnGrows pgn pgn.
Proof. split; [lia|auto]. Qed.

Lemma pgnGrows_trans p1 p2 p3 :
  Aux.pgnGrows p1 p2 -> Aux.pgnGrows p2 p3 -> Aux.pgnGrows p1 p3.
Proof.
  intros [Hl1 Hd1] [Hl2 Hd2]. split; [lia|].
  intros desc Hdesc. destruct (Hd1 desc Hdesc) as [Hd Hp].
  destruct (Hd2 desc Hd) as [Hd' Hp']. split; [exact Hd'|congruence].
Qed.

Lemma grows_refl d : Aux.grows d d.
Proof.
  split; [reflexivity|]. intros idx pgn H. exists pgn.
  split; [exact H|apply pgnGrows_refl].
Qed.

Lemma grows_same d d' :
  pgnIdx d' = pgnIdx d -> pgnList d' = pgnList d -> Aux.grows d d'.
Proof.
  intros Hi Hl. unfold Aux.grows. rewrite Hi, Hl.
  exact (grows_refl d).
Qed.

Lemma grows_trans d1 d2 d3 :
  Aux.grows d1 d2 -> Aux.grows d2 d3 -> Aux.grows d1 d3.
Proof.
  intros [Hp1 He1] [Hp2 He2]. split; [etrans; eassumption|].
  intros idx pgn H. destruct (He1 idx pgn H) as (p2 & H2 & Hg2).
  destruct (He2 idx p2 H2) as (p3 & H3 & Hg3). exists p3.
  split; [exact H3|]. exact (pgnGrows_trans _ _ _ Hg2 Hg3).
Qed.

Lemma insertRecord_grows junk now mem src prn k key2 d d' :
  insertRecord junk now mem src prn k key2 d = Ret d' ->
  Aux.grows d d'.
Proof.
  intros Hr. apply insertRecord_inv in Hr
    as (Hidx & pgn & d2 & pgn' & Hl & _ & Hlist & _ & Hmap & Hpgn').
  set (idx := PrnToIdx prn) in *.
  assert (Hnew : Aux.pgnGrows pgn pgn').
  { destruct (describe mem prn pgn) as [pgn1|] eqn:Hd; subst pgn'.
    - apply describe_inv in Hd as (Hm1 & Hsame & _). split; simpl.
      + destruct (chooseSlot junk src key2 now (p_message pgn1))
          as [i ms] eqn:Hc.
        apply chooseSlot_bounds in Hc as [_ Hc]. simpl.
        rewrite length_alter. rewrite <- Hm1. exact Hc.
      + intros desc Hdesc. rewrite (Hsame desc Hdesc). auto.
    - split; simpl; [lia|].
      intros desc Hdesc. unfold describe in Hd. rewrite Hdesc in Hd.
      discriminate. }
  apply lookupPgn_inv in Hl
    as [[Hsome ->]|(Hnone & _ & _ & _ & _ & Hmap2 & Hlist2)].
  - split; [rewrite Hlist; reflexivity|]. intros j p Hj. rewrite Hmap.
    destruct (decide (j = idx)) as [->|Hne].
    + rewrite lookup_insert_eq. exists pgn'. split; [reflexivity|].
      rewrite Hsome in Hj. injection Hj as <-. exact Hnew.
    + rewrite lookup_insert_ne by congruence. exists p.
      split; [exact Hj|apply pgnGrows_refl].
  - split; [rewrite Hlist, Hlist2; apply prefix_app_r; reflexivity|].
    intros j p Hj. rewrite Hmap, Hmap2.
    destruct (decide (j = idx)) as [->|Hne]; [congruence|].
    rewrite !lookup_insert_ne by congruence. exists p.
    split; [exact Hj|apply pgnGrows_refl].
Qed.

Lemma handleMessageByte_grows h0 junk now c d d' :
  handleMessageByte h0 junk now c d = Ret d' ->
  Aux.grows d d'.
Proof.
  unfold handleMessageByte. destruct (_ && _).
  - intros [= <-]. apply grows_same; reflexivity.
  - intros Hr. pose proof (handleLine_Ret_short _ _ _ _ _ _ Hr) as Hshort.
    rewrite handleLine_short in Hr by exact Hshort. revert Hr.
    destruct (parseLine h0 (readLine d)) as [[[[src prn] k] key2]|].
    + intros Hr. apply insertRecord_grows in Hr.
      apply (grows_trans _ _ _ (grows_same d _ eq_refl eq_refl) Hr).
    + intros [= <-]. apply grows_same; reflexivity.
Qed.

(** X6: Nothing is ever taken out of the store.  Whatever bytes are fed:
    the list of PGNs only gets longer at its end; an entry of the index
    stays an entry, never loses a message slot, and keeps its
    description and its PGN once the description is set. *)
Theorem store_only_grows h0 junk now bytes : forall d d',
  feed h0 junk now bytes d = Ret d' ->
  pgnList d `prefix_of` pgnList d' /\
  (forall idx pgn, pgnIdx d !! idx = Some pgn ->
     exists pgn', pgnIdx d' !! idx = Some pgn' /\
       (length (p_message pgn) <= length (p_message pgn'))%nat /\
       (forall desc, p_description pgn = Some desc ->
          p_description pgn' = Some desc /\ p_prn pgn' = p_prn pgn)).
Proof.
  assert (H : forall d d', feed h0 junk now bytes d = Ret d' ->
                           Aux.grows d d').
  { induction bytes as [|c bytes IH]; intros d d'; simpl.
    - intros [= <-]. apply grows_refl.
    - destruct (handleMessageByte h0 junk now c d) as [d1| |] eqn:Hb;
        simpl; try discriminate.
      intros Hf. apply (grows_trans d d1 d').
      + exact (handleMessageByte_grows _ _ _ _ _ _ Hb).
      + exact (IH _ _ Hf). }
  intros d d' Hf. exact (H d d' Hf).
Qed.

(** A witness: a second record of the same PGN, from another source,
    fed to the store that holds the depth record. *)
Lemma store_only_grows_witness :
  exists d',
    feed Ex.h0 0 1000 (Ex.line_src_300 ++ [LF]) Ex.store_depth = Ret d' /\
    pgnList Ex.store_depth `prefix_of` pgnList d'.
Proof.
  destruct (feed Ex.h0 0 1000 (Ex.line_src_300 ++ [LF]) Ex.store_depth)
    as [d'| |] eqn:Hf; try (vm_compute in Hf; discriminate).
  exists d'. split; [reflexivity|].
  exact (proj1 (store_only_grows Ex.h0 0 1000 _ _ _ Hf)).
Defined.

(** ** The stream table *)

Lemma findFree_spec x count : forall ss i,
  i <= findFree x ss i count <= i + Z.of_nat (min count (length ss)) /\
  (forall j s, (j < Z.to_nat (findFree x ss i count - i))%nat ->
               ss !! j = Some s -> fd s <> -1 /\ fd s <> x) /\
  (findFree x ss i count < i + Z.of_nat (min count (length ss)) ->
   exists s, ss !! Z.to_nat (findFree x ss i count - i) = Some s /\
             (fd s = -1 \/ fd s = x)).
Proof.
  assert (Hstop : forall (ss : list StreamInfo) i (m : nat),
            i <= i <= i + Z.of_nat m /\
            (forall j s, (j < Z.to_nat (i - i))%nat ->
                         ss !! j = Some s -> fd s <> -1 /\ fd s <> x)).
  { intros ss i m. split; [lia|]. intros j s Hj. lia. }
  induction count as [|c IH]; intros ss i.
  - destruct (Hstop ss i (min 0 (length ss))) as [H1 H2].
    destruct ss; cbn [findFree]; (split; [exact H1|]);
      (split; [exact H2|]); simpl; lia.
  - destruct ss as [|s ss]; cbn [findFree].
    + destruct (Hstop (@nil StreamInfo) i (min (S c) 0)) as [H1 H2].
      split; [exact H1|]. split; [exact H2|]. simpl. lia.
    + destruct ((fd s =? -1) || (fd s =? x)) eqn:E.
      * destruct (Hstop (s :: ss) i (min (S c) (length (s :: ss))))
          as [H1 H2].
        split; [exact H1|]. split; [exact H2|].
        intros _. exists s. rewrite Z.sub_diag. split; [reflexivity|].
        apply orb_true_iff in E as [E|E]; apply Z.eqb_eq in E; auto.
      * apply orb_false_iff in E as [E1 E2].
        apply Z.eqb_neq in E1. apply Z.eqb_neq in E2.
        destruct (IH ss (i + 1)) as (Hb & Hlt & Hat).
        set (k := findFree x ss (i + 1) c) in *.
        assert (Hmin : Z.of_nat (min (S c) (length (s :: ss)))
                       = 1 + Z.of_nat (min c (length ss))).
        { simpl length. rewrite <- Nat.succ_min_distr. lia. }
        rewrite Hmin.
        split; [lia|]. split.
        -- intros j s' Hj Hs'. destruct j as [|j]; simpl in Hs'.
           ++ injection Hs' as <-. auto.
           ++ apply (Hlt j s'); [lia|exact Hs'].
        -- intros Hk. destruct Hat as (s' & Hs' & Hfd); [lia|].
           exists s'. split; [|exact Hfd].
           replace (Z.to_nat (k - i)) with (S (Z.to_nat (k - (i + 1)))) by lia.
           exact Hs'.
Qed.

Lemma slot_lookup n i s :
  slot n i = Some s <-> 0 <= i /\ stream n !! Z.to_nat i = Some s.
Proof.
  unfold slot. destruct (Z.ltb_spec i 0).
  - split; [discriminate|]. intros [? _]. lia.
  - split; [auto|]. intros [_ H']. exact H'.
Qed.

Lemma slot_insert_eq n i s s' ss :
  slot n i = Some s -> stream ss = <[Z.to_nat i := s']> (stream n) ->
  slot ss i = Some s'.
Proof.
  intros H Hs. apply slot_lookup in H as [Hi H]. apply slot_lookup.
  split; [exact Hi|]. rewrite Hs. apply list_lookup_insert_eq.
  apply lookup_lt_Some in H. exact H.
Qed.

Lemma slot_insert_ne n i j s' ss :
  0 <= i -> j <> i -> stream ss = <[Z.to_nat i := s']> (stream n) ->
  slot ss j = slot n j.
Proof.
  intros Hi Hne Hs. unfold slot. destruct (Z.ltb_spec j 0); [reflexivity|].
  rewrite Hs. apply list_lookup_insert_ne. lia.
Qed.

Lemma setFdUsed_takes_first_free_slot_spec t x ct n i n' evs :
  -1 <= socketIdxMax n ->
  setFdUsed t x ct n = Ret (i, n', evs) ->
  0 <= i ->
  evs = [] /\ i <= socketIdxMax n + 1 /\
  (forall j s, 0 <= j < i -> slot n j = Some s -> fd s <> -1 /\ fd s <> x) /\
  (exists s, slot n i = Some s /\
     (i <= socketIdxMax n -> fd s = -1 \/ fd s = x) /\
     slot n' i = Some {| fd := x; type := ct; timeout := t + UPDATE_INTERVAL;
                         readHandler := readHandlers ct;
                         buffer := buffer s; len := len s |}) /\
  (forall j, j <> i -> slot n' j = slot n j) /\
  socketIdxMax n' = Z.max (socketIdxMax n) i /\
  socketFdMax n' = Z.max (socketFdMax n) x.
Proof.
  intros Hmax. unfold setFdUsed.
  pose proof (findFree_spec x (Z.to_nat (socketIdxMax n + 1)) (stream n) 0)
    as (Hb & Hlt & Hat).
  set (k := findFree x (stream n) 0 (Z.to_nat (socketIdxMax n + 1))) in *.
  destruct (Z.eqb_spec k (FD_SETSIZE n)).
  { intros [= <- <- <-]. lia. }
  destruct (slot n k) as [s|] eqn:Hs; [|discriminate].
  intros [= <- <- <-] _.
  split; [reflexivity|]. split; [lia|]. split; [|split; [|split]].
  - intros j s' Hj Hs'. apply slot_lookup in Hs' as [_ Hs'].
    apply (Hlt (Z.to_nat j) s'); [lia|exact Hs'].
  - exists s. split; [exact Hs|]. split.
    + intros Hk. destruct Hat as (s' & Hs' & Hfd).
      * apply slot_lookup in Hs as [_ Hs]. apply lookup_lt_Some in Hs. lia.
      * apply slot_lookup in Hs as [_ Hs]. rewrite Z.sub_0_r in Hs'.
        congruence.
    + eapply slot_insert_eq; [exact Hs|reflexivity].
  - intros j Hj. eapply (slot_insert_ne n k); [lia|exact Hj|reflexivity].
  - simpl. auto.
Qed.

(** X7: [setFdUsed] takes the first slot, among those up to
    [socketIdxMax], that is free or bound to the same descriptor, and the
    slot after [socketIdxMax] when there is none.  It sets the
    descriptor, the type, the handler and the deadline of that slot, and
    leaves its buffer and its length as the previous user left them; no
    other slot changes. *)
Theorem setFdUsed_takes_first_free_slot t x ct n i n' evs :
  -1 <= socketIdxMax n ->
  setFdUsed t x ct n = Ret (i, n', evs) ->
  0 <= i ->
  evs = [] /\ i <= socketIdxMax n + 1 /\
  (forall j s, 0 <= j < i -> slot n j = Some s -> fd s <> -1 /\ fd s <> x) /\
  (exists s, slot n i = Some s /\
     (i <= socketIdxMax n -> fd s = -1 \/ fd s = x) /\
     slot n' i = Some {| fd := x; type := ct; timeout := t + UPDATE_INTERVAL;
                         readHandler := readHandlers ct;
                         buffer := buffer s; len := len s |}) /\
  (forall j, j <> i -> slot n' j = slot n j) /\
  socketIdxMax n' = Z.max (socketIdxMax n) i /\
  socketFdMax n' = Z.max (socketFdMax n) x.
Proof. apply setFdUsed_takes_first_free_slot_spec. Qed.

Lemma setFdUsed_takes_first_free_slot_witness :
  exists n' s,
    setFdUsed 1000 7 CLIENT_JSON Ex.net_free_slot = Ret (1, n', []) /\
    slot n' 1 = Some s /\ fd s = 7 /\ timeout s = 1500 /\ len s = 3.
Proof.
  destruct (setFdUsed 1000 7 CLIENT_JSON Ex.net_free_slot)
    as [[[i n'] evs]| |] eqn:Hr; try (vm_compute in Hr; discriminate).
  assert (Hi : i = 1) by (vm_compute in Hr; congruence). subst i.
  destruct (setFdUsed_takes_first_free_slot 1000 7 CLIENT_JSON
              Ex.net_free_slot 1 n' evs ltac:(simpl; lia) Hr ltac:(lia))
    as (-> & _ & _ & (s & Hs & _ & Hs') & _).
  vm_compute in Hs. injection Hs as <-.
  exists n'. eexists. split; [reflexivity|]. split; [exact Hs'|].
  repeat split; reflexivity.
Defined.

Lemma fdMaxUpTo_ge ss i j s :
  ss !! j = Some s -> Z.of_nat j <= i -> fd s <= fdMaxUpTo ss i.
Proof.
  unfold fdMaxUpTo. intros Hs Hj.
  assert (Ht : take (Z.to_nat (i + 1)) ss !! j = Some s).
  { rewrite lookup_take_lt by lia. exact Hs. }
  revert Ht. generalize (take (Z.to_nat (i + 1)) ss). clear.
  intros l. revert j. induction l as [|a l IH]; intros j; [discriminate|].
  destruct j as [|j]; simpl.
  - intros [= ->]. lia.
  - intros H. specialize (IH j H). lia.
Qed.

Lemma fdMaxUpTo_low ss i : -1 <= fdMaxUpTo ss i.
Proof.
  unfold fdMaxUpTo. induction (take (Z.to_nat (i + 1)) ss); simpl; lia.
Qed.

Lemma slot_lt n i s : slot n i = Some s -> 0 <= i < FD_SETSIZE n.
Proof.
  intros H. apply slot_lookup in H as [Hi H]. apply lookup_lt_Some in H.
  unfold FD_SETSIZE. lia.
Qed.

Lemma setFdUsed_refused t x ct n i n' evs :
  setFdUsed t x ct n = Ret (i, n', evs) -> i < 0 ->
  n' = n /\ evs = [EvClose x].
Proof.
  unfold setFdUsed. intros Hr Hneg.
  destruct (_ =? FD_SETSIZE n); [injection Hr as <- <- <-; auto|].
  destruct (slot n _) eqn:Hs; [|discriminate].
  injection Hr as <- <- <-. apply slot_lt in Hs. lia.
Qed.

Lemma slot_is_Some n i : 0 <= i < FD_SETSIZE n -> is_Some (slot n i).
Proof.
  intros Hi. unfold slot. destruct (Z.ltb_spec i 0); [lia|].
  apply lookup_lt_is_Some_2. unfold FD_SETSIZE in Hi. lia.
Qed.

Lemma setSlot_netOk i s s' n :
  Aux.netOk n -> slot n i = Some s -> fd s' = fd s ->
  Aux.netOk (setSlot i s' n).
Proof.
  intros (Hmin & Hmax & Hfd & Hall) Hs Hsame.
  pose proof (slot_lt _ _ _ Hs) as Hi.
  unfold Aux.netOk, FD_SETSIZE in *. simpl. rewrite length_insert.
  split; [exact Hmin|]. split; [exact Hmax|]. split; [exact Hfd|].
  intros j sj Hj Hsj. destruct (decide (j = i)) as [->|Hne].
  - rewrite slot_setSlot_eq in Hsj by eauto. injection Hsj as <-.
    rewrite Hsame. apply (Hall i s Hj Hs).
  - rewrite slot_setSlot_ne in Hsj by lia. apply (Hall j sj Hj Hsj).
Qed.

Lemma setFdUsed_netOk t x ct n i n' evs :
  Aux.netOk n ->
  setFdUsed t x ct n = Ret (i, n', evs) ->
  Aux.netOk n'.
Proof.
  intros Hok Hr. destruct (Z.ltb_spec i 0) as [Hneg|Hpos].
  - unfold setFdUsed in Hr.
    destruct (_ =? FD_SETSIZE n); [injection Hr as <- <- <-; exact Hok|].
    destruct (slot n _) eqn:Hs; [|discriminate].
    injection Hr as <- <- <-. apply slot_lt in Hs. lia.
  - destruct Hok as (Hmin & Hmax & Hfd & Hall). unfold setFdUsed in Hr.
    pose proof (findFree_spec x (Z.to_nat (socketIdxMax n + 1)) (stream n) 0)
      as (Hb & _ & _).
    set (k := findFree x (stream n) 0 (Z.to_nat (socketIdxMax n + 1))) in *.
    destruct (Z.eqb_spec k (FD_SETSIZE n)); [injection Hr as <- <- <-; lia|].
    destruct (slot n k) as [s|] eqn:Hs; [|discriminate].
    injection Hr as <- <- <-. pose proof (slot_lt _ _ _ Hs) as Hk.
    unfold Aux.netOk, FD_SETSIZE in *. simpl. rewrite length_insert.
    split; [exact Hmin|]. split; [lia|]. split; [lia|].
    intros j sj Hj Hsj. destruct (decide (j = k)) as [->|Hne].
    + erewrite slot_insert_eq in Hsj; [|exact Hs|reflexivity].
      injection Hsj as <-. simpl. lia.
    + erewrite (slot_insert_ne n k) in Hsj; [|lia|exact Hne|reflexivity].
      assert (fd sj <= socketFdMax n) by (apply (Hall j sj); [lia|exact Hsj]).
      lia.
Qed.

Lemma closeStream_netOk i n n' evs :
  Aux.netOk n ->
  closeStream i n = Ret (n', evs) ->
  Aux.netOk n'.
Proof.
  intros (Hmin & Hmax & Hfd & Hall). unfold closeStream.
  destruct (slot n i) as [s|] eqn:Hs; [|discriminate].
  intros [= <- <-]. pose proof (slot_lt _ _ _ Hs) as Hi.
  unfold Aux.netOk, FD_SETSIZE in *. simpl. rewrite length_insert.
  split; [exact Hmin|]. destruct (Z.eqb_spec i (socketIdxMax n)) as [He|Hne].
  - split; [lia|]. split; [apply fdMaxUpTo_low|].
    intros j sj Hj Hsj. apply slot_lookup in Hsj as [Hj0 Hsj]. simpl in Hsj.
    apply (fdMaxUpTo_ge _ _ (Z.to_nat j)); [exact Hsj|lia].
  - split; [lia|]. split; [lia|].
    intros j sj Hj Hsj. destruct (decide (j = i)) as [->|Hji].
    + erewrite slot_insert_eq in Hsj; [|exact Hs|reflexivity].
      injection Hsj as <-. simpl. lia.
    + erewrite (slot_insert_ne n i) in Hsj; [|lia|exact Hji|reflexivity].
      apply (Hall j sj Hj Hsj).
Qed.

(** X8: Once a slot up to [socketIdxMax] has been closed the next
    registration succeeds, and at an index not above that slot. *)
Theorem closed_slot_is_taken_again i n n1 evs1 t x ct :
  i <= socketIdxMax n ->
  closeStream i n = Ret (n1, evs1) ->
  exists j n2, setFdUsed t x ct n1 = Ret (j, n2, []) /\ 0 <= j <= i.
Proof.
  intros Hi Hc. unfold closeStream in Hc.
  destruct (slot n i) as [s|] eqn:Hs; [|discriminate].
  injection Hc as <- <-. pose proof (slot_lt _ _ _ Hs) as Hlt.
  unfold setFdUsed. simpl socketIdxMax. simpl stream.
  set (ss := <[Z.to_nat i := _]> (stream n)).
  set (c := Z.to_nat ((if i =? socketIdxMax n then socketIdxMax n - 1
                       else socketIdxMax n) + 1)).
  pose proof (findFree_spec x c ss 0) as (Hb & Hbefore & _).
  set (k := findFree x ss 0 c) in *.
  assert (Hlen : length ss = length (stream n))
    by (unfold ss; apply length_insert).
  assert (Hk : k <= i).
  { destruct (Z.leb_spec k i) as [|Hgt]; [assumption|exfalso].
    assert (Hsi : ss !! Z.to_nat i = Some {| fd := -1; type := type s;
                timeout := timeout s; readHandler := readHandler s;
                buffer := buffer s; len := len s |}).
    { unfold ss. apply list_lookup_insert_eq. unfold FD_SETSIZE in Hlt. lia. }
    assert (Hpos : (Z.to_nat i < Z.to_nat (k - 0))%nat) by lia.
    destruct (Hbefore _ _ Hpos Hsi) as [Hfd _]. simpl in Hfd. lia. }
  unfold FD_SETSIZE. simpl stream. fold ss. rewrite Hlen.
  destruct (Z.eqb_spec k (Z.of_nat (length (stream n))));
    [unfold FD_SETSIZE in Hlt; lia|].
  destruct (slot_is_Some {| stream := ss; socketIdxMin := socketIdxMin n;
              socketIdxMax := 0; socketFdMax := 0; activeSet := ∅;
              readSet := ∅; writeSet := ∅ |} k) as [sk Hsk].
  { unfold FD_SETSIZE in *. simpl. lia. }
  unfold slot in *. simpl stream in *. rewrite Hsk.
  eexists _, _. split; [reflexivity|lia].
Qed.

Lemma closed_slot_is_taken_again_witness :
  exists n1 evs1 j n2,
    closeStream 3 (Ex.net_with CLIENT_JSON) = Ret (n1, evs1) /\
    setFdUsed 1000 9 CLIENT_JSON n1 = Ret (j, n2, []) /\ 0 <= j <= 3.
Proof.
  destruct (closeStream 3 (Ex.net_with CLIENT_JSON))
    as [[n1 evs1]| |] eqn:Hc; try (vm_compute in Hc; discriminate).
  destruct (closed_slot_is_taken_again 3 (Ex.net_with CLIENT_JSON) n1 evs1
              1000 9 CLIENT_JSON ltac:(simpl; lia) Hc) as (j & n2 & Hr & Hj).
  exists n1, evs1, j, n2. split; [reflexivity|]. split; [exact Hr|exact Hj].
Defined.

(** ** The write phase *)

Lemma closeStream_frame i n n' evs :
  closeStream i n = Ret (n', evs) ->
  exists s, slot n i = Some s /\ evs = [EvClose (fd s)] /\
    (forall j, j <> i -> slot n' j = slot n j) /\
    socketIdxMin n' = socketIdxMin n.
Proof.
  unfold closeStream. destruct (slot n i) as [s|] eqn:Hs; [|discriminate].
  intros [= <- <-]. exists s. split; [reflexivity|]. split; [reflexivity|].
  pose proof (slot_lt _ _ _ Hs) as Hi. split; [|reflexivity].
  intros j Hj. eapply (slot_insert_ne n i); [lia|exact Hj|reflexivity].
Qed.

Lemma writeStep_writeInv ws t secs d n j w w1 :
  Aux.writeInv ws t secs d n j w ->
  writeStep ws t secs d j w = Ret w1 ->
  Aux.writeInv ws t secs d n (j + 1) w1.
Proof.
  intros (Hnow & Hst & Hslots & Hout). unfold writeStep.
  destruct (slot (w_net w) j) as [s|] eqn:Hs; [|discriminate].
  assert (Hs0 : slot n j = Some s) by (rewrite <- Hslots by lia; exact Hs).
  pose proof (slot_lt _ _ _ Hs) as Hj.
  assert (Hkeep : Aux.writeInv ws t secs d n (j + 1) w).
  { split; [exact Hnow|]. split; [exact Hst|]. split; [|exact Hout].
    intros k Hk. apply Hslots. lia. }
  destruct (Z.ltb_spec (fd s) 0) as [|Hfd]; [intros [= <-]; exact Hkeep|].
  destruct (fd s >? socketFdMax (w_net w)); [discriminate|].
  destruct (FD_ISSET (fd s) (writeSet (w_net w))); simpl negb; cbv iota;
    [|intros [= <-]; exact Hkeep].
  assert (Hclose : forall n' evs out,
            closeStream j (w_net w) = Ret (n', evs) ->
            Forall (Aux.writeOk ws t secs d n) out ->
            (forall k, j + 1 <= k -> slot n' k = slot n k) /\
            Forall (Aux.writeOk ws t secs d n) (out ++ evs)).
  { intros n' evs out Hc Ho.
    apply closeStream_frame in Hc as (s' & Hs' & -> & Hfr & _).
    rewrite Hs in Hs'. injection Hs' as <-. split.
    - intros k Hk. rewrite Hfr by lia. apply Hslots. lia.
    - apply Forall_app. split; [exact Ho|]. apply Forall_cons.
      split; [|constructor]. exists j, s. auto. }
  unfold FD_ISSET. case_bool_decide as Hws; simpl negb; cbv iota.
  2:{ destruct (closeStream j (w_net w)) as [[n' evs]| |] eqn:Hc;
        simpl; try discriminate.
      intros [= <-]. destruct (Hclose _ _ _ eq_refl Hout) as [H1 H2].
      split; [exact Hnow|]. split; [exact Hst|]. split; [exact H1|exact H2]. }
  assert (Hnow' : (if w_now w =? 0 then t else w_now w) = t).
  { destruct (Z.eqb_spec (w_now w) 0); [reflexivity|].
    destruct Hnow; [contradiction|assumption]. }
  rewrite Hnow'.
  assert (Hquiet : Aux.writeInv ws t secs d n (j + 1)
            {| w_r := w_r w - 1; w_now := t; w_state := w_state w;
               w_net := w_net w; w_out := w_out w |}).
  { split; [right; reflexivity|]. split; [exact Hst|]. split; [|exact Hout].
    intros k Hk. apply Hslots. lia. }
  assert (Hsend : Aux.writeInv ws t secs d n (j + 1)
            {| w_r := w_r w - 1; w_now := t; w_state := w_state w;
               w_net := w_net w;
               w_out := if bool_decide (currentLen d = 0%nat) then w_out w
                        else w_out w ++ [EvSend j (fd s) (currentMessage d)] |} \/
          (type s <> CLIENT_JSON_STREAM /\ type s <> DATA_OUTPUT_STREAM /\
           type s <> DATA_OUTPUT_COPY)).
  { destruct (decide (type s = CLIENT_JSON_STREAM \/
                      type s = DATA_OUTPUT_STREAM \/
                      type s = DATA_OUTPUT_COPY)) as [Hty|Hty].
    - left. split; [right; reflexivity|]. split; [exact Hst|].
      split; [intros k Hk; apply Hslots; lia|]. simpl.
      case_bool_decide as Hlen; [exact Hout|].
      apply Forall_app. split; [exact Hout|]. apply Forall_cons.
      split; [|constructor]. exists s. split; [exact Hs0|].
      split; [reflexivity|]. split; [exact Hws|]. right.
      split; [exact Hty|]. split; [|reflexivity].
      intros He. apply Hlen. unfold currentLen. rewrite He. reflexivity.
    - right. tauto. }
  destruct (type s) eqn:Hty;
    try (intros [= <-]; exact Hquiet);
    try (intros [= <-]; destruct Hsend as [H|(H1 & H2 & H3)];
         [exact H|congruence]).
  (* a snapshot client *)
  destruct (negb (timeout s =? 0) && (timeout s <? t)) eqn:Hdue;
    [|intros [= <-]; exact Hquiet].
  apply andb_true_iff in Hdue as [Hnz Hlt].
  apply negb_true_iff, Z.eqb_neq in Hnz. apply Z.ltb_lt in Hlt.
  assert (Hstate : forall st,
            match w_state w with
            | Some st' => Ret st'
            | None => getFullStateJSON secs d
            end = Ret st -> getFullStateJSON secs d = Ret st).
  { intros st. destruct (w_state w) as [st'|] eqn:E; [|auto].
    intros [= <-]. apply Hst. reflexivity. }
  destruct (match w_state w with Some st' => Ret st' | None => _ end)
    as [st| |] eqn:Hget; simpl; try discriminate.
  specialize (Hstate st eq_refl).
  assert (Hev : Forall (Aux.writeOk ws t secs d n)
                  (w_out w ++ [EvSend j (fd s) (cstring st)])).
  { apply Forall_app. split; [exact Hout|]. apply Forall_cons.
    split; [|constructor]. exists s. split; [exact Hs0|].
    split; [reflexivity|]. split; [exact Hws|]. left.
    split; [exact Hty|]. split; [exact Hnz|]. split; [exact Hlt|].
    exists st. auto. }
  destruct (closeStream j (w_net w)) as [[n' evs]| |] eqn:Hc;
    simpl; try discriminate.
  intros [= <-]. destruct (Hclose _ _ _ eq_refl Hev) as [H1 H2].
  split; [right; reflexivity|]. split; [|split; [exact H1|exact H2]].
  simpl. intros st' [= <-]. exact Hstate.
Qed.

Lemma writeLoop_writeInv ws t secs d n fuel : forall j w w',
  Aux.writeInv ws t secs d n j w ->
  writeLoop fuel ws t secs d j w = Ret w' ->
  exists j', Aux.writeInv ws t secs d n j' w'.
Proof.
  induction fuel as [|fuel IH]; intros j w w' Hinv; simpl.
  - intros [= <-]. eauto.
  - destruct (_ && _); [|intros [= <-]; eauto].
    destruct (writeStep ws t secs d j w) as [w1| |] eqn:Hstep;
      simpl; try discriminate.
    apply IH. exact (writeStep_writeInv _ _ _ _ _ _ _ _ Hinv Hstep).
Qed.

Lemma write_phase_sends_events r ready t secs n d n' d' evs :
  writeAllClients r ready t secs n d = Ret (n', d', evs) ->
  d' = clearCurrent d /\
  Forall (Aux.writeOk (writeSet n ∩ ready) t secs d n) evs.
Proof.
  unfold writeAllClients. destruct (socketIdxMax n >=? 0).
  2:{ intros [= <- <- <-]. split; [reflexivity|constructor]. }
  destruct (writeLoop _ _ _ _ _ _ _) as [w| |] eqn:Hloop;
    simpl; try discriminate.
  intros [= <- <- <-]. split; [reflexivity|].
  apply writeLoop_writeInv with (n := n) in Hloop as (j' & _ & _ & _ & H).
  - exact H.
  - split; [left; reflexivity|]. split; [discriminate|].
    split; [reflexivity|constructor].
Qed.

(** X9: What a write phase does to the outside.  It writes nothing to
    standard output with [write]; it closes descriptors of the table
    only; and each [send] goes to a stream of the table whose descriptor
    [select] reported writable, carrying the snapshot of the store to a
    snapshot client whose deadline is set and has passed, or the lines
    accumulated since the last phase to a client of one of the three
    stream types.  The accumulated lines are dropped at the end whether
    or not anybody was sent them. *)
Theorem write_phase_sends r ready t secs n d n' d' evs :
  writeAllClients r ready t secs n d = Ret (n', d', evs) ->
  d' = clearCurrent d /\
  Forall (Aux.writeOk (writeSet n ∩ ready) t secs d n) evs.
Proof. apply write_phase_sends_events. Qed.

Lemma write_phase_sends_witness :
  exists n' evs,
    writeAllClients 2 {[ 1; 5 ]} 1000 1000 (Ex.net_with CLIENT_JSON)
      Ex.store_depth = Ret (n', clearCurrent Ex.store_depth, evs) /\
    Forall (Aux.writeOk (writeSet (Ex.net_with CLIENT_JSON) ∩ {[ 1; 5 ]})
              1000 1000 Ex.store_depth (Ex.net_with CLIENT_JSON)) evs.
Proof.
  destruct (writeAllClients 2 {[ 1; 5 ]} 1000 1000 (Ex.net_with CLIENT_JSON)
              Ex.store_depth) as [[[n' d'] evs]| |] eqn:Hw;
    try (vm_compute in Hw; discriminate).
  destruct (write_phase_sends _ _ _ _ _ _ _ _ _ Hw) as [-> Hev].
  exists n', evs. split; [reflexivity|exact Hev].
Defined.

Lemma writeStep_netOk ws t secs d j w :
  Aux.netOk (w_net w) ->
  0 <= j <= socketIdxMax (w_net w) ->
  (exists st, getFullStateJSON secs d = Ret st) ->
  (forall st, w_state w = Some st -> getFullStateJSON secs d = Ret st) ->
  exists w1, writeStep ws t secs d j w = Ret w1 /\
    Aux.netOk (w_net w1) /\
    (forall st, w_state w1 = Some st -> getFullStateJSON secs d = Ret st).
Proof.
  intros Hok Hj [st0 Hst0] Hst. unfold writeStep.
  pose proof Hok as (Hmin & Hmax & Hfdm & Hall).
  destruct (slot_is_Some (w_net w) j) as [s Hs]; [lia|]. rewrite Hs.
  destruct (Z.ltb_spec (fd s) 0); [eauto|].
  pose proof (Hall j s ltac:(lia) Hs) as Hle.
  destruct (Z.gtb_spec (fd s) (socketFdMax (w_net w))); [lia|].
  destruct (negb (FD_ISSET (fd s) (writeSet (w_net w)))); [eauto|].
  assert (Hclose : exists n' evs, closeStream j (w_net w) = Ret (n', evs) /\
                                  Aux.netOk n').
  { destruct (closeStream j (w_net w)) as [[n' evs]| |] eqn:Hc.
    - exists n', evs. split; [reflexivity|].
      exact (closeStream_netOk _ _ _ _ Hok Hc).
    - unfold closeStream in Hc. rewrite Hs in Hc. discriminate.
    - unfold closeStream in Hc. rewrite Hs in Hc. discriminate. }
  destruct (negb (FD_ISSET (fd s) ws)).
  { destruct Hclose as (n' & evs & -> & Hok'). simpl. eauto. }
  destruct (type s) eqn:Hty; try (eexists; split; [reflexivity|]; auto).
  destruct (negb (timeout s =? 0) && _);
    [|eexists; split; [reflexivity|]; auto].
  assert (Hget : exists st, match w_state w with
                            | Some st' => Ret st'
                            | None => getFullStateJSON secs d
                            end = Ret st /\ getFullStateJSON secs d = Ret st).
  { destruct (w_state w) as [st'|]; eauto. }
  destruct Hget as (st & -> & Hst'). simpl.
  destruct Hclose as (n' & evs & -> & Hok'). simpl.
  eexists. split; [reflexivity|]. split; [exact Hok'|].
  simpl. intros st' [= <-]. exact Hst'.
Qed.

Lemma writeLoop_netOk ws t secs d fuel : forall j w,
  Aux.netOk (w_net w) -> 0 <= j ->
  (exists st, getFullStateJSON secs d = Ret st) ->
  (forall st, w_state w = Some st -> getFullStateJSON secs d = Ret st) ->
  exists w', writeLoop fuel ws t secs d j w = Ret w' /\ Aux.netOk (w_net w').
Proof.
  induction fuel as [|fuel IH]; intros j w Hok Hj Hget Hst; simpl.
  - eauto.
  - destruct (w_r w >? 0); simpl; [|eauto].
    destruct (Z.leb_spec j (socketIdxMax (w_net w))); [|eauto].
    destruct (writeStep_netOk ws t secs d j w Hok ltac:(lia) Hget Hst)
      as (w1 & -> & Hok1 & Hst1). simpl.
    apply IH; [exact Hok1|lia|exact Hget|exact Hst1].
Qed.

(** X10: A write phase on a table that satisfies the invariant always returns
    when the store can be serialized: the check of lines 505 to 508
    never ends the process, no index leaves the table, and the table
    satisfies the invariant again. *)
Theorem write_phase_returns r ready t secs n d :
  Aux.netOk n ->
  (exists st, getFullStateJSON secs d = Ret st) ->
  exists n' evs,
    writeAllClients r ready t secs n d = Ret (n', clearCurrent d, evs) /\
    Aux.netOk n'.
Proof.
  intros Hok Hget. unfold writeAllClients.
  destruct (socketIdxMax n >=? 0); [|eauto].
  destruct (writeLoop_netOk (writeSet n ∩ ready) t secs d
              (Z.to_nat (socketIdxMax n + 1 - socketIdxMin n))
              (socketIdxMin n)
              {| w_r := r; w_now := 0; w_state := None; w_net := n;
                 w_out := [] |}) as (w' & Hw & Hok').
  - exact Hok.
  - destruct Hok as (Hmin & _). exact Hmin.
  - exact Hget.
  - discriminate.
  - rewrite Hw. simpl. eauto.
Qed.

(** ** The read phase *)

Lemma changes_refl i n : Aux.changes i n n.
Proof. split; [reflexivity|]. intros s Hs. eauto. Qed.

Lemma changes_trans i n1 n2 n3 :
  Aux.changes i n1 n2 -> Aux.changes i n2 n3 -> Aux.changes i n1 n3.
Proof.
  intros [Hf1 Hs1] [Hf2 Hs2]. split.
  - intros j Hj. rewrite Hf2, Hf1 by exact Hj. reflexivity.
  - intros s Hs. destruct (Hs1 s Hs) as (s2 & H2 & Ht2).
    destruct (Hs2 s2 H2) as (s3 & H3 & Ht3). exists s3.
    split; [exact H3|]. destruct Ht3 as [Ht3|Ht3]; [|auto].
    rewrite Ht3. exact Ht2.
Qed.

Lemma changes_setSlot i s s' n :
  slot n i = Some s ->
  type s' = type s \/ Aux.clientType (type s') ->
  Aux.changes i n (setSlot i s' n).
Proof.
  intros Hs Hty. pose proof (slot_lt _ _ _ Hs) as Hi. split.
  - intros j Hj. apply slot_setSlot_ne; [lia|congruence].
  - intros s0 Hs0. exists s'. rewrite slot_setSlot_eq by eauto.
    split; [reflexivity|]. congruence.
Qed.

Lemma changes_closeStream i n n' evs :
  closeStream i n = Ret (n', evs) -> Aux.changes i n n'.
Proof.
  intros Hc. pose proof Hc as Hc'.
  apply closeStream_frame in Hc as (s & Hs & _ & Hfr & _). split.
  - exact Hfr.
  - intros s0 Hs0. destruct (closeStream_spec _ _ _ _ _ Hs0 Hc')
      as ((s' & Hs' & _ & Hty) & _). eauto.
Qed.

Lemma changes_stdout i n n' (bad : StreamType) :
  ~ Aux.clientType bad ->
  Aux.changes i n n' ->
  (exists s, slot n stdoutfd = Some s /\ type s <> bad) ->
  exists s, slot n' stdoutfd = Some s /\ type s <> bad.
Proof.
  intros Hbad [Hfr Hsl] (s & Hs & Hty).
  destruct (decide (stdoutfd = i)) as [<-|Hne].
  - destruct (Hsl s Hs) as (s' & Hs' & Hty'). exists s'.
    split; [exact Hs'|]. destruct Hty' as [->|Hc]; [exact Hty|].
    intros He. apply Hbad. rewrite <- He. exact Hc.
  - exists s. rewrite Hfr by exact Hne. auto.
Qed.

Lemma changes_noCopy i n n' :
  Aux.changes i n n' -> Aux.noCopy n -> Aux.noCopy n'.
Proof.
  apply changes_stdout. intros [H|[H|H]]; discriminate.
Qed.

Lemma changes_noStream i n n' :
  Aux.changes i n n' -> Aux.noStream n -> Aux.noStream n'.
Proof.
  apply changes_stdout. intros [H|[H|H]]; discriminate.
Qed.

Lemma noCopy_outputType n :
  Aux.noCopy n -> outputType n <> Some DATA_OUTPUT_COPY.
Proof.
  intros (s & Hs & Hty). unfold outputType. rewrite Hs. simpl. congruence.
Qed.

Lemma noStream_outputType n :
  Aux.noStream n -> outputType n <> Some DATA_OUTPUT_STREAM.
Proof.
  intros (s & Hs & Hty). unfold outputType. rewrite Hs. simpl. congruence.
Qed.

(** The loop of [handleClientRequest] while standard output is not in
    copy mode. *)
Lemma requestLoop_inv h0 junk now i fuel : forall r n d out n' d' evs,
  outputType n <> Some DATA_OUTPUT_COPY ->
  requestLoop fuel h0 junk now i r n d out = Some (Ret (n', d', evs)) ->
  d' = d /\ Aux.changes i n n' /\
  (Aux.netOk n -> Aux.netOk n') /\
  (outputType n <> Some DATA_OUTPUT_STREAM -> evs = out).
Proof.
  induction fuel as [|fuel IH]; intros r n d out n' d' evs Hcopy;
    cbn [requestLoop]; [discriminate|].
  destruct (r >? 0).
  2:{ intros [= <- <- <-]. split; [reflexivity|].
      split; [apply changes_refl|]. auto. }
  destruct (slot n i) as [s|] eqn:Hs; [|discriminate].
  destruct (_ <=? r); [discriminate|].
  set (buf := <[Z.to_nat r := NUL]> (buffer s)).
  set (len1 := (len s + r) mod 2 ^ 64).
  assert (Hset : forall l ty,
            ty = type s \/ Aux.clientType ty ->
            Aux.changes i n (setSlot i (withBuffer buf l ty s) n) /\
            (Aux.netOk n -> Aux.netOk (setSlot i (withBuffer buf l ty s) n))).
  { intros l ty Hty. split.
    - apply (changes_setSlot i s); [exact Hs|exact Hty].
    - intros Hok. apply (setSlot_netOk i s); [exact Hok|exact Hs|reflexivity]. }
  destruct (strchr buf LF) as [q|].
  2:{ intros [= <- <- <-]. destruct (Hset len1 (type s)) as [H1 H2]; auto. }
  destruct (strstr buf marker).
  { intros [= <- <- <-].
    destruct (Hset 0 CLIENT_JSON_STREAM) as [H1 H2]; auto.
    right. right. left. reflexivity. }
  destruct (Hset len1 (type s)) as [Hch Hok]; [auto|].
  set (n1 := setSlot i (withBuffer buf len1 (type s) s) n) in *.
  assert (Hout : outputType n1 = outputType n).
  { apply (outputType_setSlot i s); [exact Hs|reflexivity]. }
  rewrite Hout. intros Hr.
  assert (Hgo : forall out1,
            requestLoop fuel h0 junk now i r n1 d out1
            = Some (Ret (n', d', evs)) ->
            d' = d /\ Aux.changes i n n' /\ (Aux.netOk n -> Aux.netOk n') /\
            (outputType n <> Some DATA_OUTPUT_STREAM -> evs = out1)).
  { intros out1 H1. apply IH in H1 as (Hd & Hc1 & Hok1 & Hev);
      [|rewrite Hout; exact Hcopy].
    split; [exact Hd|]. split; [exact (changes_trans _ _ _ _ Hch Hc1)|].
    split; [auto|]. rewrite Hout in Hev. exact Hev. }
  destruct (outputType n) as [ty|] eqn:Hty; [|discriminate].
  destruct ty; try (apply Hgo in Hr; exact Hr); [contradiction|].
  apply Hgo in Hr as (Hd & Hc1 & Hok1 & Hev).
  split; [exact Hd|]. split; [exact Hc1|]. split; [exact Hok1|].
  intros H. contradiction.
Qed.

Lemma handleClientRequest_inv fuel h0 junk now rd i n d n' d' evs :
  outputType n <> Some DATA_OUTPUT_COPY ->
  handleClientRequest fuel h0 junk now rd i n d = Some (Ret (n', d', evs)) ->
  d' = d /\ Aux.changes i n n' /\
  (Aux.netOk n -> Aux.netOk n') /\
  (outputType n <> Some DATA_OUTPUT_STREAM -> Forall Aux.quietEvent evs).
Proof.
  intros Hcopy. unfold handleClientRequest.
  destruct (slot n i) as [s|] eqn:Hs; [|discriminate].
  destruct rd as [|c rd].
  - destruct (fd s =? stdinfd); [discriminate|].
    destruct (fd s =? stdoutfd); [discriminate|].
    destruct (closeStream i n) as [[n1 evs1]| |] eqn:Hc; simpl;
      try discriminate.
    intros [= <- <- <-]. split; [reflexivity|].
    split; [exact (changes_closeStream _ _ _ _ Hc)|].
    split; [intros Hok; exact (closeStream_netOk _ _ _ _ Hok Hc)|].
    intros _. apply closeStream_frame in Hc as (s' & _ & -> & _).
    apply Forall_cons. split; [exact I|constructor].
  - destruct (_ <? _)%nat; [discriminate|].
    set (n1 := setSlot i _ n). intros Hr.
    assert (Hch : Aux.changes i n n1)
      by (apply (changes_setSlot i s); [exact Hs|left; reflexivity]).
    assert (Hout : outputType n1 = outputType n)
      by (apply (outputType_setSlot i s); [exact Hs|reflexivity]).
    apply requestLoop_inv in Hr as (Hd & Hc1 & Hok1 & Hev);
      [|rewrite Hout; exact Hcopy].
    split; [exact Hd|]. split; [exact (changes_trans _ _ _ _ Hch Hc1)|].
    split.
    + intros Hok. apply Hok1.
      apply (setSlot_netOk i s); [exact Hok|exact Hs|reflexivity].
    + intros Hst. rewrite Hout in Hev. rewrite (Hev Hst). constructor.
Qed.

(** X11: A request leaves the store alone unless standard output is in copy
    mode: whatever a client or standard input delivers, and whatever the
    other options are, no byte reaches [handleMessageByte], and no slot
    of the table but the reader's own is touched. *)
Theorem request_is_dropped_unless_copy fuel h0 junk now rd i n d n' d' evs :
  outputType n <> Some DATA_OUTPUT_COPY ->
  handleClientRequest fuel h0 junk now rd i n d = Some (Ret (n', d', evs)) ->
  d' = d /\ forall j, j <> i -> slot n' j = slot n j.
Proof.
  intros Hcopy Hr.
  apply handleClientRequest_inv in Hr as (Hd & [Hfr _] & _); [|exact Hcopy].
  split; [exact Hd|exact Hfr].
Qed.

Lemma request_is_dropped_unless_copy_witness :
  exists n' evs,
    handleClientRequest 5 Ex.h0 0 1000 (lit "abc") 3
      (Ex.net_with CLIENT_JSON) Ex.store_depth
    = Some (Ret (n', Ex.store_depth, evs)) /\
    forall j, j <> 3 -> slot n' j = slot (Ex.net_with CLIENT_JSON) j.
Proof.
  destruct (handleClientRequest 5 Ex.h0 0 1000 (lit "abc") 3
              (Ex.net_with CLIENT_JSON) Ex.store_depth)
    as [[[[n' d'] evs]| |]|] eqn:Hr; try (vm_compute in Hr; discriminate).
  destruct (request_is_dropped_unless_copy 5 Ex.h0 0 1000 (lit "abc") 3
              (Ex.net_with CLIENT_JSON) Ex.store_depth n' d' evs
              ltac:(vm_compute; discriminate) Hr) as [-> Hfr].
  exists n', evs. split; [reflexivity|exact Hfr].
Defined.

Lemma requestLoop_never_ends h0 junk now i r d ty fuel : forall n out s,
  0 < r < Z.of_nat (length (buffer s)) ->
  slot n i = Some s ->
  is_Some (strchr (<[Z.to_nat r := NUL]> (buffer s)) LF) ->
  strstr (<[Z.to_nat r := NUL]> (buffer s)) marker = None ->
  outputType n = Some ty -> ty <> DATA_OUTPUT_COPY ->
  requestLoop fuel h0 junk now i r n d out = None.
Proof.
  induction fuel as [|fuel IH]; intros n out s Hr Hs [q Hq] Hm Hmode Hty;
    cbn [requestLoop].
  - reflexivity.
  - destruct (Z.gtb_spec r 0); [|lia]. rewrite Hs.
    destruct (Z.leb_spec (Z.of_nat (length (buffer s))) r); [lia|].
    set (buf := <[Z.to_nat r := NUL]> (buffer s)) in *.
    set (s1 := withBuffer buf ((len s + r) mod 2 ^ 64) (type s) s).
    assert (Hs1 : slot (setSlot i s1 n) i = Some s1)
      by (apply slot_setSlot_eq; eauto).
    assert (Ho : outputType (setSlot i s1 n) = outputType n)
      by (apply (outputType_setSlot i s); [exact Hs|reflexivity]).
    assert (Hb : <[Z.to_nat r := NUL]> (buffer s1) = buf).
    { simpl. unfold buf. apply list_insert_insert_eq. }
    assert (Hl : length (buffer s1) = length (buffer s)).
    { simpl. unfold buf. apply length_insert. }
    rewrite Hq, Hm, Ho, Hmode.
    assert (Hnext : forall out',
              requestLoop fuel h0 junk now i r (setSlot i s1 n) d out' = None).
    { intros out'. apply (IH _ _ s1).
      - rewrite Hl. exact Hr.
      - exact Hs1.
      - rewrite Hb. eauto.
      - rewrite Hb. exact Hm.
      - rewrite Ho. exact Hmode.
      - exact Hty. }
    destruct ty; try apply Hnext. contradiction.
Qed.

Lemma insert_writeAt (rd buf : list ascii) :
  (length rd < length buf)%nat ->
  <[length rd := NUL]> (writeAt 0 rd buf)
  = rd ++ NUL :: drop (S (length rd)) buf.
Proof.
  intros Hlen.
  change (writeAt 0 rd buf) with (rd ++ drop (length rd) buf).
  rewrite insert_app_r_alt by lia. rewrite Nat.sub_diag. f_equal.
  destruct (lookup_lt_is_Some_2 buf (length rd) Hlen) as [a Ha].
  rewrite (drop_S _ _ _ Ha). reflexivity.
Qed.

Lemma find_chr_elem c s : c ∈ s -> is_Some (find_chr c s).
Proof.
  induction s as [|x s IH]; simpl; intros H.
  - apply elem_of_nil in H. contradiction.
  - destruct (Ascii.eqb x c) eqn:Hx; [eauto|].
    apply elem_of_cons in H as [->|H].
    + rewrite Ascii.eqb_refl in Hx. discriminate.
    + destruct (IH H) as [k ->]. simpl. eauto.
Qed.

Lemma cstring_terminated m rest : (NUL ∉ m) -> cstring (m ++ NUL :: rest) = m.
Proof.
  intros H. rewrite cstring_app by exact H. simpl. apply app_nil_r.
Qed.

Lemma handleClientRequest_hangs fuel h0 junk now rd i n d s ty :
  slot n i = Some s ->
  len s = 0 ->
  (length rd < length (buffer s))%nat ->
  (NUL ∉ rd) -> (LF ∈ rd) ->
  find_sub marker rd = None ->
  outputType n = Some ty -> ty <> DATA_OUTPUT_COPY ->
  handleClientRequest fuel h0 junk now rd i n d = None.
Proof.
  intros Hs Hlen Hrd Hnul Hlf Hmark Hout Hty. unfold handleClientRequest.
  rewrite Hs, Hlen. destruct rd as [|c rd'] eqn:Erd.
  { apply elem_of_nil in Hlf. contradiction. }
  rewrite <- Erd in *. clear Erd c rd'.
  change (Z.to_nat 0) with 0%nat.
  destruct (Nat.ltb_spec (length (buffer s)) (0 + length rd)); [lia|].
  set (s1 := withBuffer (writeAt 0 rd (buffer s)) 0 (type s) s).
  assert (Hbuf : <[Z.to_nat (Z.of_nat (length rd)) := NUL]> (buffer s1)
                 = rd ++ NUL :: drop (S (length rd)) (buffer s)).
  { rewrite Nat2Z.id. simpl. apply insert_writeAt. exact Hrd. }
  assert (Hl1 : length (buffer s1) = length (buffer s)).
  { simpl. unfold writeAt. simpl. rewrite length_app, length_drop. lia. }
  apply (requestLoop_never_ends _ _ _ _ _ _ ty _ _ _ s1).
  - rewrite Hl1. destruct rd; [apply elem_of_nil in Hlf; contradiction|].
    simpl length in *. lia.
  - apply slot_setSlot_eq. eauto.
  - rewrite Hbuf. unfold strchr. simpl is_nul. cbv iota.
    rewrite cstring_terminated by exact Hnul. apply find_chr_elem. exact Hlf.
  - rewrite Hbuf. unfold strstr. rewrite cstring_terminated by exact Hnul.
    exact Hmark.
  - rewrite (outputType_setSlot i s); [exact Hout|exact Hs|reflexivity].
  - exact Hty.
Qed.

(** X12: A line without the marker hangs the server unless standard output is
    in copy mode.  When a stream whose buffer is empty delivers, in one
    [read], bytes that hold a newline and nowhere a minus sign followed
    by a newline, the loop of [handleClientRequest] changes nothing it
    tests: no number of passes ends it. *)
Theorem line_without_marker_never_returns fuel h0 junk now rd i n d s ty :
  slot n i = Some s ->
  len s = 0 ->
  (length rd < length (buffer s))%nat ->
  (NUL ∉ rd) -> (LF ∈ rd) ->
  find_sub marker rd = None ->
  outputType n = Some ty -> ty <> DATA_OUTPUT_COPY ->
  handleClientRequest fuel h0 junk now rd i n d = None.
Proof. exact (handleClientRequest_hangs fuel h0 junk now rd i n d s ty). Qed.

Lemma line_without_marker_never_returns_witness :
  handleClientRequest 1000 Ex.h0 0 1000 (lit "hello" ++ [LF]) 3
    (Ex.net_with CLIENT_JSON) data0 = None.
Proof.
  apply (line_without_marker_never_returns 1000 Ex.h0 0 1000
           (lit "hello" ++ [LF]) 3 (Ex.net_with CLIENT_JSON) data0
           (Ex.mkS 5 CLIENT_JSON 500) DATA_OUTPUT_STREAM).
  - reflexivity.
  - reflexivity.
  - apply Nat.ltb_lt. vm_compute. reflexivity.
  - refine (bool_decide_unpack _ _). vm_compute. exact I.
  - refine (bool_decide_unpack _ _). vm_compute. exact I.
  - reflexivity.
  - reflexivity.
  - discriminate.
Defined.

(** ** Accepting clients and the server loop *)

Lemma setFdUsed_changes t x ct n i n' evs :
  setFdUsed t x ct n = Ret (i, n', evs) ->
  Aux.clientType ct ->
  (n' = n /\ evs = [EvClose x]) \/ (Aux.changes i n n' /\ evs = []).
Proof.
  unfold setFdUsed. intros Hr Hct.
  destruct (_ =? FD_SETSIZE n); [injection Hr as <- <- <-; auto|].
  destruct (slot n _) as [s|] eqn:Hs; [|discriminate].
  injection Hr as <- <- <-. right. split; [|reflexivity].
  pose proof (slot_lt _ _ _ Hs) as Hk. split.
  - intros j Hj. eapply slot_insert_ne; [|exact Hj|reflexivity]. lia.
  - intros s0 Hs0. eexists. split.
    + eapply slot_insert_eq; [exact Hs|reflexivity].
    + right. exact Hct.
Qed.

Lemma acceptClient_inv t ct pending : forall n n' evs,
  Aux.clientType ct ->
  acceptClient t pending ct n = Ret (n', evs) ->
  (Aux.noCopy n -> Aux.noCopy n') /\
  (Aux.noStream n -> Aux.noStream n') /\
  (Aux.netOk n -> Aux.netOk n') /\
  Forall Aux.quietEvent evs.
Proof.
  induction pending as [|r rest IH]; intros n n' evs Hct; simpl.
  - intros [= <- <-]. split; [auto|]. split; [auto|]. split; [auto|].
    constructor.
  - destruct (r =? INVALID_SOCKET).
    { intros [= <- <-]. split; [auto|]. split; [auto|]. split; [auto|].
      constructor. }
    destruct (setFdUsed t r ct n) as [[[i n1] evs1]| |] eqn:Hset;
      simpl; try discriminate.
    assert (H1 : (Aux.noCopy n -> Aux.noCopy n1) /\
                 (Aux.noStream n -> Aux.noStream n1) /\
                 (Aux.netOk n -> Aux.netOk n1) /\
                 Forall Aux.quietEvent evs1).
    { split; [|split; [|split]].
      - destruct (setFdUsed_changes _ _ _ _ _ _ _ Hset Hct)
          as [[-> _]|[Hch _]]; [auto|exact (changes_noCopy _ _ _ Hch)].
      - destruct (setFdUsed_changes _ _ _ _ _ _ _ Hset Hct)
          as [[-> _]|[Hch _]]; [auto|exact (changes_noStream _ _ _ Hch)].
      - intros Hok. exact (setFdUsed_netOk _ _ _ _ _ _ _ Hok Hset).
      - destruct (setFdUsed_changes _ _ _ _ _ _ _ Hset Hct)
          as [[_ ->]|[_ ->]]; repeat constructor. }
    destruct H1 as (Hc1 & Hs1 & Hok1 & Hev1).
    destruct (i <? 0); [intros [= <- <-]; auto|].
    destruct (acceptClient t rest ct n1) as [[n2 evs2]| |] eqn:Hacc;
      simpl; try discriminate.
    intros [= <- <-].
    destruct (IH _ _ _ Hct Hacc) as (Hc2 & Hs2 & Hok2 & Hev2).
    split; [auto|]. split; [auto|]. split; [auto|].
    apply Forall_app. auto.
Qed.

(** The read phase from index [i] on. *)
Lemma readLoop_inv hfuel h0 junk now t inp rs fuel :
  forall i r n d out n' d' evs,
  Aux.noCopy n ->
  readLoop fuel hfuel h0 junk now t inp rs i r n d out
  = Some (Ret (n', d', evs)) ->
  d' = d /\ Aux.noCopy n' /\
  (Aux.noStream n -> Forall Aux.quietEvent out ->
   Aux.noStream n' /\ Forall Aux.quietEvent evs).
Proof.
  induction fuel as [|fuel IH]; intros i r n d out n' d' evs Hcopy;
    cbn [readLoop].
  - destruct (_ && _); [discriminate|]. intros [= <- <- <-]. auto.
  - destruct (_ && _); [|intros [= <- <- <-]; auto].
    destruct (slot n i) as [s|] eqn:Hs; [|discriminate].
    destruct (fd s =? 0); [apply IH; exact Hcopy|].
    destruct (fd s <? 0); [discriminate|].
    destruct (FD_ISSET (fd s) rs); [|apply IH; exact Hcopy].
    destruct (readHandler s) as [[]|]; [| | |discriminate].
    + destruct (handleClientRequest _ _ _ _ _ _ _ _)
        as [[[[n1 d1] evs1]| |]|] eqn:Hh; try discriminate.
      apply handleClientRequest_inv in Hh as (-> & Hch & _ & Hev);
        [|exact (noCopy_outputType _ Hcopy)].
      intros Hr. apply IH in Hr as (Hd & Hc' & Hrest);
        [|exact (changes_noCopy _ _ _ Hch Hcopy)].
      split; [exact Hd|]. split; [exact Hc'|].
      intros Hst Hout. apply Hrest.
      * exact (changes_noStream _ _ _ Hch Hst).
      * apply Forall_app. split; [exact Hout|].
        apply Hev. exact (noStream_outputType _ Hst).
    + unfold acceptJSONClient. rewrite Hs.
      destruct (acceptClient t _ CLIENT_JSON n) as [[n1 evs1]| |] eqn:Ha;
        try discriminate.
      apply acceptClient_inv in Ha as (Hc1 & Hs1 & _ & Hev1);
        [|left; reflexivity].
      intros Hr. apply IH in Hr as (Hd & Hc' & Hrest); [|auto].
      split; [exact Hd|]. split; [exact Hc'|].
      intros Hst Hout. apply Hrest; [auto|]. apply Forall_app. auto.
    + unfold acceptNMEA0183Client. rewrite Hs.
      destruct (acceptClient t _ CLIENT_NMEA0183_STREAM n)
        as [[n1 evs1]| |] eqn:Ha; try discriminate.
      apply acceptClient_inv in Ha as (Hc1 & Hs1 & _ & Hev1);
        [|right; right; reflexivity].
      intros Hr. apply IH in Hr as (Hd & Hc' & Hrest); [|auto].
      split; [exact Hd|]. split; [exact Hc'|].
      intros Hst Hout. apply Hrest; [auto|]. apply Forall_app. auto.
Qed.

Lemma writeAllClients_types r ready t secs n d n' d' evs :
  writeAllClients r ready t secs n d = Ret (n', d', evs) ->
  forall i s, slot n i = Some s ->
    exists s', slot n' i = Some s' /\ type s' = type s.
Proof.
  unfold writeAllClients. destruct (socketIdxMax n >=? 0).
  2:{ intros [= <- <- <-]. eauto. }
  destruct (writeLoop _ _ _ _ _ _ _) as [w| |] eqn:Hloop;
    simpl; try discriminate.
  intros [= <- <- <-] i s Hs.
  apply writeLoop_spec in Hloop as (_ & evs & _ & Hall).
  destruct (Hall i s Hs) as (s' & Hs' & Hty & _). eauto.
Qed.

Lemma empty_snapshot secs d :
  pgnList d = [] -> getFullStateJSON secs d = Ret [LF].
Proof. intros H. unfold getFullStateJSON. rewrite H. reflexivity. Qed.

Lemma writeOk_quiet ws t secs d n ev :
  pgnList d = [] -> currentMessage d = [] ->
  Aux.writeOk ws t secs d n ev -> Aux.quietEvent ev.
Proof.
  intros Hl Hc. destruct ev as [i x p|x p|x]; simpl; [|auto|auto].
  intros (s & _ & _ & _ & [(_ & _ & _ & st & Hst & ->)|(_ & Hne & _)]).
  - rewrite (empty_snapshot secs d Hl) in Hst. injection Hst as <-.
    reflexivity.
  - contradiction.
Qed.

Lemma serverPass_inv hfuel h0 junk k n d n' d' evs :
  Aux.noCopy n ->
  serverPass hfuel h0 junk k n d = Some (Ret (n', d', evs)) ->
  d' = clearCurrent d /\ Aux.noCopy n' /\
  (Aux.noStream n -> pgnList d = [] -> currentMessage d = [] ->
   Aux.noStream n' /\ Forall Aux.quietEvent evs).
Proof.
  intros Hcopy. unfold serverPass, checkReadEvents.
  destruct (readLoop _ _ _ _ _ _ _ _ _ _ _ _ _)
    as [[[[n1 d1] evs1]| |]|] eqn:Hread; try discriminate.
  apply readLoop_inv in Hread as (-> & Hc1 & Hrest); [|exact Hcopy].
  destruct (writeAllClients _ _ _ _ n1 d) as [[[n2 d2] evs2]| |] eqn:Hw;
    simpl; try discriminate.
  intros [= <- <- <-].
  pose proof (writeAllClients_types _ _ _ _ _ _ _ _ _ Hw) as Hty.
  pose proof (write_phase_sends_events _ _ _ _ _ _ _ _ _ Hw) as [-> Hev].
  split; [reflexivity|]. split.
  - destruct Hc1 as (s & Hs & Hne). destruct (Hty _ _ Hs) as (s' & Hs' & He).
    exists s'. split; [exact Hs'|congruence].
  - intros Hst Hl Hc. destruct (Hrest Hst) as [Hst1 Hev1]; [constructor|].
    split.
    + destruct Hst1 as (s & Hs & Hne).
      destruct (Hty _ _ Hs) as (s' & Hs' & He).
      exists s'. split; [exact Hs'|congruence].
    + apply Forall_app. split; [exact Hev1|].
      eapply Forall_impl; [exact Hev|].
      intros ev. apply writeOk_quiet; assumption.
Qed.

Lemma doServerWork_inv hfuel h0 junk ks : forall n d n' d' evs,
  Aux.noCopy n ->
  doServerWork hfuel h0 junk ks n d = Some (Ret (n', d', evs)) ->
  Aux.noCopy n' /\ pgnIdx d' = pgnIdx d /\ pgnList d' = pgnList d /\
  (Aux.noStream n -> pgnList d = [] -> currentMessage d = [] ->
   Aux.noStream n' /\ Forall Aux.quietEvent evs).
Proof.
  induction ks as [|k ks IH]; intros n d n' d' evs Hcopy; simpl.
  - intros [= <- <- <-]. split; [exact Hcopy|]. split; [reflexivity|].
    split; [reflexivity|]. intros Hst _ _. split; [exact Hst|constructor].
  - destruct (serverPass hfuel h0 junk k n d)
      as [[[[n1 d1] evs1]| |]|] eqn:Hpass; try discriminate.
    apply serverPass_inv in Hpass as (-> & Hc1 & Hrest1); [|exact Hcopy].
    destruct (doServerWork hfuel h0 junk ks n1 (clearCurrent d))
      as [[[[n2 d2] evs2]| |]|] eqn:Hwork; try discriminate.
    intros [= <- <- <-].
    apply IH in Hwork as (Hc2 & Hi & Hl & Hrest2); [|exact Hc1].
    split; [exact Hc2|]. split; [exact Hi|]. split; [exact Hl|].
    intros Hst Hl0 Hc0. destruct (Hrest1 Hst Hl0 Hc0) as [Hst1 Hev1].
    destruct (Hrest2 Hst1 Hl0 eq_refl) as [Hst2 Hev2].
    split; [exact Hst2|]. apply Forall_app. auto.
Qed.

(** X13: The store is written in copy mode only.  While slot [stdoutfd] has a
    type other than [DATA_OUTPUT_COPY], no pass of the server loop
    changes the index or the list of PGNs, whatever arrives on any
    stream, and the slot never gets that type. *)
Theorem store_is_written_in_copy_mode_only hfuel h0 junk ks n d n' d' evs s :
  slot n stdoutfd = Some s ->
  type s <> DATA_OUTPUT_COPY ->
  doServerWork hfuel h0 junk ks n d = Some (Ret (n', d', evs)) ->
  pgnIdx d' = pgnIdx d /\ pgnList d' = pgnList d /\
  outputType n' <> Some DATA_OUTPUT_COPY.
Proof.
  intros Hs Hty Hwork.
  apply doServerWork_inv in Hwork as (Hc & Hi & Hl & _); [|exists s; auto].
  split; [exact Hi|]. split; [exact Hl|]. exact (noCopy_outputType _ Hc).
Qed.

(** ** [main] *)

Lemma setFdUsed_at t x ct n k s :
  findFree x (stream n) 0 (Z.to_nat (socketIdxMax n + 1)) = k ->
  slot n k = Some s ->
  setFdUsed t x ct n
  = Ret (k,
         {| stream := <[Z.to_nat k :=
                         {| fd := x; type := ct; timeout := t + UPDATE_INTERVAL;
                            readHandler := readHandlers ct;
                            buffer := buffer s; len := len s |}]> (stream n);
            socketIdxMin := socketIdxMin n;
            socketIdxMax := Z.max (socketIdxMax n) k;
            socketFdMax := Z.max (socketFdMax n) x;
            activeSet := FD_SET x (activeSet n);
            readSet := match readHandlers ct with
                       | Some _ => FD_SET x (readSet n)
                       | None => FD_CLR x (readSet n)
                       end;
            writeSet := match ct with
                        | CLIENT_JSON | CLIENT_JSON_STREAM
                        | DATA_OUTPUT_STREAM | DATA_OUTPUT_COPY =>
                            FD_SET x (writeSet n)
                        | _ => FD_CLR x (writeSet n)
                        end |}, []).
Proof.
  intros Hk Hs. unfold setFdUsed. rewrite Hk.
  pose proof (slot_lt _ _ _ Hs) as Hlt.
  destruct (Z.eqb_spec k (FD_SETSIZE n)); [lia|]. rewrite Hs. reflexivity.
Qed.

Lemma setFdUsed_started t ct n :
  Aux.started n ->
  exists n', setFdUsed t stdoutfd ct n = Ret (1, n', []) /\ Aux.started n'.
Proof.
  intros (a & b & rest & Hst & Ha & Hb & Hmax).
  eexists. split.
  - apply (setFdUsed_at _ _ _ _ 1 b).
    + rewrite Hst, Hmax. change (Z.to_nat (1 + 1)) with 2%nat.
      cbn [findFree]. rewrite Ha, Hb. reflexivity.
    + unfold slot. rewrite Hst. reflexivity.
  - exists a, {| fd := stdoutfd; type := ct; timeout := t + UPDATE_INTERVAL;
                 readHandler := readHandlers ct;
                 buffer := buffer b; len := len b |}, rest.
    cbn [stream socketIdxMax fd]. rewrite Hst, Hmax.
    split; [reflexivity|]. split; [exact Ha|]. split; reflexivity.
Qed.

Lemma options_started t u0 k : forall args cfg n cfg' n' evs,
  (length args <= k)%nat ->
  Aux.started n ->
  options t u0 args cfg n = Ret (cfg', n', evs) ->
  Aux.started n'.
Proof.
  induction k as [|k IH]; intros args cfg n cfg' n' evs Hlen Hst;
    destruct args as [|a rest]; cbn [options];
    try (intros [= <- <- <-]; exact Hst); simpl in Hlen; [lia|].
  assert (Hout : forall ct,
            ('(_, n1, evs1) ← setFdUsed t stdoutfd ct n;
             '(cfg1, n2, evs2) ← options t u0 rest cfg n1;
             Ret (cfg1, n2, evs1 ++ evs2)) = Ret (cfg', n', evs) ->
            Aux.started n').
  { intros ct. destruct (setFdUsed_started t ct n Hst) as (n1 & -> & Hst1).
    simpl. destruct (options t u0 rest cfg n1) as [[[cfg1 n2] evs2]| |] eqn:Ho;
      simpl; try discriminate.
    intros [= <- <- <-]. apply (IH rest cfg n1 cfg1 n2 evs2); [lia|auto|auto]. }
  destruct (strcasecmp_eq a (lit "-d")); [apply IH; [lia|exact Hst]|].
  destruct (strcasecmp_eq a (lit "-q")); [apply IH; [lia|exact Hst]|].
  destruct (strcasecmp_eq a (lit "-o")); [apply Hout|].
  destruct (strcasecmp_eq a (lit "-r")); [apply Hout|].
  destruct (strcasecmp_eq a (lit "-p")); [|discriminate].
  destruct rest as [|v rest']; [intros [= <- <- <-]; exact Hst|].
  destruct (sscanf_u v) as [ret val]. apply IH; [simpl in Hlen; lia|exact Hst].
Qed.

Lemma main_started size t :
  (2 <= size)%nat ->
  exists n1 n2,
    setFdUsed t stdinfd DATA_INPUT_STREAM (net0 size) = Ret (0, n1, []) /\
    setFdUsed t stdoutfd DATA_OUTPUT_STREAM n1 = Ret (1, n2, []) /\
    Aux.started n2.
Proof.
  intros Hsize. destruct size as [|[|size]]; [lia|lia|].
  eexists _, _. split; [|split].
  - apply (setFdUsed_at _ _ _ _ 0 stream0); reflexivity.
  - apply (setFdUsed_at _ _ _ _ 1 stream0); reflexivity.
  - eexists _, _, _. cbn [stream socketIdxMax fd].
    split; [reflexivity|]. split; [reflexivity|]. split; reflexivity.
Qed.

(** The table [main] hands to the server loop. *)
Lemma main_table size t u0 args l1 l2 cfg n evs :
  (2 <= size)%nat ->
  l_socket l1 <> 0 ->
  l_socket l2 <> l_socket l1 ->
  main size t u0 args l1 l2 = Ret (cfg, n, evs) ->
  exists s, slot n stdoutfd = Some s /\ fd s = l_socket l1 /\
            type s = SERVER_JSON.
Proof.
  intros Hsize Hl1 Hl2. unfold main.
  destruct (main_started size t Hsize) as (n1 & n2 & -> & H2 & Hst).
  cbn [mbind result_bind]. rewrite H2. cbn [mbind result_bind].
  destruct (options t u0 args _ n2) as [[[cfg3 n3] e3]| |] eqn:Ho;
    cbn [mbind result_bind]; try discriminate.
  apply (options_started _ _ (length args)) in Ho; [|lia|exact Hst].
  destruct Ho as (a & b & rest & Hstream & Ha & Hb & Hmax).
  unfold startTcpServers, tcpServer.
  destruct (l_socket l1 =? INVALID_SOCKET) eqn:E1;
    cbn [mbind result_bind]; [discriminate|].
  destruct (l_bind l1 =? INVALID_SOCKET);
    cbn [mbind result_bind]; [discriminate|].
  destruct (l_listen l1 =? INVALID_SOCKET);
    cbn [mbind result_bind]; [discriminate|].
  apply Z.eqb_neq in E1. unfold INVALID_SOCKET in E1.
  rewrite (setFdUsed_at t (l_socket l1) SERVER_JSON (resetIdx n3) 1 b).
  2:{ cbn [resetIdx stream socketIdxMax]. rewrite Hstream.
      change (Z.to_nat (0 + 1)) with 1%nat. cbn [findFree]. rewrite Ha.
      destruct (Z.eqb_spec 0 (l_socket l1)); [congruence|]. reflexivity. }
  2:{ unfold slot. cbn [resetIdx stream]. rewrite Hstream. reflexivity. }
  cbn [mbind result_bind resetIdx stream socketIdxMax socketIdxMin
       socketFdMax activeSet readSet writeSet].
  rewrite Hstream. change (Z.to_nat 1) with 1%nat. cbn [insert list_insert].
  set (b' := {| fd := l_socket l1; type := SERVER_JSON |}).
  destruct (l_socket l2 =? INVALID_SOCKET);
    cbn [mbind result_bind]; [discriminate|].
  destruct (l_bind l2 =? INVALID_SOCKET);
    cbn [mbind result_bind]; [discriminate|].
  destruct (l_listen l2 =? INVALID_SOCKET);
    cbn [mbind result_bind]; [discriminate|].
  match goal with
  | |- context [setFdUsed t (l_socket l2) SERVER_NMEA0183 ?m] =>
      set (n4 := m);
      destruct (setFdUsed t (l_socket l2) SERVER_NMEA0183 n4)
        as [[[i n5] e5]| |] eqn:H5; cbn [mbind result_bind];
        try discriminate
  end.
  intros [= <- <- <-].
  assert (Hb' : slot n4 stdoutfd = Some b') by reflexivity.
  destruct (Z.ltb_spec i 0) as [Hneg|Hpos].
  - destruct (setFdUsed_refused _ _ _ _ _ _ _ H5 Hneg) as [-> _].
    exists b'. auto.
  - assert (Hmax4 : socketIdxMax n4 = 1) by reflexivity.
    assert (Hge : -1 <= socketIdxMax n4) by lia.
    destruct (setFdUsed_takes_first_free_slot_spec _ _ _ _ _ _ _
                Hge H5 Hpos)
      as (_ & _ & _ & (s & Hs & Hfree & _) & Hother & _).
    exists b'. split; [|auto]. rewrite Hother; [exact Hb'|].
    intros <-. rewrite Hb' in Hs. injection Hs as <-.
    destruct Hfree as [Hf|Hf]; [unfold stdoutfd; lia| |];
      simpl in Hf; [lia|congruence].
Qed.

(** X14: The slot of standard output after [main].  [main] sets
    [socketIdxMax] back to 0 before it starts the listeners, so the
    search of [setFdUsed] sees slot 0 only and hands slot 1, where
    standard output was registered, to the JSON listener: whatever the
    options, [stream[stdoutfd]] is then of type [SERVER_JSON]. *)
Theorem main_gives_stdout_slot_to_listener size t u0 args l1 l2 cfg n evs :
  (2 <= size)%nat ->
  l_socket l1 <> 0 ->
  l_socket l2 <> l_socket l1 ->
  main size t u0 args l1 l2 = Ret (cfg, n, evs) ->
  outputType n = Some SERVER_JSON /\
  exists s, slot n stdoutfd = Some s /\ fd s = l_socket l1.
Proof.
  intros Hsize Hl1 Hl2 Hm.
  destruct (main_table _ _ _ _ _ _ _ _ _ Hsize Hl1 Hl2 Hm) as (s & Hs & Hfd & Hty).
  split; [unfold outputType; rewrite Hs; simpl; congruence|eauto].
Qed.

Lemma main_gives_stdout_slot_to_listener_witness :
  exists cfg n evs,
    main 8 999000 0 [lit "-o"] Ex.listener_json Ex.listener_nmea
    = Ret (cfg, n, evs) /\ outputType n = Some SERVER_JSON.
Proof.
  destruct (main 8 999000 0 [lit "-o"] Ex.listener_json Ex.listener_nmea)
    as [[[cfg n] evs]| |] eqn:Hm; try (vm_compute in Hm; discriminate).
  exists cfg, n, evs. split; [reflexivity|].
  apply (main_gives_stdout_slot_to_listener 8 999000 0 [lit "-o"]
           Ex.listener_json Ex.listener_nmea cfg n evs);
    [lia|discriminate|discriminate|exact Hm].
Defined.

(** X15: A server started by [main] stores nothing and serves nothing.
    Whatever the options and whatever arrives afterwards, each pass of
    the server loop that returns leaves the store empty; nothing is
    written to standard output; and the only text ever sent is the
    snapshot of the empty store, a single newline. *)
Theorem server_started_by_main_stores_nothing
    size t u0 args l1 l2 cfg n evs0 hfuel h0 junk ks n' d' evs :
  (2 <= size)%nat ->
  l_socket l1 <> 0 ->
  l_socket l2 <> l_socket l1 ->
  main size t u0 args l1 l2 = Ret (cfg, n, evs0) ->
  doServerWork hfuel h0 junk ks n data0 = Some (Ret (n', d', evs)) ->
  pgnIdx d' = ∅ /\ pgnList d' = [] /\ Forall Aux.quietEvent evs.
Proof.
  intros Hsize Hl1 Hl2 Hm Hwork.
  destruct (main_table _ _ _ _ _ _ _ _ _ Hsize Hl1 Hl2 Hm) as (s & Hs & _ & Hty).
  apply doServerWork_inv in Hwork as (_ & Hi & Hl & Hrest).
  - split; [exact Hi|]. split; [exact Hl|].
    destruct Hrest as [_ Hev]; [|reflexivity|reflexivity|exact Hev].
    exists s. split; [exact Hs|]. rewrite Hty. discriminate.
  - exists s. split; [exact Hs|]. rewrite Hty. discriminate.
Qed.

Lemma server_started_by_main_stores_nothing_witness :
  exists cfg n evs0 n' d' evs,
    main 8 999000 0 [lit "-o"] Ex.listener_json Ex.listener_nmea
    = Ret (cfg, n, evs0) /\
    doServerWork 10 Ex.h0 0 [Ex.tick_accept; Ex.tick_serve] n data0
    = Some (Ret (n', d', evs)) /\
    pgnList d' = [] /\ Forall Aux.quietEvent evs.
Proof.
  destruct (main 8 999000 0 [lit "-o"] Ex.listener_json Ex.listener_nmea)
    as [[[cfg n] evs0]| |] eqn:Hm; try (vm_compute in Hm; discriminate).
  pose proof Hm as Hm'. vm_compute in Hm'. injection Hm' as _ Hn _.
  destruct (doServerWork 10 Ex.h0 0 [Ex.tick_accept; Ex.tick_serve] n data0)
    as [[[[n' d'] evs]| |]|] eqn:Hw;
    try (rewrite <- Hn in Hw; vm_compute in Hw; discriminate).
  destruct (server_started_by_main_stores_nothing 8 999000 0 [lit "-o"]
              Ex.listener_json Ex.listener_nmea cfg n evs0 10 Ex.h0 0
              [Ex.tick_accept; Ex.tick_serve] n' d' evs
              ltac:(lia) ltac:(discriminate) ltac:(discriminate) Hm Hw)
    as (_ & Hl & Hev).
  exists cfg, n, evs0, n', d', evs.
  split; [reflexivity|]. split; [exact Hw|]. split; [exact Hl|exact Hev].
Defined.

Lemma store_is_written_in_copy_mode_only_witness :
  exists n' d' evs,
    doServerWork 10 Ex.h0 0 [Ex.tick_serve] (Ex.net_with CLIENT_JSON)
      Ex.store_depth = Some (Ret (n', d', evs)) /\
    pgnList d' = pgnList Ex.store_depth.
Proof.
  destruct (doServerWork 10 Ex.h0 0 [Ex.tick_serve] (Ex.net_with CLIENT_JSON)
              Ex.store_depth) as [[[[n' d'] evs]| |]|] eqn:Hw;
    try (vm_compute in Hw; discriminate).
  exists n', d', evs. split; [reflexivity|].
  destruct (store_is_written_in_copy_mode_only 10 Ex.h0 0 [Ex.tick_serve]
              (Ex.net_with CLIENT_JSON) Ex.store_depth n' d' evs
              (Ex.mkS 1 DATA_OUTPUT_STREAM 500) eq_refl
              ltac:(discriminate) Hw) as (_ & Hl & _).
  exact Hl.
Defined.

(** ** The table invariant along the server loop *)

Lemma requestLoop_netOk h0 junk now i fuel : forall r n d out n' d' evs,
  Aux.netOk n ->
  requestLoop fuel h0 junk now i r n d out = Some (Ret (n', d', evs)) ->
  Aux.netOk n'.
Proof.
  induction fuel as [|fuel IH]; intros r n d out n' d' evs Hok;
    cbn [requestLoop]; [discriminate|].
  destruct (r >? 0); [|intros [= <- <- <-]; exact Hok].
  destruct (slot n i) as [s|] eqn:Hs; [|discriminate].
  destruct (_ <=? r); [discriminate|].
  assert (Hset : forall buf l ty,
            Aux.netOk (setSlot i (withBuffer buf l ty s) n)).
  { intros buf l ty. apply (setSlot_netOk i s); [exact Hok|exact Hs|reflexivity]. }
  destruct (strchr _ LF) as [q|]; [|intros [= <- <- <-]; apply Hset].
  destruct (strstr _ marker); [intros [= <- <- <-]; apply Hset|].
  destruct (outputType _) as [ty|]; [|discriminate].
  destruct ty; try (apply IH; apply Hset).
  destruct (feed _ _ _ _ _) as [d1| |]; try discriminate.
  destruct (negb _ && _); [discriminate|]. apply IH. apply Hset.
Qed.

Lemma handleClientRequest_netOk fuel h0 junk now rd i n d n' d' evs :
  Aux.netOk n ->
  handleClientRequest fuel h0 junk now rd i n d = Some (Ret (n', d', evs)) ->
  Aux.netOk n'.
Proof.
  intros Hok. unfold handleClientRequest.
  destruct (slot n i) as [s|] eqn:Hs; [|discriminate].
  destruct rd as [|c rd].
  - destruct (fd s =? stdinfd); [discriminate|].
    destruct (fd s =? stdoutfd); [discriminate|].
    destruct (closeStream i n) as [[n1 evs1]| |] eqn:Hc; simpl;
      try discriminate.
    intros [= <- <- <-]. exact (closeStream_netOk _ _ _ _ Hok Hc).
  - destruct (_ <? _)%nat; [discriminate|].
    apply requestLoop_netOk.
    apply (setSlot_netOk i s); [exact Hok|exact Hs|reflexivity].
Qed.

Lemma readLoop_netOk hfuel h0 junk now t inp rs fuel :
  forall i r n d out n' d' evs,
  Aux.netOk n ->
  readLoop fuel hfuel h0 junk now t inp rs i r n d out
  = Some (Ret (n', d', evs)) ->
  Aux.netOk n'.
Proof.
  induction fuel as [|fuel IH]; intros i r n d out n' d' evs Hok;
    cbn [readLoop].
  - destruct (_ && _); [discriminate|]. intros [= <- <- <-]. exact Hok.
  - destruct (_ && _); [|intros [= <- <- <-]; exact Hok].
    destruct (slot n i) as [s|] eqn:Hs; [|discriminate].
    destruct (fd s =? 0); [apply IH; exact Hok|].
    destruct (fd s <? 0); [discriminate|].
    destruct (FD_ISSET (fd s) rs); [|apply IH; exact Hok].
    destruct (readHandler s) as [[]|]; [| | |discriminate].
    + destruct (handleClientRequest _ _ _ _ _ _ _ _)
        as [[[[n1 d1] evs1]| |]|] eqn:Hh; try discriminate.
      apply IH. exact (handleClientRequest_netOk _ _ _ _ _ _ _ _ _ _ _ Hok Hh).
    + unfold acceptJSONClient. rewrite Hs.
      destruct (acceptClient t _ CLIENT_JSON n) as [[n1 evs1]| |] eqn:Ha;
        try discriminate.
      apply acceptClient_inv in Ha as (_ & _ & Hok1 & _); [|left; reflexivity].
      apply IH. auto.
    + unfold acceptNMEA0183Client. rewrite Hs.
      destruct (acceptClient t _ CLIENT_NMEA0183_STREAM n)
        as [[n1 evs1]| |] eqn:Ha; try discriminate.
      apply acceptClient_inv in Ha as (_ & _ & Hok1 & _);
        [|right; right; reflexivity].
      apply IH. auto.
Qed.

Lemma writeStep_netOk_ret ws t secs d j w w1 :
  Aux.netOk (w_net w) ->
  writeStep ws t secs d j w = Ret w1 ->
  Aux.netOk (w_net w1).
Proof.
  intros Hok. unfold writeStep.
  destruct (slot (w_net w) j) as [s|] eqn:Hs; [|discriminate].
  destruct (fd s <? 0); [intros [= <-]; exact Hok|].
  destruct (fd s >? _); [discriminate|].
  destruct (negb (FD_ISSET (fd s) (writeSet _))); [intros [= <-]; exact Hok|].
  assert (Hclose : forall n' evs, closeStream j (w_net w) = Ret (n', evs) ->
                                  Aux.netOk n').
  { intros n' evs Hc. exact (closeStream_netOk _ _ _ _ Hok Hc). }
  destruct (negb (FD_ISSET (fd s) ws)).
  { destruct (closeStream j (w_net w)) as [[n' evs]| |]; simpl;
      try discriminate. intros [= <-]. simpl. eauto. }
  destruct (type s); try (intros [= <-]; exact Hok).
  destruct (negb _ && _); [|intros [= <-]; exact Hok].
  destruct (match w_state w with Some _ => _ | None => _ end); simpl;
    try discriminate.
  destruct (closeStream j (w_net w)) as [[n' evs]| |]; simpl;
    try discriminate. intros [= <-]. simpl. eauto.
Qed.

Lemma writeAllClients_netOk r ready t secs n d n' d' evs :
  Aux.netOk n ->
  writeAllClients r ready t secs n d = Ret (n', d', evs) ->
  Aux.netOk n'.
Proof.
  intros Hok. unfold writeAllClients.
  destruct (socketIdxMax n >=? 0); [|intros [= <- <- <-]; exact Hok].
  destruct (writeLoop _ _ _ _ _ _ _) as [w| |] eqn:Hloop;
    simpl; try discriminate.
  intros [= <- <- <-]. revert Hloop.
  generalize (Z.to_nat (socketIdxMax n + 1 - socketIdxMin n)).
  generalize (socketIdxMin n).
  change n with (w_net {| w_r := r; w_now := 0; w_state := None;
                          w_net := n; w_out := [] |}) in Hok.
  revert Hok.
  generalize {| w_r := r; w_now := 0; w_state := None; w_net := n;
                w_out := [] |}.
  intros w0 Hok j fuel. revert j w0 Hok.
  induction fuel as [|fuel IH]; intros j w0 Hok; simpl.
  - intros [= <-]. exact Hok.
  - destruct (_ && _); [|intros [= <-]; exact Hok].
    destruct (writeStep _ t secs d j w0) as [w1| |] eqn:Hstep;
      simpl; try discriminate.
    apply IH. exact (writeStep_netOk_ret _ _ _ _ _ _ _ Hok Hstep).
Qed.

Lemma doServerWork_netOk hfuel h0 junk ks : forall n d n' d' evs,
  Aux.netOk n ->
  doServerWork hfuel h0 junk ks n d = Some (Ret (n', d', evs)) ->
  Aux.netOk n'.
Proof.
  induction ks as [|k ks IH]; intros n d n' d' evs Hok; simpl.
  - intros [= <- <- <-]. exact Hok.
  - unfold serverPass, checkReadEvents.
    destruct (readLoop _ _ _ _ _ _ _ _ _ _ _ _ _)
      as [[[[n1 d1] evs1]| |]|] eqn:Hread; try discriminate.
    apply readLoop_netOk in Hread; [|exact Hok].
    destruct (writeAllClients _ _ _ _ n1 d1) as [[[n2 d2] evs2]| |] eqn:Hw;
      simpl; try discriminate.
    apply writeAllClients_netOk in Hw; [|exact Hread].
    destruct (doServerWork hfuel h0 junk ks n2 d2)
      as [[[[n3 d3] evs3]| |]|] eqn:Hwork; try discriminate.
    intros [= <- <- <-]. exact (IH _ _ _ _ _ Hw Hwork).
Qed.

Lemma netOk_net0 size : (1 <= size)%nat -> Aux.netOk (net0 size).
Proof.
  intros Hsize. unfold Aux.netOk, FD_SETSIZE, net0. simpl.
  rewrite length_replicate. split; [lia|]. split; [lia|]. split; [lia|].
  intros j s Hj Hs. apply slot_lookup in Hs as [_ Hs]. simpl in Hs.
  apply lookup_replicate in Hs as [-> _]. simpl. lia.
Qed.

Lemma options_netOk t u0 k : forall args cfg n cfg' n' evs,
  (length args <= k)%nat ->
  Aux.netOk n /\ 0 <= socketIdxMax n ->
  options t u0 args cfg n = Ret (cfg', n', evs) ->
  Aux.netOk n' /\ 0 <= socketIdxMax n'.
Proof.
  induction k as [|k IH]; intros args cfg n cfg' n' evs Hlen Hok;
    destruct args as [|a rest]; cbn [options];
    try (intros [= <- <- <-]; exact Hok); simpl in Hlen; [lia|].
  assert (Hout : forall ct,
            ('(_, n1, evs1) ← setFdUsed t stdoutfd ct n;
             '(cfg1, n2, evs2) ← options t u0 rest cfg n1;
             Ret (cfg1, n2, evs1 ++ evs2)) = Ret (cfg', n', evs) ->
            Aux.netOk n' /\ 0 <= socketIdxMax n').
  { intros ct.
    destruct (setFdUsed t stdoutfd ct n) as [[[i n1] evs1]| |] eqn:Hset;
      simpl; try discriminate.
    destruct (options t u0 rest cfg n1) as [[[cfg1 n2] evs2]| |] eqn:Ho;
      simpl; try discriminate.
    intros [= <- <- <-]. apply (IH rest cfg n1 cfg1 n2 evs2); [lia| |auto].
    destruct Hok as [Hok Hmax].
    split; [exact (setFdUsed_netOk _ _ _ _ _ _ _ Hok Hset)|].
    destruct (Z.ltb_spec i 0) as [Hneg|Hpos].
    - destruct (setFdUsed_refused _ _ _ _ _ _ _ Hset Hneg) as [-> _].
      exact Hmax.
    - assert (Hge : -1 <= socketIdxMax n) by lia.
      destruct (setFdUsed_takes_first_free_slot_spec _ _ _ _ _ _ _
                  Hge Hset Hpos) as (_ & _ & _ & _ & _ & -> & _).
      lia. }
  destruct (strcasecmp_eq a (lit "-d")); [apply IH; [lia|exact Hok]|].
  destruct (strcasecmp_eq a (lit "-q")); [apply IH; [lia|exact Hok]|].
  destruct (strcasecmp_eq a (lit "-o")); [apply Hout|].
  destruct (strcasecmp_eq a (lit "-r")); [apply Hout|].
  destruct (strcasecmp_eq a (lit "-p")); [|discriminate].
  destruct rest as [|v rest']; [intros [= <- <- <-]; exact Hok|].
  destruct (sscanf_u v) as [ret val]. apply IH; [simpl in Hlen; lia|exact Hok].
Qed.

Lemma main_netOk size t u0 args l1 l2 cfg n evs :
  (2 <= size)%nat ->
  main size t u0 args l1 l2 = Ret (cfg, n, evs) ->
  Aux.netOk n.
Proof.
  intros Hsize. unfold main.
  destruct (main_started size t Hsize) as (n1 & n2 & H1 & H2 & Hst).
  rewrite H1. cbn [mbind result_bind]. rewrite H2. cbn [mbind result_bind].
  assert (Hok2 : Aux.netOk n2 /\ 0 <= socketIdxMax n2).
  { split.
    - apply (setFdUsed_netOk _ _ _ _ _ _ _
               (setFdUsed_netOk _ _ _ _ _ _ _ (netOk_net0 size ltac:(lia)) H1)
               H2).
    - destruct Hst as (_ & _ & _ & _ & _ & _ & ->). lia. }
  destruct (options t u0 args _ n2) as [[[cfg3 n3] e3]| |] eqn:Ho;
    cbn [mbind result_bind]; try discriminate.
  apply (options_netOk _ _ (length args)) in Ho as [Hok3 Hmax3];
    [|lia|exact Hok2].
  assert (Hok : Aux.netOk (resetIdx n3)).
  { destruct Hok3 as (Hmin & Hmax & Hfd & Hall).
    unfold Aux.netOk, FD_SETSIZE in *. simpl.
    split; [lia|]. split; [lia|]. split; [exact Hfd|].
    intros j s Hj Hs. apply (Hall j s); [lia|exact Hs]. }
  unfold startTcpServers, tcpServer.
  destruct (l_socket l1 =? INVALID_SOCKET);
    cbn [mbind result_bind]; [discriminate|].
  destruct (l_bind l1 =? INVALID_SOCKET);
    cbn [mbind result_bind]; [discriminate|].
  destruct (l_listen l1 =? INVALID_SOCKET);
    cbn [mbind result_bind]; [discriminate|].
  destruct (setFdUsed t (l_socket l1) SERVER_JSON (resetIdx n3))
    as [[[i4 n4] e4]| |] eqn:H4; cbn [mbind result_bind]; try discriminate.
  destruct (l_socket l2 =? INVALID_SOCKET);
    cbn [mbind result_bind]; [discriminate|].
  destruct (l_bind l2 =? INVALID_SOCKET);
    cbn [mbind result_bind]; [discriminate|].
  destruct (l_listen l2 =? INVALID_SOCKET);
    cbn [mbind result_bind]; [discriminate|].
  destruct (setFdUsed t (l_socket l2) SERVER_NMEA0183 n4)
    as [[[i5 n5] e5]| |] eqn:H5; cbn [mbind result_bind]; try discriminate.
  intros [= <- <- <-].
  exact (setFdUsed_netOk _ _ _ _ _ _ _
           (setFdUsed_netOk _ _ _ _ _ _ _ Hok H4) H5).
Qed.

Lemma messages_no_abort now ms : forall b, messages now ms b <> Abort.
Proof.
  induction ms as [|m ms IH]; intros b; simpl; [discriminate|].
  destruct (m_time m >=? now); [|apply IH].
  destruct (m_text m); [apply IH|discriminate].
Qed.

Lemma strcpy_no_abort s b : strcpy s b <> Abort.
Proof. unfold strcpy. destruct (_ <? _); discriminate. Qed.

Lemma pgns_no_abort now idx l : forall sep b, pgns now idx l sep b <> Abort.
Proof.
  induction l as [|i l IH]; intros sep b; simpl; [discriminate|].
  destruct (idx !! i) as [pgn|]; [|discriminate].
  destruct (p_description pgn) as [desc|]; [|discriminate].
  destruct (messages now _ _) as [b3| |] eqn:Hm; simpl;
    [|exfalso; exact (messages_no_abort _ _ _ Hm)|discriminate].
  destruct (strcpy _ b3) as [b4| |] eqn:Hs; simpl;
    [|exfalso; exact (strcpy_no_abort _ _ Hs)|discriminate].
  apply IH.
Qed.

Lemma getFullStateJSON_no_abort secs d : getFullStateJSON secs d <> Abort.
Proof.
  unfold getFullStateJSON.
  destruct (pgns secs _ _ _ _) as [[sep b]| |] eqn:Hp; simpl;
    [|exfalso; exact (pgns_no_abort _ _ _ _ _ Hp)|discriminate].
  destruct (strcpy _ b) as [b'| |] eqn:Hs; simpl;
    [discriminate|exfalso; exact (strcpy_no_abort _ _ Hs)|discriminate].
Qed.

Lemma closeStream_no_abort i n : closeStream i n <> Abort.
Proof. unfold closeStream. destruct (slot n i); discriminate. Qed.

Lemma writeStep_no_abort ws t secs d j w :
  Aux.netOk (w_net w) -> j <= socketIdxMax (w_net w) ->
  writeStep ws t secs d j w <> Abort.
Proof.
  intros (_ & _ & _ & Hall) Hj. unfold writeStep.
  destruct (slot (w_net w) j) as [s|] eqn:Hs; [|discriminate].
  destruct (fd s <? 0); [discriminate|].
  pose proof (Hall j s Hj Hs) as Hle.
  destruct (Z.gtb_spec (fd s) (socketFdMax (w_net w))); [lia|].
  destruct (negb (FD_ISSET (fd s) (writeSet _))); [discriminate|].
  destruct (negb (FD_ISSET (fd s) ws)).
  { destruct (closeStream j (w_net w)) as [[n' evs]| |] eqn:Hc; simpl;
      [discriminate|exfalso; exact (closeStream_no_abort _ _ Hc)|discriminate]. }
  destruct (type s); try discriminate.
  destruct (negb _ && _); [|discriminate].
  destruct (match w_state w with Some _ => _ | None => _ end) as [st| |] eqn:Hg;
    simpl; [| |discriminate].
  - destruct (closeStream j (w_net w)) as [[n' evs]| |] eqn:Hc; simpl;
      [discriminate|exfalso; exact (closeStream_no_abort _ _ Hc)|discriminate].
  - exfalso. destruct (w_state w); [discriminate|].
    exact (getFullStateJSON_no_abort _ _ Hg).
Qed.

Lemma writeAllClients_no_abort r ready t secs n d :
  Aux.netOk n -> writeAllClients r ready t secs n d <> Abort.
Proof.
  intros Hok. unfold writeAllClients.
  destruct (socketIdxMax n >=? 0); [|discriminate].
  assert (Hloop : forall fuel j w,
            Aux.netOk (w_net w) ->
            writeLoop fuel (writeSet n ∩ ready) t secs d j w <> Abort).
  { induction fuel as [|fuel IH]; intros j w Hw; simpl; [discriminate|].
    destruct (w_r w >? 0); simpl; [|discriminate].
    destruct (Z.leb_spec j (socketIdxMax (w_net w))) as [Hle|];
      [|discriminate].
    destruct (writeStep _ t secs d j w) as [w1| |] eqn:Hstep; simpl.
    - apply IH. exact (writeStep_netOk_ret _ _ _ _ _ _ _ Hw Hstep).
    - exfalso. exact (writeStep_no_abort _ _ _ _ _ _ Hw Hle Hstep).
    - discriminate. }
  destruct (writeLoop _ _ _ _ _ _ _) as [w| |] eqn:Hl; simpl;
    [discriminate| |discriminate].
  exfalso. revert Hl. apply Hloop. exact Hok.
Qed.

(** X16: The table stays consistent.  [main] hands a table that satisfies
    the invariant to the server loop, and every pass of the loop that
    returns keeps it: the indices in use stay inside [stream], and no
    slot up to [socketIdxMax] holds a descriptor above [socketFdMax].
    The check of lines 505 to 508 therefore never fires. *)
Theorem table_invariant_is_kept
    size t u0 args l1 l2 cfg n evs0 hfuel h0 junk ks n' d d' evs :
  (2 <= size)%nat ->
  main size t u0 args l1 l2 = Ret (cfg, n, evs0) ->
  doServerWork hfuel h0 junk ks n d = Some (Ret (n', d', evs)) ->
  Aux.netOk n /\ Aux.netOk n' /\
  forall r ready t' secs d1, writeAllClients r ready t' secs n' d1 <> Abort.
Proof.
  intros Hsize Hm Hwork.
  pose proof (main_netOk _ _ _ _ _ _ _ _ _ Hsize Hm) as Hok.
  pose proof (doServerWork_netOk _ _ _ _ _ _ _ _ _ Hok Hwork) as Hok'.
  split; [exact Hok|]. split; [exact Hok'|].
  intros r ready t' secs d1. exact (writeAllClients_no_abort _ _ _ _ _ _ Hok').
Qed.

Lemma table_invariant_is_kept_witness :
  exists cfg n evs0 n' d' evs,
    main 8 999000 0 [lit "-o"] Ex.listener_json Ex.listener_nmea
    = Ret (cfg, n, evs0) /\
    doServerWork 10 Ex.h0 0 [Ex.tick_accept] n data0
    = Some (Ret (n', d', evs)) /\
    Aux.netOk n'.
Proof.
  destruct (main 8 999000 0 [lit "-o"] Ex.listener_json Ex.listener_nmea)
    as [[[cfg n] evs0]| |] eqn:Hm; try (vm_compute in Hm; discriminate).
  pose proof Hm as Hm'. vm_compute in Hm'. injection Hm' as _ Hn _.
  destruct (doServerWork 10 Ex.h0 0 [Ex.tick_accept] n data0)
    as [[[[n' d'] evs]| |]|] eqn:Hw;
    try (rewrite <- Hn in Hw; vm_compute in Hw; discriminate).
  destruct (table_invariant_is_kept 8 999000 0 [lit "-o"]
              Ex.listener_json Ex.listener_nmea cfg n evs0 10 Ex.h0 0
              [Ex.tick_accept] n' data0 d' evs ltac:(lia) Hm Hw)
    as (_ & Hok & _).
  exists cfg, n, evs0, n', d', evs.
  split; [reflexivity|]. split; [exact Hw|exact Hok].
Defined.

(** ** Witnesses for the accumulator, the expiry and the serializer *)

(** X17: The terminator of the accumulator.  [appendJSONMessage] grows
    the block by the length of the message and stores one byte more.
    While the text held is no longer than the block, which is so at the
    start and is kept by every call, the free part of the block never
    gets larger, and the store stays inside the block exactly when the
    block is longer than the text held and its free part does not have
    exactly the length of the message. *)
Theorem accumulator_terminator_bound message d :
  Z.of_nat (currentLen d) <= currentAlloc d ->
  let d' := appendJSONMessage message d in
  Z.of_nat (currentLen d') <= currentAlloc d' /\
  currentAlloc d' - Z.of_nat (currentLen d')
    <= currentAlloc d - Z.of_nat (currentLen d) /\
  (appendInBounds message d <->
     Z.of_nat (currentLen d) < currentAlloc d /\
     currentAlloc d - Z.of_nat (currentLen d) <> Z.of_nat (strlen message)).
Proof.
  intros Hinv d'.
  assert (Hlen : currentLen d' = (currentLen d + strlen message)%nat).
  { unfold d', currentLen, appendJSONMessage, strlen. simpl.
    apply length_app. }
  assert (Halloc : currentAlloc d'
                   = if currentAlloc d
                        <? Z.of_nat (currentLen d) + Z.of_nat (strlen message)
                     then currentAlloc d + Z.of_nat (strlen message)
                     else currentAlloc d) by reflexivity.
  unfold appendInBounds. fold d'. rewrite Hlen, Halloc.
  destruct (Z.ltb_spec (currentAlloc d)
              (Z.of_nat (currentLen d) + Z.of_nat (strlen message))); lia.
Qed.

(** A witness: on the empty accumulator of the start, whose block has
    no byte, the terminator of the depth record is stored outside the
    block. *)
Lemma accumulator_terminator_bound_witness :
  Z.of_nat (currentLen data0) <= currentAlloc data0 /\
  ~ appendInBounds (Ex.line_depth ++ [NUL]) data0.
Proof.
  assert (H : Z.of_nat (currentLen data0) <= currentAlloc data0)
    by (vm_compute; discriminate).
  split; [exact H|]. intros Hb.
  apply (accumulator_terminator_bound (Ex.line_depth ++ [NUL]) data0 H) in Hb
    as [Hlt _].
  vm_compute in Hlt. discriminate.
Defined.

(** X18: The expiry of a stored record depends on its PGN alone.  A line of
    fewer than 4096 bytes that passes the checks, with a PGN from
    [MIN_PGN] on and a description that is not left open, is stored
    (there being room for its PGN, and for its terminator in the block
    of the accumulator) in a slot that expires 3600 seconds after [now]
    for PGN 126996, 31 days after [now] for PGN 130816, and 120 seconds
    after [now] for every other PGN, whichever key field matched. *)
Theorem expiry_follows_the_pgn h0 junk now line d src prn k key2 :
  (length line < 4096)%nat ->
  appendInBounds (line ++ [NUL]) d ->
  parseLine h0 line = Some (src, prn, k, key2) ->
  MIN_PGN <= prn ->
  is_Some (pgnIdx d !! (prn - MIN_PGN)) \/ (maxPgnList d < 512)%nat ->
  openDescription (line ++ [NUL]) = false ->
  exists d' pgn' m,
    handleLine h0 junk now line d = Ret d' /\
    pgnIdx d' !! (prn - MIN_PGN) = Some pgn' /\
    (m ∈ p_message pgn') /\
    m_text m = Some (cstring (line ++ [NUL])) /\
    m_time m = now + (if prn =? 126996 then AIS_TIMEOUT
                      else if prn =? 130816 then SONICHUB_TIMEOUT
                      else SENSOR_TIMEOUT).
Proof.
  intros Hlen _.
  exact (stored_expiry_depends_on_pgn_only h0 junk now line d src prn k key2
           Hlen).
Qed.

(** A witness: the AIS record read after the depth record has been sent
    on. *)
Lemma expiry_follows_the_pgn_witness :
  (length Ex.line_user_id < 4096)%nat /\
  appendInBounds (Ex.line_user_id ++ [NUL]) (clearCurrent Ex.store_depth) /\
  exists d' pgn' m,
    handleLine Ex.h0 0 1000 Ex.line_user_id (clearCurrent Ex.store_depth)
      = Ret d' /\
    pgnIdx d' !! (129038 - MIN_PGN) = Some pgn' /\
    (m ∈ p_message pgn') /\
    m_text m = Some (cstring (Ex.line_user_id ++ [NUL])) /\
    m_time m = 1000 + SENSOR_TIMEOUT.
Proof.
  assert (Hlen : (length Ex.line_user_id < 4096)%nat)
    by (apply Nat.ltb_lt; vm_compute; reflexivity).
  assert (Hb : appendInBounds (Ex.line_user_id ++ [NUL])
                 (clearCurrent Ex.store_depth))
    by (vm_compute; discriminate).
  assert (Hp : parseLine Ex.h0 Ex.line_user_id
               = Some (7, 129038, 5%nat, Some (lit "244123456")))
    by (vm_compute; reflexivity).
  assert (Hlow : MIN_PGN <= 129038) by (vm_compute; discriminate).
  assert (Hroom : is_Some (pgnIdx (clearCurrent Ex.store_depth)
                             !! (129038 - MIN_PGN)) \/
                  (maxPgnList (clearCurrent Ex.store_depth) < 512)%nat)
    by (right; vm_compute; lia).
  assert (Hopen : openDescription (Ex.line_user_id ++ [NUL]) = false)
    by (vm_compute; reflexivity).
  split; [exact Hlen|]. split; [exact Hb|].
  destruct (expiry_follows_the_pgn Ex.h0 0 1000 Ex.line_user_id
              (clearCurrent Ex.store_depth) 7 129038 5%nat
              (Some (lit "244123456")) Hlen Hb Hp Hlow Hroom Hopen)
    as (d' & pgn' & m & H1 & H2 & H3 & H4 & H5).
  exists d', pgn', m. auto.
Defined.

(** X19: The snapshot of a store whose entries fit is the listing the
    specification words: the entries of [pgnList] in list order, each
    with its heading, then its slots in slot order, those with
    [now <= m_time] and no others, between the opening brace of the
    first heading and a closing brace; for the empty store a newline. *)
Theorem snapshot_is_the_listing now d :
  snapshotFits now d ->
  getFullStateJSON now d = Ret (snapshotText now d).
Proof. exact (getFullStateJSON_fits now d). Qed.

Lemma snapshot_is_the_listing_witness :
  snapshotFits 1000 Ex.store_depth /\
  getFullStateJSON 1000 Ex.store_depth
  = Ret (snapshotText 1000 Ex.store_depth).
Proof.
  assert (Hfit : snapshotFits 1000 Ex.store_depth).
  { intros i Hi. apply list_elem_of_singleton in Hi. subst i.
    exists Ex.pgn_depth. split; [reflexivity|].
    split; [|split].
    - exists (lit "Water Depth"). split; [reflexivity|]. vm_compute. lia.
    - vm_compute. lia.
    - intros m Hm _. apply list_elem_of_singleton in Hm. subst m.
      exists (cstring (Ex.line_depth ++ [NUL])).
      split; [vm_compute; reflexivity|].
      split; [apply Nat.leb_le; vm_compute; reflexivity|].
      split; [vm_compute; lia|exact I]. }
  split; [exact Hfit|]. exact (snapshot_is_the_listing 1000 Ex.store_depth Hfit).
Defined.

Lemma netOk_intro n :
  0 <= socketIdxMin n ->
  -1 <= socketIdxMax n < FD_SETSIZE n ->
  -1 <= socketFdMax n ->
  Forall (fun s => fd s <= socketFdMax n) (stream n) ->
  Aux.netOk n.
Proof.
  intros Hmin Hmax Hfd Hall. split; [exact Hmin|]. split; [exact Hmax|].
  split; [exact Hfd|]. intros j s _ Hs. apply slot_lookup in Hs as [_ Hs].
  rewrite Forall_lookup in Hall. exact (Hall _ _ Hs).
Qed.

Lemma netOk_example : Aux.netOk (Ex.net_with CLIENT_JSON).
Proof.
  apply netOk_intro; try (vm_compute; intuition discriminate).
  repeat (apply Forall_cons; split; [vm_compute; discriminate|]).
  constructor.
Qed.

Lemma write_phase_returns_witness :
  exists n' evs,
    writeAllClients 2 {[ 1; 5 ]} 1000 1000 (Ex.net_with CLIENT_JSON)
      Ex.store_depth = Ret (n', clearCurrent Ex.store_depth, evs) /\
    Aux.netOk n'.
Proof.
  apply (write_phase_returns 2 {[ 1; 5 ]} 1000 1000 (Ex.net_with CLIENT_JSON)
           Ex.store_depth netOk_example).
  eexists. vm_compute. reflexivity.
Defined.

(** ** Descriptor 0 in the read phase *)

Lemma readLoop_idle hfuel h0 junk now t inp rs n d out r fuel : forall i,
  0 <= i ->
  0 <= socketIdxMax n < FD_SETSIZE n ->
  fuel = (length (stream n) - Z.to_nat i)%nat ->
  (forall j s, i <= j -> slot n j = Some s ->
               0 <= fd s /\ (fd s ∈ rs -> fd s = 0)) ->
  readLoop fuel hfuel h0 junk now t inp rs i r n d out
  = Some (Ret (n, d, out)).
Proof.
  unfold FD_SETSIZE.
  induction fuel as [|fuel IH]; intros i Hi Hmax Hfuel Hall; cbn [readLoop].
  - destruct (r >? 0); [|reflexivity]. simpl.
    destruct (Z.ltb_spec (socketIdxMax n) 0); [lia|]. simpl.
    destruct (Z.leb_spec i (socketIdxMax n)); [lia|reflexivity].
  - destruct (r >? 0); [|reflexivity]. simpl.
    destruct (Z.ltb_spec (socketIdxMax n) 0); [lia|]. simpl.
    destruct (Z.leb_spec i (socketIdxMax n)); [|reflexivity].
    destruct (slot_is_Some n i) as [s Hs]; [unfold FD_SETSIZE; lia|].
    rewrite Hs. destruct (Hall i s ltac:(lia) Hs) as [Hpos Hrs].
    assert (Hnext : readLoop fuel hfuel h0 junk now t inp rs (i + 1) r n d out
                    = Some (Ret (n, d, out))).
    { apply IH; [lia|lia|lia|]. intros j sj Hj. apply Hall. lia. }
    destruct (Z.eqb_spec (fd s) 0); [exact Hnext|].
    destruct (Z.ltb_spec (fd s) 0); [lia|].
    unfold FD_ISSET. case_bool_decide as Hin; [|exact Hnext].
    exfalso. auto.
Qed.

(** X20: Standard input is never read.  The read phase passes over each slot
    whose descriptor is 0, so when descriptor 0 is the only one that
    [select] reports readable, no handler runs: the table, the store and
    the outside are as before, whatever was waiting on standard input. *)
Theorem input_on_descriptor_0_is_not_read
    hfuel h0 junk now t inp r ready n d :
  0 <= socketIdxMin n ->
  0 <= socketIdxMax n < FD_SETSIZE n ->
  (forall s, s ∈ stream n -> 0 <= fd s) ->
  (forall x, x ∈ ready -> x = 0) ->
  checkReadEvents hfuel h0 junk now t inp r ready n d = Some (Ret (n, d, [])).
Proof.
  intros Hmin Hmax Hfds Hready. unfold checkReadEvents.
  apply readLoop_idle; [exact Hmin|exact Hmax|reflexivity|].
  intros j s _ Hs. apply slot_lookup in Hs as [_ Hs]. split.
  - apply Hfds. apply list_elem_of_lookup. eauto.
  - intros Hin. apply elem_of_intersection in Hin as [_ Hin]. auto.
Qed.

Lemma input_on_descriptor_0_is_not_read_witness :
  checkReadEvents 10 Ex.h0 0 1000 1000
    {| reads := fun _ => Ex.line_depth ++ [LF]; pendings := fun _ => [] |}
    1 {[ 0 ]} Ex.net_copy data0
  = Some (Ret (Ex.net_copy, data0, [])).
Proof.
  apply input_on_descriptor_0_is_not_read.
  - vm_compute. discriminate.
  - vm_compute. intuition discriminate.
  - intros s Hs. repeat (apply elem_of_cons in Hs as [->|Hs];
                         [vm_compute; discriminate|]).
    apply elem_of_nil in Hs. contradiction.
  - intros x Hx. apply elem_of_singleton in Hx. exact Hx.
Defined.

(** ** The option [-p] *)

Lemma sscanf_u_number v p tail :
  0 <= p < 2 ^ 32 ->
  cstring v = print_u p ++ tail ->
  match tail with c :: _ => isdigit c = false | [] => True end ->
  sscanf_u v = (1, Some p).
Proof.
  intros Hp Hv Htail. unfold sscanf_u. rewrite Hv.
  rewrite (scan_u_print_u p tail Hp Htail).
  unfold print_u.
  destruct (numeral_head (Z.to_N p)) as (c & tl & -> & _ & Hs & _).
  simpl. rewrite Hs. reflexivity.
Qed.

(** X21: The port given with [-p] is cut to 16 bits.  When the value of the
    option starts with a decimal number below 2^32, whatever follows
    the number, the port becomes that number modulo 65536: the value
    70000 makes the server listen on 4464. *)
Theorem port_option_is_cut_to_16_bits t u0 v p tail rest cfg n :
  0 <= p < 2 ^ 32 ->
  cstring v = print_u p ++ tail ->
  match tail with c :: _ => isdigit c = false | [] => True end ->
  options t u0 (lit "-p" :: v :: rest) cfg n
  = options t u0 rest {| logLevel := logLevel cfg; port := p mod 65536 |} n.
Proof.
  intros Hp Hv Htail. cbn [options].
  change (strcasecmp_eq (lit "-p") (lit "-d")) with false.
  change (strcasecmp_eq (lit "-p") (lit "-q")) with false.
  change (strcasecmp_eq (lit "-p") (lit "-o")) with false.
  change (strcasecmp_eq (lit "-p") (lit "-r")) with false.
  change (strcasecmp_eq (lit "-p") (lit "-p")) with true. cbv iota.
  rewrite (sscanf_u_number v p tail Hp Hv Htail). reflexivity.
Qed.

Lemma port_option_is_cut_to_16_bits_witness :
  options 0 0 [lit "-p"; lit "70000"] {| logLevel := None; port := PORT |}
    (net0 8)
  = Ret ({| logLevel := None; port := 4464 |}, net0 8, []).
Proof.
  rewrite (port_option_is_cut_to_16_bits 0 0 (lit "70000") 70000 [] []
             {| logLevel := None; port := PORT |} (net0 8));
    [reflexivity|lia|reflexivity|exact I].
Defined.

(** X22: An option [-p] whose value holds no number at all, only white space
    or nothing, still sets the port: [sscanf] returns [EOF], which the
    test of line 938 takes for success, and the port becomes whatever
    the local [uPort] held, cut to 16 bits. *)
Theorem port_option_without_value_sets_port t u0 v rest cfg n :
  skip_space (cstring v) = [] ->
  options t u0 (lit "-p" :: v :: rest) cfg n
  = options t u0 rest {| logLevel := logLevel cfg; port := u0 mod 65536 |} n.
Proof.
  intros Hv. cbn [options].
  change (strcasecmp_eq (lit "-p") (lit "-d")) with false.
  change (strcasecmp_eq (lit "-p") (lit "-q")) with false.
  change (strcasecmp_eq (lit "-p") (lit "-o")) with false.
  change (strcasecmp_eq (lit "-p") (lit "-r")) with false.
  change (strcasecmp_eq (lit "-p") (lit "-p")) with true. cbv iota.
  unfold sscanf_u. rewrite Hv. reflexivity.
Qed.

Lemma port_option_without_value_sets_port_witness :
  options 0 12345678 [lit "-p"; lit " "] {| logLevel := None; port := PORT |}
    (net0 8)
  = Ret ({| logLevel := None; port := 24910 |}, net0 8, []).
Proof.
  rewrite (port_option_without_value_sets_port 0 12345678 (lit " ") []
             {| logLevel := None; port := PORT |} (net0 8));
    reflexivity.
Defined.

(** ** What the serializer needs *)

Lemma messages_Ret now ms : forall b b',
  messages now ms b = Ret b' ->
  forall m, m ∈ ms -> now <= m_time m -> is_Some (m_text m).
Proof.
  induction ms as [|m0 ms IH]; intros b b' Hr m Hm Hlive.
  - apply elem_of_nil in Hm. contradiction.
  - simpl in Hr. apply elem_of_cons in Hm as [->|Hm].
    + destruct (Z.geb_spec (m_time m0) now); [|lia].
      destruct (m_text m0); [eauto|discriminate].
    + destruct (m_time m0 >=? now).
      * destruct (m_text m0); [|discriminate]. exact (IH _ _ Hr m Hm Hlive).
      * exact (IH _ _ Hr m Hm Hlive).
Qed.

Lemma pgns_Ret now idx l : forall sep b r,
  pgns now idx l sep b = Ret r ->
  forall i, i ∈ l ->
    exists pgn desc, idx !! i = Some pgn /\ p_description pgn = Some desc /\
      forall m, m ∈ p_message pgn -> now <= m_time m -> is_Some (m_text m).
Proof.
  induction l as [|i0 l IH]; intros sep b r Hr i Hi.
  - apply elem_of_nil in Hi. contradiction.
  - simpl in Hr. destruct (idx !! i0) as [pgn|] eqn:Hpgn; [|discriminate].
    destruct (p_description pgn) as [desc|] eqn:Hdesc; [|discriminate].
    destruct (messages now _ _) as [b3| |] eqn:Hm; simpl in Hr;
      try discriminate.
    destruct (strcpy _ b3) as [b4| |]; simpl in Hr; try discriminate.
    apply elem_of_cons in Hi as [->|Hi].
    + exists pgn, desc. split; [exact Hpgn|]. split; [exact Hdesc|].
      exact (messages_Ret _ _ _ _ Hm).
    + exact (IH _ _ _ Hr i Hi).
Qed.

(** X23: When the serializer returns.  On a store whose sizes fit the
    buffer arithmetic of the serializer, the snapshot is the listing if
    every index of the list has an entry with a description, in which
    every slot that has not expired has a text; if not, the serializer
    reads through a null pointer and has no defined result. *)
Theorem snapshot_needs_every_description secs d :
  Aux.sizesFit secs d ->
  (Aux.described secs d ->
   getFullStateJSON secs d = Ret (snapshotText secs d)) /\
  (~ Aux.described secs d -> getFullStateJSON secs d = Undef).
Proof.
  intros Hsize. split.
  - intros Hdesc. apply getFullStateJSON_fits. intros i Hi.
    destruct (Hdesc i Hi) as (pgn & desc & Hpgn & Hd & Htext).
    destruct (Hsize i pgn Hi Hpgn) as (Hdlen & Hprn & Hms).
    exists pgn. split; [exact Hpgn|]. split; [|split].
    + exists desc. split; [exact Hd|exact (Hdlen desc Hd)].
    + exact Hprn.
    + intros m Hm Hlive. destruct (Htext m Hm Hlive) as [text Ht].
      destruct (Hms m Hm Hlive) as (Htl & Hsrc & Hkey).
      exists text. split; [exact Ht|]. split; [exact (Htl text Ht)|].
      split; [exact Hsrc|].
      destruct (m_key2 m) as [key|]; [exact (Hkey key eq_refl)|exact I].
  - intros Hno.
    destruct (getFullStateJSON secs d) as [st| |] eqn:Hr; [| |reflexivity].
    + exfalso. apply Hno. unfold getFullStateJSON in Hr.
      destruct (pgns secs _ _ _ _) as [[sep b]| |] eqn:Hp; simpl in Hr;
        try discriminate.
      exact (pgns_Ret _ _ _ _ _ _ Hp).
    + exfalso. exact (getFullStateJSON_no_abort _ _ Hr).
Qed.

(** A witness: the store that holds the depth record. *)
Lemma snapshot_needs_every_description_witness :
  Aux.sizesFit 1000 Ex.store_depth /\
  Aux.described 1000 Ex.store_depth /\
  getFullStateJSON 1000 Ex.store_depth
    = Ret (snapshotText 1000 Ex.store_depth).
Proof.
  assert (Hsize : Aux.sizesFit 1000 Ex.store_depth).
  { intros i pgn Hi Hpgn. apply list_elem_of_singleton in Hi. subst i.
    vm_compute in Hpgn. injection Hpgn as <-.
    split; [|split].
    - intros desc [= <-]. apply Nat.leb_le. vm_compute. reflexivity.
    - apply Nat.leb_le. vm_compute. reflexivity.
    - intros m Hm _. apply list_elem_of_singleton in Hm. subst m.
      split; [|split].
      + intros text [= <-]. apply Nat.leb_le. vm_compute. reflexivity.
      + apply Nat.leb_le. vm_compute. reflexivity.
      + intros key [=]. }
  assert (Hdesc : Aux.described 1000 Ex.store_depth).
  { intros i Hi. apply list_elem_of_singleton in Hi. subst i.
    exists Ex.pgn_depth, (lit "Water Depth").
    split; [reflexivity|]. split; [reflexivity|].
    intros m Hm _. apply list_elem_of_singleton in Hm. subst m.
    simpl. eauto. }
  split; [exact Hsize|]. split; [exact Hdesc|].
  exact (proj1 (snapshot_needs_every_description 1000 Ex.store_depth Hsize)
           Hdesc).
Defined.

(** A store that lists a PGN without description has no snapshot, but
    not for ever: the insertion of a later record of that PGN sets the
    description (lines 682-708). *)
Example description_set_by_later_record :
  forall d pgn, pgnList d = [128267 - MIN_PGN] ->
    pgnIdx d !! (128267 - MIN_PGN) = Some pgn ->
    p_description pgn = None ->
    ~ Aux.described 1000 d /\
    exists d',
      insertRecord 0 1000 (Ex.line_depth ++ [NUL]) 1 128267 5 None d = Ret d' /\
      (p_description <$> pgnIdx d' !! (128267 - MIN_PGN))
      = Some (Some (lit "Water Depth")).
Proof.
  intros d pgn Hlist Hidx Hnone. split.
  - intros Hd. destruct (Hd (128267 - MIN_PGN)) as (pgn' & desc & Hp & Hn & _).
    { rewrite Hlist. apply list_elem_of_singleton. reflexivity. }
    congruence.
  - unfold insertRecord. change (PrnToIdx 128267) with (128267 - MIN_PGN).
    change (128267 - MIN_PGN <? INT_MIN) with false.
    change (128267 - MIN_PGN <? 0) with false. cbv iota.
    unfold lookupPgn. rewrite Hidx. rewrite result_bind_Ret.
    assert (Hdes : describe (Ex.line_depth ++ [NUL]) 128267 pgn
                   = Some {| p_prn := 128267;
                             p_description := Some (lit "Water Depth");
                             p_message := p_message pgn |}).
    { unfold describe. rewrite Hnone. vm_compute. reflexivity. }
    rewrite Hdes. cbn [p_message p_prn p_description].
    destruct (chooseSlot _ _ _ _ _) as [i ms]. eexists. split; [reflexivity|].
    unfold setPgn. cbn [pgnIdx]. rewrite lookup_insert_eq. reflexivity.
Qed.

(** ** The width of a printed number *)






(** ** From a line to the snapshot *)









(** ** Accepting connections *)

Lemma setFdUsed_keeps t x ct n i n' evs :
  -1 <= socketIdxMax n ->
  setFdUsed t x ct n = Ret (i, n', evs) ->
  -1 <= socketIdxMax n' /\
  forall j s, slot n j = Some s -> j <= socketIdxMax n ->
    fd s <> -1 -> fd s <> x ->
    slot n' j = Some s /\ j <= socketIdxMax n'.
Proof.
  intros Hmax Hr. destruct (Z.ltb_spec i 0) as [Hneg|Hpos].
  - destruct (setFdUsed_refused _ _ _ _ _ _ _ Hr Hneg) as [-> _]. auto.
  - destruct (setFdUsed_takes_first_free_slot_spec _ _ _ _ _ _ _ Hmax Hr Hpos)
      as (_ & _ & _ & (si & Hsi & Hfree & _) & Hother & Hmax' & _).
    split; [lia|]. intros j s Hs Hj Hopen Hx.
    assert (Hne : j <> i).
    { intros ->. rewrite Hsi in Hs. injection Hs as <-.
      destruct (Hfree Hj); contradiction. }
    rewrite (Hother j Hne). split; [exact Hs|lia].
Qed.

Lemma acceptClient_spec t ct pending : forall n n' evs,
  -1 <= socketIdxMax n ->
  acceptClient t pending ct n = Ret (n', evs) ->
  -1 <= socketIdxMax n' /\
  (forall j s, slot n j = Some s -> j <= socketIdxMax n ->
     fd s <> -1 -> (fd s ∉ Aux.accepted pending) ->
     slot n' j = Some s /\ j <= socketIdxMax n') /\
  (evs = [] ->
   forall r, r ∈ Aux.accepted pending ->
     exists i s, slot n' i = Some s /\ fd s = r /\ type s = ct /\
                 i <= socketIdxMax n').
Proof.
  induction pending as [|r rest IH]; intros n n' evs Hmax;
    cbn [acceptClient Aux.accepted].
  - intros [= <- <-]. split; [exact Hmax|]. split; [auto|].
    intros _ r Hr. apply elem_of_nil in Hr. contradiction.
  - destruct (Z.eqb_spec r INVALID_SOCKET) as [|Hr].
    { intros [= <- <-]. split; [exact Hmax|]. split; [auto|].
      intros _ r' Hr'. apply elem_of_nil in Hr'. contradiction. }
    destruct (setFdUsed t r ct n) as [[[i n1] evs1]| |] eqn:Hset;
      simpl; try discriminate.
    destruct (setFdUsed_keeps _ _ _ _ _ _ _ Hmax Hset) as [Hmax1 Hkeep1].
    destruct (Z.ltb_spec i 0) as [Hneg|Hpos].
    { intros [= <- <-].
      destruct (setFdUsed_refused _ _ _ _ _ _ _ Hset Hneg) as [-> ->].
      split; [exact Hmax|]. split; [auto|]. discriminate. }
    destruct (acceptClient t rest ct n1) as [[n2 evs2]| |] eqn:Hacc;
      simpl; try discriminate.
    intros [= <- <-].
    destruct (IH _ _ _ Hmax1 Hacc) as (Hmax2 & Hkeep2 & Hreg2).
    split; [exact Hmax2|]. split.
    + intros j s Hs Hj Hopen Hnot. apply not_elem_of_cons in Hnot as [Hne Hnot].
      destruct (Hkeep1 j s Hs Hj Hopen Hne) as [Hs1 Hj1].
      exact (Hkeep2 j s Hs1 Hj1 Hopen Hnot).
    + intros Hevs r' Hr'. apply app_eq_nil in Hevs as [_ Hevs2].
      destruct (decide (r' ∈ Aux.accepted rest)) as [Hin|Hout];
        [exact (Hreg2 Hevs2 r' Hin)|].
      apply elem_of_cons in Hr' as [->|Hr']; [|contradiction].
      destruct (setFdUsed_takes_first_free_slot_spec _ _ _ _ _ _ _
                  Hmax Hset Hpos)
        as (_ & _ & _ & (si & _ & _ & Hnew) & _ & Hmax' & _).
      destruct (Hkeep2 _ _ Hnew ltac:(lia)) as [Hs2 Hi2].
      * simpl. unfold INVALID_SOCKET in Hr. exact Hr.
      * exact Hout.
      * eexists _, _. split; [exact Hs2|]. simpl. auto.
Qed.

(** X25: [acceptClient] registers the connections it accepts without
    disturbing the streams in use.  A slot up to [socketIdxMax] that
    holds an open descriptor other than the accepted ones is left as it
    was; and unless one connection was refused and closed, every
    accepted connection holds a slot of the requested type when the
    call returns. *)
Theorem accept_registers_without_disturbing t ct pending n n' evs :
  -1 <= socketIdxMax n ->
  acceptClient t pending ct n = Ret (n', evs) ->
  (forall j s, slot n j = Some s -> j <= socketIdxMax n ->
     fd s <> -1 -> (fd s ∉ Aux.accepted pending) -> slot n' j = Some s) /\
  (evs = [] ->
   forall r, r ∈ Aux.accepted pending ->
     exists i s, slot n' i = Some s /\ fd s = r /\ type s = ct).
Proof.
  intros Hmax Hacc.
  destruct (acceptClient_spec _ _ _ _ _ _ Hmax Hacc) as (_ & Hkeep & Hreg).
  split.
  - intros j s Hs Hj Hopen Hnot. exact (proj1 (Hkeep j s Hs Hj Hopen Hnot)).
  - intros Hevs r Hr. destruct (Hreg Hevs r Hr) as (i & s & Hs & Hfd & Hty & _).
    eauto.
Qed.

Lemma accept_registers_without_disturbing_witness :
  exists n' i s,
    acceptClient 1000 [7; -1; 9] CLIENT_JSON Ex.net_free_slot = Ret (n', []) /\
    slot n' 3 = slot Ex.net_free_slot 3 /\
    slot n' i = Some s /\ fd s = 7 /\ type s = CLIENT_JSON.
Proof.
  destruct (acceptClient 1000 [7; -1; 9] CLIENT_JSON Ex.net_free_slot)
    as [[n' evs]| |] eqn:Hacc; try (vm_compute in Hacc; discriminate).
  assert (Hevs : evs = []) by (vm_compute in Hacc; congruence). subst evs.
  destruct (accept_registers_without_disturbing 1000 CLIENT_JSON
              [7; -1; 9] Ex.net_free_slot n' []
              ltac:(vm_compute; discriminate) Hacc) as [Hkeep Hreg].
  destruct (Hreg eq_refl 7) as (i & s & Hs & Hfd & Hty).
  { simpl. apply elem_of_cons. left. reflexivity. }
  exists n', i, s. split; [reflexivity|].
  split; [|auto].
  rewrite (Hkeep 3 (Ex.mkS 5 CLIENT_JSON 500)); [reflexivity|reflexivity| | |].
  - vm_compute. discriminate.
  - vm_compute. discriminate.
  - simpl. intros Hin. repeat (apply elem_of_cons in Hin as [Hin|Hin];
                               [discriminate|]).
    apply elem_of_nil in Hin. exact Hin.
Defined.

(** ** The request reader in copy mode *)

Lemma find_chr_end c line : (c ∉ line) -> find_chr c (line ++ [c]) = Some (length line).
Proof.
  induction line as [|x line IH]; intros H; simpl.
  - rewrite Ascii.eqb_refl. reflexivity.
  - apply not_elem_of_cons in H as [Hx H].
    destruct (Ascii.eqb_spec x c); [congruence|]. rewrite IH by exact H.
    reflexivity.
Qed.

(** X26: In copy mode a line goes from a stream to the store.  When slot
    [stdoutfd] has type [DATA_OUTPUT_COPY] and a stream with an empty
    buffer delivers, in one [read], one line with its newline and
    without the marker, [handleClientRequest] returns after two passes
    of its loop: the line has been fed byte by byte, newline included,
    to [handleMessageByte]; nothing is written or closed; the buffer of
    the stream counts as empty again, and no other slot has changed. *)
Theorem copy_mode_feeds_the_line fuel h0 junk now line i n d d' s :
  slot n i = Some s ->
  len s = 0 ->
  length (buffer s) = 4096%nat ->
  (S (length line) < 4096)%nat ->
  (NUL ∉ line) -> (LF ∉ line) ->
  find_sub marker (line ++ [LF]) = None ->
  outputType n = Some DATA_OUTPUT_COPY ->
  feed h0 junk now (line ++ [LF]) d = Ret d' ->
  exists n' s',
    handleClientRequest (S (S fuel)) h0 junk now (line ++ [LF]) i n d
    = Some (Ret (n', d', [])) /\
    slot n' i = Some s' /\ len s' = 0 /\ type s' = type s /\ fd s' = fd s /\
    forall j, j <> i -> slot n' j = slot n j.
Proof.
  intros Hs Hlen Hsize Hroom Hnul Hlf Hmark Hout Hfeed.
  set (rd := line ++ [LF]) in *.
  assert (Hrd : length rd = S (length line))
    by (unfold rd; rewrite length_app; simpl; lia).
  assert (Hnul' : NUL ∉ rd).
  { unfold rd. intros H. apply elem_of_app in H as [H|H]; [auto|].
    apply list_elem_of_singleton in H. discriminate. }
  pose proof (slot_lt _ _ _ Hs) as Hi.
  unfold handleClientRequest. rewrite Hs, Hlen.
  destruct rd as [|c0 rd0] eqn:Erd; [simpl in Hrd; lia|].
  rewrite <- Erd in *. clear Erd c0 rd0.
  change (Z.to_nat 0) with 0%nat.
  destruct (Nat.ltb_spec (length (buffer s)) (0 + length rd)); [lia|].
  set (s1 := withBuffer (writeAt 0 rd (buffer s)) 0 (type s) s).
  set (n1 := setSlot i s1 n).
  assert (Hs1 : slot n1 i = Some s1) by (apply slot_setSlot_eq; eauto).
  assert (Hout1 : outputType n1 = Some DATA_OUTPUT_COPY).
  { unfold n1. rewrite (outputType_setSlot i s); [exact Hout|exact Hs|reflexivity]. }
  set (buf := rd ++ NUL :: drop (S (length rd)) (buffer s)).
  assert (Hbuf : <[Z.to_nat (Z.of_nat (length rd)) := NUL]> (buffer s1) = buf).
  { rewrite Nat2Z.id. simpl. apply insert_writeAt. lia. }
  assert (Hl1 : length (buffer s1) = length (buffer s)).
  { simpl. unfold writeAt. simpl. rewrite length_app, length_drop. lia. }
  cbn [requestLoop].
  destruct (Z.gtb_spec (Z.of_nat (length rd)) 0); [|lia].
  rewrite Hs1. rewrite Hl1.
  destruct (Z.leb_spec (Z.of_nat (length (buffer s))) (Z.of_nat (length rd)));
    [lia|].
  rewrite Hbuf.
  assert (Hcs : cstring buf = rd) by (apply cstring_terminated; exact Hnul').
  assert (Hchr : strchr buf LF = Some (length line)).
  { unfold strchr. simpl is_nul. cbv iota. rewrite Hcs.
    apply find_chr_end. exact Hlf. }
  assert (Hstr : strstr buf marker = None)
    by (unfold strstr; rewrite Hcs; exact Hmark).
  rewrite Hchr, Hstr.
  set (s2 := withBuffer buf ((len s1 + Z.of_nat (length rd)) mod 2 ^ 64)
               (type s1) s1).
  assert (Hout2 : outputType (setSlot i s2 n1) = Some DATA_OUTPUT_COPY).
  { rewrite (outputType_setSlot i s1); [exact Hout1|exact Hs1|reflexivity]. }
  rewrite Hout2.
  assert (Htake : take (S (length line)) buf = rd).
  { unfold buf. rewrite <- Hrd. apply take_app_length. }
  assert (Hdrop : drop (S (length line)) buf
                  = NUL :: drop (S (length rd)) (buffer s)).
  { unfold buf. rewrite <- Hrd. apply drop_app_length. }
  rewrite Htake, Hfeed, Hdrop.
  change (strlen (NUL :: drop (S (length rd)) (buffer s))) with 0%nat.
  cbn [Nat.eqb negb andb].
  assert (Hzero : Z.of_nat (length rd) - Z.of_nat (S (length line)) = 0) by lia.
  rewrite Hzero. change (0 >? 0) with false. cbv iota.
  eexists _, _. split; [reflexivity|].
  split; [apply slot_setSlot_eq; eauto|].
  assert (Hlen1 : len s1 = 0) by reflexivity.
  split.
  { cbn [len withBuffer]. rewrite Hlen1, Z.add_0_l.
    rewrite (Z.mod_small (Z.of_nat (length rd))).
    - rewrite Hrd. rewrite Z.sub_diag. reflexivity.
    - change (2 ^ 64) with 18446744073709551616. lia. }
  split; [reflexivity|]. split; [reflexivity|].
  intros j Hj. rewrite slot_setSlot_ne by lia.
  unfold n1. rewrite slot_setSlot_ne by lia. reflexivity.
Qed.

Lemma copy_mode_feeds_the_line_witness :
  exists n' s',
    handleClientRequest 2 Ex.h0 0 1000 (Ex.line_depth ++ [LF]) 3
      Ex.net_copy data0 = Some (Ret (n', Ex.store_depth, [])) /\
    slot n' 3 = Some s' /\ len s' = 0.
Proof.
  destruct (copy_mode_feeds_the_line 0 Ex.h0 0 1000 Ex.line_depth 3
              Ex.net_copy data0 Ex.store_depth (Ex.mkS 5 CLIENT_JSON 500))
    as (n' & s' & Hr & Hs' & Hlen & _).
  - reflexivity.
  - reflexivity.
  - vm_compute. reflexivity.
  - apply Nat.ltb_lt. vm_compute. reflexivity.
  - refine (bool_decide_unpack _ _). vm_compute. exact I.
  - refine (bool_decide_unpack _ _). vm_compute. exact I.
  - vm_compute. reflexivity.
  - reflexivity.
  - vm_compute. reflexivity.
  - exists n', s'. auto.
Defined.

(** ** A full table *)

(** X27: [setFdUsed] refuses a descriptor only when the table is full.
    On a table whose indices in use lie inside [stream] the call always
    returns; and when it returns -1 then [socketIdxMax] is the last
    index of the table and no slot is free or bound to the descriptor:
    the descriptor is closed and the table is left as it was. *)
Theorem setFdUsed_refuses_only_a_full_table t x ct n :
  -1 <= socketIdxMax n < FD_SETSIZE n ->
  exists i n' evs,
    setFdUsed t x ct n = Ret (i, n', evs) /\
    (i < 0 ->
     socketIdxMax n + 1 = FD_SETSIZE n /\
     (forall j s, slot n j = Some s -> fd s <> -1 /\ fd s <> x) /\
     n' = n /\ evs = [EvClose x]).
Proof.
  intros Hmax. unfold setFdUsed.
  pose proof (findFree_spec x (Z.to_nat (socketIdxMax n + 1)) (stream n) 0)
    as (Hb & Hbefore & _).
  set (k := findFree x (stream n) 0 (Z.to_nat (socketIdxMax n + 1))) in *.
  unfold FD_SETSIZE in *.
  destruct (Z.eqb_spec k (Z.of_nat (length (stream n)))) as [Hfull|Hroom].
  - eexists _, _, _. split; [reflexivity|]. intros _.
    split; [lia|]. split; [|auto].
    intros j s Hs. apply slot_lookup in Hs as [Hj Hs].
    apply (Hbefore (Z.to_nat j) s); [|exact Hs].
    apply lookup_lt_Some in Hs. lia.
  - destruct (slot_is_Some n k) as [s Hs]; [unfold FD_SETSIZE; lia|].
    rewrite Hs. eexists _, _, _. split; [reflexivity|]. lia.
Qed.

Lemma setFdUsed_refuses_only_a_full_table_witness :
  exists i n' evs,
    setFdUsed 1000 9 CLIENT_JSON (Ex.net_with CLIENT_JSON) = Ret (i, n', evs) /\
    (i < 0 ->
     socketIdxMax (Ex.net_with CLIENT_JSON) + 1
     = FD_SETSIZE (Ex.net_with CLIENT_JSON) /\
     (forall j s, slot (Ex.net_with CLIENT_JSON) j = Some s ->
                  fd s <> -1 /\ fd s <> 9) /\
     n' = Ex.net_with CLIENT_JSON /\ evs = [EvClose 9]).
Proof.
  apply (setFdUsed_refuses_only_a_full_table 1000 9 CLIENT_JSON
           (Ex.net_with CLIENT_JSON)).
  unfold FD_SETSIZE. simpl. lia.
Defined.

(** ** One line from any client *)

(** X28: Any client can hang a server started by [main].  After [main],
    and after any passes of the server loop, a stream with an empty
    buffer that delivers in one [read] a line with its newline and
    without the marker sends [handleClientRequest] into a loop that no
    number of passes ends: slot [stdoutfd] holds a listener or a client,
    never standard output in copy mode. *)
Theorem any_line_hangs_server_started_by_main
    size t u0 args l1 l2 cfg n evs0 hfuel h0 junk ks n' d' evs
    fuel now rd i s :
  (2 <= size)%nat ->
  l_socket l1 <> 0 ->
  l_socket l2 <> l_socket l1 ->
  main size t u0 args l1 l2 = Ret (cfg, n, evs0) ->
  doServerWork hfuel h0 junk ks n data0 = Some (Ret (n', d', evs)) ->
  slot n' i = Some s ->
  len s = 0 ->
  (length rd < length (buffer s))%nat ->
  (NUL ∉ rd) -> (LF ∈ rd) ->
  find_sub marker rd = None ->
  handleClientRequest fuel h0 junk now rd i n' d' = None.
Proof.
  intros Hsize Hl1 Hl2 Hm Hwork Hs Hlen Hrd Hnul Hlf Hmark.
  destruct (main_table _ _ _ _ _ _ _ _ _ Hsize Hl1 Hl2 Hm) as (so & Hso & _ & Hty).
  apply doServerWork_inv in Hwork as ((so' & Hso' & Hty') & _).
  2:{ exists so. split; [exact Hso|]. rewrite Hty. discriminate. }
  apply (handleClientRequest_hangs fuel h0 junk now rd i n' d' s (type so'));
    try assumption.
  unfold outputType. rewrite Hso'. reflexivity.
Qed.

Lemma any_line_hangs_server_started_by_main_witness :
  exists cfg n evs0 n' d' evs,
    main 8 999000 0 [lit "-o"] Ex.listener_json Ex.listener_nmea
    = Ret (cfg, n, evs0) /\
    doServerWork 10 Ex.h0 0 [Ex.tick_accept] n data0
    = Some (Ret (n', d', evs)) /\
    handleClientRequest 1000 Ex.h0 0 1000 (Ex.line_depth ++ [LF]) 3 n' d' = None.
Proof.
  destruct (main 8 999000 0 [lit "-o"] Ex.listener_json Ex.listener_nmea)
    as [[[cfg n] evs0]| |] eqn:Hm; try (vm_compute in Hm; discriminate).
  pose proof Hm as Hm'. vm_compute in Hm'. injection Hm' as _ Hn _.
  destruct (doServerWork 10 Ex.h0 0 [Ex.tick_accept] n data0)
    as [[[[n' d'] evs]| |]|] eqn:Hw;
    try (rewrite <- Hn in Hw; vm_compute in Hw; discriminate).
  exists cfg, n, evs0, n', d', evs.
  split; [reflexivity|]. split; [exact Hw|].
  pose proof Hw as Hw'. rewrite <- Hn in Hw'. vm_compute in Hw'.
  injection Hw' as Hn' _ _.
  destruct (slot n' 3) as [s|] eqn:Hs;
    [|rewrite <- Hn' in Hs; vm_compute in Hs; discriminate].
  apply (any_line_hangs_server_started_by_main 8 999000 0 [lit "-o"]
           Ex.listener_json Ex.listener_nmea cfg n evs0 10 Ex.h0 0
           [Ex.tick_accept] n' d' evs 1000 1000 (Ex.line_depth ++ [LF]) 3 s);
    try assumption; try lia; try discriminate.
  - rewrite <- Hn' in Hs. vm_compute in Hs. injection Hs as <-. reflexivity.
  - rewrite <- Hn' in Hs. vm_compute in Hs. injection Hs as <-.
    apply Nat.ltb_lt. vm_compute. reflexivity.
  - refine (bool_decide_unpack _ _). vm_compute. exact I.
  - refine (bool_decide_unpack _ _). vm_compute. exact I.
  - vm_compute. reflexivity.
Defined.
